(** * Distributed agent network: task queue, agent registry, domain spawner

    A shallow embedding of [lib/messaging.py], [lib/registry.py],
    [lib/spawner.py], [lib/domain_runner.py] and [lib/health_check.py].  The
    shared key-value store and the container runtime are modelled as
    explicit states threaded through every operation; clock readings and
    fresh identifiers are explicit arguments of the operation that takes
    them. *)

From Stdlib Require Import Ascii String ZArith.
From stdpp Require Import gmap strings list fin_maps countable pretty.
From Equations Require Import Equations.

Local Open Scope string_scope.
Local Open Scope list_scope.

(** ** Dynamic values

    The JSON-serialisable values that travel in payloads, contexts and
    outputs.  A Python [dict] with string keys is an association list in
    insertion order. *)

#[local] Unset Elimination Schemes.
Inductive json : Type :=
  | JNull
  | JBool (b : bool)
  | JInt (n : Z)
  | JStr (s : string)
  | JList (xs : list json)
  | JDict (kvs : list (string * json)).
#[local] Set Elimination Schemes.

Abbreviation dict := (list (string * json)).

(** ** Results and exceptions *)

Inductive exn : Type :=
  | ValidationError (model : string) (field : string)
  | DockerException (msg : string)
  | UnicodeDecodeError (reason : string).

Definition newline : string := String "010"%char "".

Inductive outcome (A : Type) : Type :=
  | Return (a : A)
  | Raise (e : exn).
Arguments Return {A} a.
Arguments Raise {A} e.

(** Python truthiness of a string: [if s:]. *)
Definition truthy (s : string) : bool := negb (String.eqb s "").

(** Truthiness of an optional string: [None] and [""] are both falsy. *)
Definition truthy_opt (o : option string) : bool :=
  match o with Some s => truthy s | None => false end.

(** ** The key-value store

    One map per value type.  The keys the three modules use are separated by
    type through their prefixes, so no operation here can meet a key of the
    wrong type.  A missing list, hash or set reads as the empty one, as in
    the store. *)

Module Redis.

Record t : Type := mk {
  lists : gmap string (list string);
  hashes : gmap string (gmap string string);
  sets : gmap string (gset string);
  (* plain string keys, each with its remaining time to live if any *)
  strings : gmap string (string * option nat);
  (* every message handed to PUBLISH, newest first *)
  published : list (string * string)
}.

Definition empty : t := mk ∅ ∅ ∅ ∅ [].

Definition with_lists (f : gmap string (list string) → gmap string (list string)) (r : t) : t :=
  mk (f (lists r)) (hashes r) (sets r) (strings r) (published r).
Definition with_hashes (f : gmap string (gmap string string) → gmap string (gmap string string)) (r : t) : t :=
  mk (lists r) (f (hashes r)) (sets r) (strings r) (published r).
Definition with_sets (f : gmap string (gset string) → gmap string (gset string)) (r : t) : t :=
  mk (lists r) (hashes r) (f (sets r)) (strings r) (published r).
Definition with_strings (f : gmap string (string * option nat) → gmap string (string * option nat)) (r : t) : t :=
  mk (lists r) (hashes r) (sets r) (f (strings r)) (published r).

(** LRANGE key 0 -1: the whole list, head first. *)
Definition lrange (key : string) (r : t) : list string :=
  default [] (lists r !! key).

Definition llen (key : string) (r : t) : nat := length (lrange key r).

(** LPUSH: insert at the head. *)
Definition lpush (key value : string) (r : t) : t :=
  with_lists (insert key (value :: lrange key r)) r.

(** RPUSH: insert at the tail. *)
Definition rpush (key value : string) (r : t) : t :=
  with_lists (insert key (lrange key r ++ [value])) r.

(** The tail element of a list and the list without it. *)
Fixpoint unsnoc (l : list string) : option (list string * string) :=
  match l with
  | [] => None
  | x :: l' =>
      match unsnoc l' with
      | None => Some ([], x)
      | Some (init, z) => Some (x :: init, z)
      end
  end.

(** RPOPLPUSH src dst: remove the tail of [src] and insert it at the head
    of [dst], in one command. *)
Definition rpoplpush (src dst : string) (r : t) : option string * t :=
  match unsnoc (lrange src r) with
  | None => (None, r)
  | Some (init, x) =>
      let r1 := with_lists (insert src init) r in
      (Some x, with_lists (insert dst (x :: lrange dst r1)) r1)
  end.

(** BRPOPLPUSH: the blocking form.  With no concurrent producer the wait
    on an empty list ends with the timeout and nothing popped; on a
    non-empty list it is RPOPLPUSH. *)
Definition brpoplpush (src dst : string) (timeout : Z) (r : t) : option string * t :=
  rpoplpush src dst r.

Fixpoint remove_first (value : string) (l : list string) : list string :=
  match l with
  | [] => []
  | x :: l' => if decide (x = value) then l' else x :: remove_first value l'
  end.

(** LREM key 1 value: remove the first occurrence from the head. *)
Definition lrem1 (key value : string) (r : t) : t :=
  with_lists (insert key (remove_first value (lrange key r))) r.

Definition hgetall (key : string) (r : t) : gmap string string :=
  default ∅ (hashes r !! key).

(** HSET key mapping: the given fields overwrite, the others stay. *)
Definition hset (key : string) (mapping : gmap string string) (r : t) : t :=
  with_hashes (insert key (mapping ∪ hgetall key r)) r.

Definition hset1 (key field value : string) (r : t) : t :=
  hset key {[ field := value ]} r.

Definition smembers (key : string) (r : t) : gset string :=
  default ∅ (sets r !! key).

Definition sadd (key member : string) (r : t) : t :=
  with_sets (insert key ({[ member ]} ∪ smembers key r)) r.

Definition srem (key member : string) (r : t) : t :=
  with_sets (insert key (smembers key r ∖ {[ member ]})) r.

Definition get (key : string) (r : t) : option string :=
  fst <$> strings r !! key.

Definition set (key value : string) (r : t) : t :=
  with_strings (insert key (value, None)) r.

Definition setex (key : string) (ttl : nat) (value : string) (r : t) : t :=
  with_strings (insert key (value, Some ttl)) r.

(** DEL key, whatever its type. *)
Definition delete (key : string) (r : t) : t :=
  mk (base.delete key (lists r)) (base.delete key (hashes r))
     (base.delete key (sets r)) (base.delete key (strings r)) (published r).

(** EXISTS key on a string key. *)
Definition exists_ (key : string) (r : t) : nat :=
  match strings r !! key with Some _ => 1 | None => 0 end.

Definition publish (channel message : string) (r : t) : t :=
  mk (lists r) (hashes r) (sets r) (strings r) ((channel, message) :: published r).

End Redis.

(** An exception-or-value computation composes in the usual way. *)
Global Instance outcome_ret : MRet outcome := λ A a, Return a.
Global Instance outcome_bind : MBind outcome := λ A B f m,
  match m with Return a => f a | Raise e => Raise e end.
Global Instance outcome_fmap : FMap outcome := λ A B f m,
  match m with Return a => Return (f a) | Raise e => Raise e end.

(** ** Messages and results ([lib/messaging.py]) *)

Module TaskMessage.
Record t : Type := mk {
  task_id : string;
  type : string;
  source : string;
  destination : string;
  timestamp : string;
  payload : dict;
  metadata : dict
}.
End TaskMessage.

(** Field validators of the record models: a [str] field takes a string, an
    optional field also takes [None], a [dict] field takes a mapping. *)
Definition as_str (model field : string) (v : json) : outcome string :=
  match v with JStr s => Return s | _ => Raise (ValidationError model field) end.
Definition as_opt_str (model field : string) (v : option json) : outcome (option string) :=
  match v with
  | None | Some JNull => Return None
  | Some (JStr s) => Return (Some s)
  | Some _ => Raise (ValidationError model field)
  end.
Definition as_opt_dict (model field : string) (v : option json) : outcome (option dict) :=
  match v with
  | None | Some JNull => Return None
  | Some (JDict d) => Return (Some d)
  | Some _ => Raise (ValidationError model field)
  end.

Module TaskResult.
Record t : Type := mk {
  task_id : string;
  status : string;
  output : option dict;
  error : option string;
  started_at : option string;
  completed_at : option string
}.

(** [{k: v for k, v in self.model_dump().items() if v is not None}] *)
Definition to_dict (r : t) : gmap string json :=
  list_to_map
    (omap id
      [ Some ("task_id", JStr (task_id r));
        Some ("status", JStr (status r));
        (λ d, ("output", JDict d)) <$> output r;
        (λ s, ("error", JStr s)) <$> error r;
        (λ s, ("started_at", JStr s)) <$> started_at r;
        (λ s, ("completed_at", JStr s)) <$> completed_at r ]).

(** [model_validate]: [task_id] is required, [status] defaults to
    "pending", the rest default to [None]; unknown keys are ignored. *)
Definition from_dict (data : gmap string json) : outcome t :=
  match data !! "task_id" with
  | None => Raise (ValidationError "TaskResult" "task_id")
  | Some v =>
      tid ← as_str "TaskResult" "task_id" v;
      st ← match data !! "status" with
           | None => Return "pending"
           | Some v => as_str "TaskResult" "status" v
           end;
      out ← as_opt_dict "TaskResult" "output" (data !! "output");
      err ← as_opt_str "TaskResult" "error" (data !! "error");
      sa ← as_opt_str "TaskResult" "started_at" (data !! "started_at");
      ca ← as_opt_str "TaskResult" "completed_at" (data !! "completed_at");
      Return (mk tid st out err sa ca)
  end.
End TaskResult.

(** The two serialisers the module relies on: the model's own JSON form
    ([model_dump_json] / [model_validate_json]) and [json.dumps] /
    [json.loads].  A failed parse is [None]. *)
Class Codec : Type := {
  to_json : TaskMessage.t → string;
  from_json : string → option TaskMessage.t;
  json_dumps : json → string;
  json_loads : string → option json
}.

(** What the serialisers guarantee: parsing a serialised value gives the
    value back, and no serialised value is the empty string. *)
Class CodecLaws (C : Codec) : Prop := {
  from_to_json : ∀ t, from_json (to_json t) = Some t;
  to_json_truthy : ∀ t, to_json t ≠ "";
  loads_dumps : ∀ j, json_loads (json_dumps j) = Some j;
  dumps_truthy : ∀ j, json_dumps j ≠ ""
}.

(** ** A reference serialiser

    One concrete pair of serialisers that meets [CodecLaws]: a value is
    flattened to a tree, the tree is numbered, and the number is written in
    binary behind a one-character tag.  It stands in for the JSON text
    wherever a statement is evaluated on concrete data. *)

Module Wire.

Abbreviation tree := (gen_tree (bool + Z + string)).

Fixpoint json_to_tree (j : json) : tree :=
  match j with
  | JNull => GenNode 0 []
  | JBool b => GenLeaf (inl (inl b))
  | JInt n => GenLeaf (inl (inr n))
  | JStr s => GenLeaf (inr s)
  | JList xs => GenNode 1 (map json_to_tree xs)
  | JDict kvs =>
      GenNode 2 (map (λ kv, GenNode 3 [GenLeaf (inr (fst kv)); json_to_tree (snd kv)]) kvs)
  end.

Fixpoint tree_to_json (t : tree) : json :=
  match t with
  | GenLeaf (inl (inl b)) => JBool b
  | GenLeaf (inl (inr n)) => JInt n
  | GenLeaf (inr s) => JStr s
  | GenNode 1 ts => JList (map tree_to_json ts)
  | GenNode 2 ts =>
      JDict (map (λ t, match t with
                       | GenNode _ [GenLeaf (inr k); v] => (k, tree_to_json v)
                       | _ => ("", JNull)
                       end) ts)
  | GenNode _ _ => JNull
  end.

Definition msg_to_tree (m : TaskMessage.t) : tree :=
  GenNode 0
    [ GenLeaf (inr (TaskMessage.task_id m));
      GenLeaf (inr (TaskMessage.type m));
      GenLeaf (inr (TaskMessage.source m));
      GenLeaf (inr (TaskMessage.destination m));
      GenLeaf (inr (TaskMessage.timestamp m));
      json_to_tree (JDict (TaskMessage.payload m));
      json_to_tree (JDict (TaskMessage.metadata m)) ].

Definition tree_to_msg (t : tree) : option TaskMessage.t :=
  match t with
  | GenNode _ [ GenLeaf (inr a); GenLeaf (inr b); GenLeaf (inr c);
                GenLeaf (inr d); GenLeaf (inr e); p; m ] =>
      match tree_to_json p, tree_to_json m with
      | JDict p, JDict m => Some (TaskMessage.mk a b c d e p m)
      | _, _ => None
      end
  | _ => None
  end.

Fixpoint pos_to_bits (p : positive) : string :=
  match p with
  | xH => ""
  | xO p => String "0" (pos_to_bits p)
  | xI p => String "1" (pos_to_bits p)
  end.

Fixpoint bits_to_pos (s : string) : option positive :=
  match s with
  | "" => Some xH
  | String c s =>
      p ← bits_to_pos s;
      if decide (c = "0"%char) then Some (xO p)
      else if decide (c = "1"%char) then Some (xI p)
      else None
  end.

Definition write (tag : ascii) (t : tree) : string :=
  String tag (pos_to_bits (encode t)).

Definition read (tag : ascii) (s : string) : option tree :=
  match s with
  | String c bits => if decide (c = tag) then bits_to_pos bits ≫= decode else None
  | "" => None
  end.

Definition codec : Codec := {|
  to_json m := write "{" (msg_to_tree m);
  from_json s := read "{" s ≫= tree_to_msg;
  json_dumps j := write "j" (json_to_tree j);
  json_loads s := tree_to_json <$> read "j" s
|}.

End Wire.

Module AgentMessaging.
Section ops.
Context {C : Codec}.

Definition pending_key (domain : string) : string := "tasks:pending:" +:+ domain.
Definition active_key (domain : string) : string := "tasks:active:" +:+ domain.
Definition result_key (task_id : string) : string := "results:" +:+ task_id.
Definition notifications (domain : string) : string := "notifications:" +:+ domain.

(** The arguments of [publish_task]; [fresh_id] is the identifier the
    message draws for itself and [now] the clock reading it is stamped
    with. *)
Record publish_args : Type := mk_args {
  description : string;
  requirements : option (list json);
  context : option dict;
  priority : string;
  timeout_seconds : Z;
  source : string;
  fresh_id : string;
  now : string
}.

(** The message [publish_task] builds. *)
Definition new_task (domain : string) (a : publish_args) : TaskMessage.t :=
  TaskMessage.mk (fresh_id a) "task_assignment" (source a) domain (now a)
    [ ("description", JStr (description a));
      ("requirements", JList (default [] (requirements a)));
      ("context", JDict (default [] (context a))) ]
    [ ("priority", JStr (priority a));
      ("timeout_seconds", JInt (timeout_seconds a)) ].

(** The entries of a record-to-hash mapping that are strings. *)
Definition string_fields (m : gmap string json) : gmap string string :=
  omap (λ v, match v with JStr s => Some s | _ => None end) m.

(** A fresh record has no output, so every entry written is a string. *)
Definition _init_result (task_id : string) (r : Redis.t) : Redis.t :=
  let result := TaskResult.mk task_id "pending" None None None None in
  Redis.hset (result_key task_id) (string_fields (TaskResult.to_dict result)) r.

Definition _update_result (task_id : string) (kwargs : gmap string string)
    (now : string) (r : Redis.t) : Redis.t :=
  let kwargs :=
    if decide (kwargs !! "status" = Some "in_progress")
    then <["started_at" := now]> kwargs else kwargs in
  Redis.hset (result_key task_id) kwargs r.

Definition publish_task (domain : string) (a : publish_args) (r : Redis.t)
    : string * Redis.t :=
  let task := new_task domain a in
  let r := Redis.lpush (pending_key domain) (to_json task) r in
  let r := _init_result (TaskMessage.task_id task) r in
  let r := Redis.publish (notifications domain) (to_json task) r in
  (TaskMessage.task_id task, r).

Definition get_next_task (domain : string) (timeout : Z) (now : string)
    (r : Redis.t) : outcome (option TaskMessage.t) * Redis.t :=
  let '(result, r) :=
    if (0 <? timeout)%Z
    then Redis.brpoplpush (pending_key domain) (active_key domain) timeout r
    else Redis.rpoplpush (pending_key domain) (active_key domain) r in
  match result with
  | Some raw =>
      if truthy raw then
        match from_json raw with
        | Some task =>
            (Return (Some task),
             _update_result (TaskMessage.task_id task)
               {[ "status" := "in_progress" ]} now r)
        | None => (Raise (ValidationError "TaskMessage" raw), r)
        end
      else (Return None, r)
  | None => (Return None, r)
  end.

Definition complete_task (domain : string) (task : TaskMessage.t)
    (r : Redis.t) : Redis.t :=
  Redis.lrem1 (active_key domain) (to_json task) r.

Definition get_queue_length (domain : string) (r : Redis.t) : nat :=
  Redis.llen (pending_key domain) r.

(** The fields [publish_result] writes, in the order it builds them. *)
Definition result_data (output : dict) (status : string)
    (error : option string) (now : string) : list (string * string) :=
  [ ("status", status);
    ("output", json_dumps (JDict output));
    ("completed_at", now) ]
  ++ (if truthy_opt error then [("error", default "" error)] else []).

Definition publish_result (task_id : string) (output : dict)
    (status : string) (error : option string) (now : string)
    (r : Redis.t) : Redis.t :=
  let data := result_data output status error now in
  let r := Redis.hset (result_key task_id) (list_to_map data) r in
  Redis.publish (result_key task_id)
    (json_dumps (JDict (prod_map id JStr <$> data))) r.

(** What [get_result] hands to the record model: the stored strings, with
    a non-empty "output" replaced by its parse when it parses. *)
Definition parsed_data (data : gmap string string) : gmap string json :=
  let fields : gmap string json := JStr <$> data in
  match data !! "output" with
  | Some o =>
      if truthy o then
        match json_loads o with
        | Some j => <["output" := j]> fields
        | None => fields
        end
      else fields
  | None => fields
  end.

(** With a positive [timeout] the call first waits on the task's channel
    and polls the record; the wait only reads, and the answer is the read
    that follows it. *)
Definition get_result (task_id : string) (timeout : Z) (r : Redis.t)
    : outcome (option TaskResult.t) :=
  let data := Redis.hgetall (result_key task_id) r in
  if decide (data = ∅) then Return None
  else Some <$> TaskResult.from_dict (parsed_data data).

(** *** Polling and logs *)

Definition is_terminal_status (status : string) : bool :=
  bool_decide (status = "completed" ∨ status = "failed").

(** What a waiting caller sees: the store as it stands at its k-th read
    (other agents write in between), and the milliseconds one read takes. *)
Record poll_env : Type := mk_poll_env {
  store_at : nat → Redis.t;
  read_cost : positive
}.

(** The loop of [wait_for_result].  [t] is the clock in milliseconds, [k]
    counts the reads made so far and [interval] is [poll_interval] in
    milliseconds. *)
Equations? poll_result (env : poll_env) (task_id : string) (interval : nat)
    (deadline t : Z) (k : nat) : outcome (option TaskResult.t)
    by wf (Z.to_nat (deadline - t)) lt :=
  poll_result env task_id interval deadline t k with decide (t < deadline)%Z => {
    | right _ => Return None
    | left _ with get_result task_id 0 (store_at env k) => {
        | Raise e => Raise e
        | Return (Some result) with is_terminal_status (TaskResult.status result) => {
            | true => Return (Some result)
            | false =>
                poll_result env task_id interval deadline
                  (t + Z.pos (read_cost env) + Z.of_nat interval)%Z (S k) }
        | Return None =>
            poll_result env task_id interval deadline
              (t + Z.pos (read_cost env) + Z.of_nat interval)%Z (S k) } }.
Proof. all: lia. Qed.

Definition wait_for_result (env : poll_env) (task_id : string) (timeout : Z)
    (interval : nat) (clock : Z) : outcome (option TaskResult.t) :=
  poll_result env task_id interval (clock + timeout * 1000)%Z clock 0.

Definition logs_key (task_id : string) : string :=
  "results:" +:+ task_id +:+ ":logs".

(** [now] is the clock reading the entry is stamped with.  The key is a
    list key of its own as long as no task identifier ends in ":logs",
    which holds for the identifiers [publish_task] draws. *)
Definition add_log (task_id log_entry now : string) (r : Redis.t) : Redis.t :=
  Redis.rpush (logs_key task_id) ("[" +:+ now +:+ "] " +:+ log_entry) r.

Definition get_logs (task_id : string) (r : Redis.t) : list string :=
  Redis.lrange (logs_key task_id) r.

End ops.
End AgentMessaging.

(** ** The agent registry ([lib/registry.py]) *)

Module AgentInfo.
Record t : Type := mk {
  agent_id : string;
  role : string;
  domain_type : option string;
  status : string;
  container_id : option string;
  created_at : string;
  last_heartbeat : option string
}.

(** [{k: v for k, v in self.model_dump().items() if v is not None}] *)
Definition to_dict (a : t) : gmap string string :=
  list_to_map
    (omap id
      [ Some ("agent_id", agent_id a);
        Some ("role", role a);
        (λ s, ("domain_type", s)) <$> domain_type a;
        Some ("status", status a);
        (λ s, ("container_id", s)) <$> container_id a;
        Some ("created_at", created_at a);
        (λ s, ("last_heartbeat", s)) <$> last_heartbeat a ]).

(** [model_validate] of a hash read from the store, whose values are all
    strings: [agent_id] and [role] are required, [status] defaults to
    "starting" and [created_at] to the clock reading [now]. *)
Definition from_dict (now : string) (data : gmap string string) : outcome t :=
  match data !! "agent_id", data !! "role" with
  | None, _ => Raise (ValidationError "AgentInfo" "agent_id")
  | _, None => Raise (ValidationError "AgentInfo" "role")
  | Some aid, Some rl =>
      Return (mk aid rl (data !! "domain_type")
                (default "starting" (data !! "status"))
                (data !! "container_id")
                (default now (data !! "created_at"))
                (data !! "last_heartbeat"))
  end.
End AgentInfo.

Module AgentRegistry.

Definition HEARTBEAT_TTL : nat := 30.

Definition info_key (agent_id : string) : string := "agents:info:" +:+ agent_id.
Definition heartbeat_key (agent_id : string) : string := "agents:heartbeat:" +:+ agent_id.
Definition domain_set (domain_type : string) : string := "agents:domains:" +:+ domain_type.

(** [created] is the clock reading taken when the record is built and
    [beat] the later one written as the first heartbeat.  The pipeline
    runs its commands in the order they were queued. *)
Definition register (agent_id role : string) (domain_type container_id : option string)
    (created beat : string) (r : Redis.t) : AgentInfo.t * Redis.t :=
  let agent := AgentInfo.mk agent_id role domain_type "active" container_id created None in
  let r := Redis.hset (info_key agent_id) (AgentInfo.to_dict agent) r in
  let r := Redis.sadd "agents:all" agent_id r in
  let r :=
    if decide (role = "main") then Redis.set "agents:main" agent_id r
    else if decide (role = "domain") then
      let r := Redis.sadd "agents:domains" agent_id r in
      match domain_type with
      | Some dt => if truthy dt then Redis.sadd (domain_set dt) agent_id r else r
      | None => r
      end
    else if decide (role = "worker") then Redis.sadd "agents:workers" agent_id r
    else r in
  let r := Redis.setex (heartbeat_key agent_id) HEARTBEAT_TTL beat r in
  (agent, r).

Definition get_agent (agent_id : string) (now : string) (r : Redis.t)
    : outcome (option AgentInfo.t) :=
  let data := Redis.hgetall (info_key agent_id) r in
  if decide (data = ∅) then Return None
  else Some <$> AgentInfo.from_dict now data.

Definition deregister (agent_id : string) (now : string) (r : Redis.t)
    : outcome bool * Redis.t :=
  match get_agent agent_id now r with
  | Raise e => (Raise e, r)
  | Return None => (Return false, r)
  | Return (Some info) =>
      let r := Redis.srem "agents:all" agent_id r in
      let r :=
        if decide (AgentInfo.role info = "main") then Redis.delete "agents:main" r
        else if decide (AgentInfo.role info = "domain") then
          let r := Redis.srem "agents:domains" agent_id r in
          match AgentInfo.domain_type info with
          | Some dt => if truthy dt then Redis.srem (domain_set dt) agent_id r else r
          | None => r
          end
        else if decide (AgentInfo.role info = "worker") then
          Redis.srem "agents:workers" agent_id r
        else r in
      let r := Redis.delete (info_key agent_id) r in
      let r := Redis.delete (heartbeat_key agent_id) r in
      (Return true, r)
  end.

(** The loop [for agent_id in agent_ids: agent = get_agent(agent_id); if
    agent: agents.append(agent)]. *)
Fixpoint fetch_agents (agent_ids : list string) (now : string) (r : Redis.t)
    : outcome (list AgentInfo.t) :=
  match agent_ids with
  | [] => Return []
  | agent_id :: rest =>
      agent ← get_agent agent_id now r;
      agents ← fetch_agents rest now r;
      Return (match agent with Some a => a :: agents | None => agents end)
  end.

(** A set is walked in the order [elements] lists it; the code relies on
    no particular order. *)
Definition list_agents (role : option string) (now : string) (r : Redis.t)
    : outcome (list AgentInfo.t) :=
  let agent_ids :=
    if decide (role = Some "domain") then Redis.smembers "agents:domains" r
    else if decide (role = Some "worker") then Redis.smembers "agents:workers" r
    else Redis.smembers "agents:all" r in
  fetch_agents (elements agent_ids) now r.

Definition get_main_orchestrator (now : string) (r : Redis.t)
    : outcome (option AgentInfo.t) :=
  match Redis.get "agents:main" r with
  | Some agent_id => if truthy agent_id then get_agent agent_id now r else Return None
  | None => Return None
  end.

Definition get_domain_orchestrators (domain_type : option string) (now : string)
    (r : Redis.t) : outcome (list AgentInfo.t) :=
  let agent_ids :=
    match domain_type with
    | Some dt => if truthy dt then Redis.smembers (domain_set dt) r
                 else Redis.smembers "agents:domains" r
    | None => Redis.smembers "agents:domains" r
    end in
  fetch_agents (elements agent_ids) now r.

Definition is_healthy (agent_id : string) (r : Redis.t) : bool :=
  bool_decide (0 < Redis.exists_ (heartbeat_key agent_id) r).

(** The filter of [find_available_domain]. *)
Definition available (domains : list AgentInfo.t) (r : Redis.t) : list AgentInfo.t :=
  filter (λ d, AgentInfo.status d = "active" ∧ is_healthy (AgentInfo.agent_id d) r = true)
         domains.

Definition find_available_domain (domain_type : string) (now : string)
    (r : Redis.t) : outcome (option AgentInfo.t) :=
  domains ← get_domain_orchestrators (Some domain_type) now r;
  Return (head (available domains r)).

Definition heartbeat (agent_id : string) (now : string) (r : Redis.t)
    : bool * Redis.t :=
  let r := Redis.setex (heartbeat_key agent_id) HEARTBEAT_TTL now r in
  let r := Redis.hset1 (info_key agent_id) "last_heartbeat" now r in
  (true, r).

Definition update_status (agent_id status : string) (r : Redis.t) : bool * Redis.t :=
  (true, Redis.hset1 (info_key agent_id) "status" status r).

Definition set_busy (agent_id : string) (r : Redis.t) : bool * Redis.t :=
  update_status agent_id "busy" r.

Definition set_active (agent_id : string) (r : Redis.t) : bool * Redis.t :=
  update_status agent_id "active" r.

(** What the store does, on its own, when a lease's time to live runs
    out: the lease key goes, the record and the memberships stay. *)
Definition lease_expired (agent_id : string) (r : Redis.t) : Redis.t :=
  Redis.with_strings (base.delete (heartbeat_key agent_id)) r.

(** *** Reconciliation *)

Definition get_unhealthy_agents (r : Redis.t) : list string :=
  filter (λ agent_id, is_healthy agent_id r = false)
         (elements (Redis.smembers "agents:all" r)).

(** The loop of [cleanup_dead_agents] over the identifiers listed before
    it starts.  The clock reading only fills a missing [created_at] and so
    has no bearing on what is removed. *)
Fixpoint deregister_each (agent_ids : list string) (now : string) (r : Redis.t)
    : outcome (list string) * Redis.t :=
  match agent_ids with
  | [] => (Return [], r)
  | agent_id :: rest =>
      match deregister agent_id now r with
      | (Raise e, r) => (Raise e, r)
      | (Return was_removed, r) =>
          let '(res, r) := deregister_each rest now r in
          ((λ removed, if was_removed then agent_id :: removed else removed) <$> res, r)
      end
  end.

Definition cleanup_dead_agents (now : string) (r : Redis.t)
    : outcome (list string) * Redis.t :=
  deregister_each (get_unhealthy_agents r) now r.

End AgentRegistry.

(** ** The container runtime, as the spawner sees it

    The runtime is driven from outside, so its answers are data of the
    model: what [containers.run] replies, what the k-th inspection of a
    container shows, what a fetch of its log gives after that inspection,
    and how [stop] and [remove] reply. *)

Module Docker.

(** [NotFound] is a kind of [APIError] for [except] clauses; the second
    constructor stands for every other API error. *)
Inductive error : Type :=
  | NotFound (msg : string)
  | APIError (msg : string).

Record container : Type := mk_container {
  id : string;
  name : string;
  labels : gmap string string;
  status : string;
  health : option string
}.

(** What [container.logs(tail=n).decode("utf-8")] comes to: the text of
    the last lines, an error of the runtime, or bytes that are not UTF-8. *)
Inductive logs_reply : Type :=
  | Text (text : string)
  | Refused (e : error)
  | Undecodable (reason : string).

Record run_request : Type := mk_request {
  image : string;
  req_name : string;
  hostname : string;
  environment : gmap string string;
  req_labels : gmap string string;
  network : string;
  mem_limit : string;
  restart_policy : string
}.

Record t : Type := mk {
  containers : list container;
  run : run_request → error + container;
  (* the answer to the k-th [containers.get] of a wait *)
  inspect : nat → string → error + container;
  (* the answer to a fetch of the log after the k-th inspection *)
  logs : nat → container → nat → logs_reply;
  (* milliseconds one inspection takes *)
  poll_cost : nat;
  stop : container → Z → option error;
  remove : container → option error
}.

(** [containers.list(all=True, filters={"label": key=value})] *)
Definition list_by_label (key value : string) (rt : t) : list container :=
  filter (λ c, labels c !! key = Some value) (containers rt).

(** The text of an error, as [str(e)] gives it. *)
Definition message (e : error) : string :=
  match e with NotFound msg | APIError msg => msg end.

(** [containers.list(all=True, filters={"label": [...]})]: the containers
    that carry every one of the labels. *)
Definition list_by_labels (filters : list (string * string)) (rt : t) : list container :=
  filter (λ c, Forall (λ kv, labels c !! kv.1 = Some kv.2) filters) (containers rt).

End Docker.

(** ** The domain spawner ([lib/spawner.py]) *)

(** [uuid4().hex]: the 128-bit value as 32 lower-case hexadecimal digits. *)
Definition hex_char (d : N) : ascii :=
  match d with
  | 0 => "0" | 1 => "1" | 2 => "2" | 3 => "3" | 4 => "4" | 5 => "5"
  | 6 => "6" | 7 => "7" | 8 => "8" | 9 => "9" | 10 => "a" | 11 => "b"
  | 12 => "c" | 13 => "d" | 14 => "e" | _ => "f"
  end%N%char.

Fixpoint hex_digits (n : nat) (u : N) (acc : string) : string :=
  match n with
  | O => acc
  | S n => hex_digits n (u `div` 16)%N (String (hex_char (u `mod` 16)%N) acc)
  end.

Definition uuid_hex (u : N) : string := hex_digits 32 u "".

(** The slice [s[:n]]. *)
Fixpoint str_take (n : nat) (s : string) : string :=
  match n, s with
  | S n, String c s => String c (str_take n s)
  | _, _ => ""
  end.

Module DomainConfig.
Record t : Type := mk {
  domain_type : string;
  image : string;
  memory_limit : string;
  network : string;
  redis_url : string
}.
End DomainConfig.

Module DomainInfo.
Record t : Type := mk {
  domain_id : string;
  domain_type : string;
  container_id : string;
  container_name : string;
  status : string;
  created_at : string;
  health : option string
}.
End DomainInfo.

Module DomainSpawner.

Definition LABEL_PREFIX : string := "distributed-agent-network".
Definition DOMAIN_LABEL : string := LABEL_PREFIX +:+ ".domain".
Definition DOMAIN_ID_LABEL : string := LABEL_PREFIX +:+ ".domain-id".

(** The spawner object: its defaults and the process environment. *)
Record t : Type := mk {
  default_image : string;
  default_network : string;
  environ : gmap string string
}.

Definition is_terminal (status : string) : bool :=
  bool_decide (status = "exited" ∨ status = "dead").

(** The loop of [_wait_for_container].  [t] is the clock in milliseconds
    and [k] counts the inspections made so far; an inspection takes
    [poll_cost] and the sleep half a second.  An API error other than
    [NotFound] leaves the loop as it is, whether the inspection or the
    fetch of the log raised it, and so does a log that does not decode. *)
Equations? wait_loop (rt : Docker.t) (container_id : string) (timeout : Z)
    (deadline t : Z) (k : nat) : Docker.error + outcome unit
    by wf (Z.to_nat (deadline - t)) lt :=
  wait_loop rt container_id timeout deadline t k with decide (t < deadline)%Z => {
    | right _ =>
        inr (Raise (DockerException
          ("Container did not start within " +:+ pretty timeout +:+ "s")))
    | left _ with Docker.inspect rt k container_id => {
        | inl (Docker.NotFound _) =>
            inr (Raise (DockerException
              ("Container " +:+ container_id +:+ " not found")))
        | inl (Docker.APIError e) => inl (Docker.APIError e)
        | inr container with decide (Docker.status container = "running") => {
            | left _ => inr (Return ())
            | right _ with is_terminal (Docker.status container) => {
                | true with Docker.logs rt k container 50 => {
                    | Docker.Text logs =>
                        inr (Raise (DockerException
                          ("Container exited unexpectedly. Logs:" +:+ newline
                           +:+ logs)))
                    | Docker.Refused (Docker.NotFound _) =>
                        inr (Raise (DockerException
                          ("Container " +:+ container_id +:+ " not found")))
                    | Docker.Refused (Docker.APIError e) => inl (Docker.APIError e)
                    | Docker.Undecodable reason =>
                        inr (Raise (UnicodeDecodeError reason)) }
                | false =>
                    wait_loop rt container_id timeout deadline
                      (t + Z.of_nat (Docker.poll_cost rt) + 500)%Z (S k) } } } }.
Proof. lia. Qed.

Definition _wait_for_container (rt : Docker.t) (container_id : string)
    (timeout : Z) (clock : Z) : Docker.error + outcome unit :=
  wait_loop rt container_id timeout (clock + timeout * 1000)%Z clock 0.

Definition default_config (sp : t) (domain_type : string) : DomainConfig.t :=
  DomainConfig.mk domain_type (default_image sp) "1g" (default_network sp)
                  "redis://message-broker:6379".

(** The identifier built from the value [uuid4()] draws:
    [f"{domain_type}-{uuid.uuid4().hex[:8]}"]. *)
Definition new_domain_id (domain_type : string) (uuid : N) : string :=
  domain_type +:+ "-" +:+ str_take 8 (uuid_hex uuid).

(** The arguments of [containers.run].  Volume binds and the CPU quota are
    part of the request too but play no part in what the call returns. *)
Definition run_request (sp : t) (domain_type : string) (config : DomainConfig.t)
    (domain_id : string) : Docker.run_request :=
  let container_name := "domain-" +:+ domain_id in
  let environment : gmap string string :=
    {[ "AGENT_ROLE" := "domain";
       "AGENT_ID" := domain_id;
       "DOMAIN_TYPE" := domain_type;
       "REDIS_URL" := DomainConfig.redis_url config;
       "ANTHROPIC_API_KEY" := default "" (environ sp !! "ANTHROPIC_API_KEY") ]} in
  let labels : gmap string string :=
    {[ DOMAIN_LABEL := domain_type;
       DOMAIN_ID_LABEL := domain_id;
       LABEL_PREFIX +:+ ".managed" := "true" ]} in
  Docker.mk_request (DomainConfig.image config) container_name domain_id environment
    labels (DomainConfig.network config) (DomainConfig.memory_limit config)
    "unless-stopped".

(** [uuid] is the value [uuid4()] draws and [clock] the time of the call,
    in milliseconds. *)
Definition spawn_domain (sp : t) (rt : Docker.t) (domain_type : string)
    (config : option DomainConfig.t) (wait_for_start : bool) (timeout : Z)
    (uuid : N) (clock : Z) : outcome string :=
  let config := default (default_config sp domain_type) config in
  let domain_id := new_domain_id domain_type uuid in
  let failed (e : string) :=
    Raise (DockerException ("Failed to spawn domain " +:+ domain_type +:+ ": " +:+ e)) in
  match Docker.run rt (run_request sp domain_type config domain_id) with
  | inl (Docker.NotFound e) | inl (Docker.APIError e) => failed e
  | inr container =>
      if wait_for_start then
        match _wait_for_container rt (Docker.id container) timeout clock with
        | inl (Docker.NotFound e) | inl (Docker.APIError e) => failed e
        | inr (Raise e) => Raise e
        | inr (Return _) => Return domain_id
        end
      else Return domain_id
  end.

Definition _find_container_by_domain_id (rt : Docker.t) (domain_id : string)
    : option Docker.container :=
  head (Docker.list_by_label DOMAIN_ID_LABEL domain_id rt).

(** On success the container is gone from the runtime. *)
Definition stop_domain (rt : Docker.t) (domain_id : string) (timeout : Z)
    : outcome bool * Docker.t :=
  match _find_container_by_domain_id rt domain_id with
  | None => (Return false, rt)
  | Some container =>
      let failed (e : string) :=
        Raise (DockerException ("Failed to stop domain " +:+ domain_id +:+ ": " +:+ e)) in
      match Docker.stop rt container timeout with
      | Some (Docker.NotFound _) => (Return false, rt)
      | Some (Docker.APIError e) => (failed e, rt)
      | None =>
          match Docker.remove rt container with
          | Some (Docker.NotFound _) => (Return false, rt)
          | Some (Docker.APIError e) => (failed e, rt)
          | None =>
              (Return true,
               Docker.mk
                 (filter (λ c, Docker.id c ≠ Docker.id container) (Docker.containers rt))
                 (Docker.run rt) (Docker.inspect rt) (Docker.logs rt)
                 (Docker.poll_cost rt) (Docker.stop rt) (Docker.remove rt))
          end
      end
  end.

(** *** Discovery, health and cleanup

    [reload] is what the runtime answers when a container object is
    refreshed: the container as it is now, or an error.  The runtime is
    taken not to change by itself while a call runs, and a listing that
    fails is outside the model, as for [_find_container_by_domain_id]. *)
Section discovery.
Variable reload : Docker.container → Docker.error + Docker.container.

Definition MANAGED_LABEL : string := LABEL_PREFIX +:+ ".managed".

(** The health the refreshed container shows, together with the container
    object as the call leaves it: refreshed, or untouched when the refresh
    failed. *)
Definition _get_container_health (container : Docker.container)
    : option string * Docker.container :=
  match reload container with
  | inr fresh => (Docker.health fresh, fresh)
  | inl _ => (None, container)
  end.

(** [clock k] is the time at which the k-th entry is built.  The labels
    are read before the refresh; id, name and status after it. *)
Definition list_domains (rt : Docker.t) (domain_type : option string)
    (clock : nat → string) : list DomainInfo.t :=
  let filters :=
    match domain_type with
    | Some t =>
        if truthy t then [(MANAGED_LABEL, "true"); (DOMAIN_LABEL, t)]
        else [(MANAGED_LABEL, "true")]
    | None => [(MANAGED_LABEL, "true")]
    end in
  imap (λ k container,
          let labels := Docker.labels container in
          let '(health, container) := _get_container_health container in
          DomainInfo.mk (default "unknown" (labels !! DOMAIN_ID_LABEL))
            (default "unknown" (labels !! DOMAIN_LABEL))
            (str_take 12 (Docker.id container)) (Docker.name container)
            (Docker.status container) (clock k) health)
       (Docker.list_by_labels filters rt).

Definition get_domain (rt : Docker.t) (domain_id now : string) : option DomainInfo.t :=
  match _find_container_by_domain_id rt domain_id with
  | None => None
  | Some container =>
      let labels := Docker.labels container in
      let '(health, container) := _get_container_health container in
      Some (DomainInfo.mk domain_id
              (default "unknown" (labels !! DOMAIN_LABEL))
              (str_take 12 (Docker.id container)) (Docker.name container)
              (Docker.status container) now health)
  end.

Definition is_domain_healthy (rt : Docker.t) (domain_id now : string) : bool :=
  match get_domain rt domain_id now with
  | None => false
  | Some domain =>
      if decide (DomainInfo.status domain ≠ "running") then false
      else match DomainInfo.health domain with
           | Some health => bool_decide (health = "healthy")
           | None => true
           end
  end.

(** [now] is the time of the look-ups [is_domain_healthy] makes; the
    entries they build are dropped. *)
Definition get_healthy_domain (rt : Docker.t) (domain_type : string)
    (clock : nat → string) (now : string) : option DomainInfo.t :=
  List.find (λ domain, is_domain_healthy rt (DomainInfo.domain_id domain) now)
            (list_domains rt (Some domain_type) clock).

(** The loop of the two cleanups: the domains are stopped one after the
    other, each against the runtime the earlier stops left. *)
Fixpoint stop_each (rt : Docker.t) (domain_ids : list string) (timeout : Z)
    : outcome (list string) * Docker.t :=
  match domain_ids with
  | [] => (Return [], rt)
  | domain_id :: rest =>
      match stop_domain rt domain_id timeout with
      | (Raise e, rt) => (Raise e, rt)
      | (Return stopped, rt) =>
          let '(res, rt) := stop_each rt rest timeout in
          ((λ removed, if stopped then domain_id :: removed else removed) <$> res, rt)
      end
  end.

Definition cleanup_stopped (rt : Docker.t) (clock : nat → string)
    : outcome (list string) * Docker.t :=
  stop_each rt
    (DomainInfo.domain_id <$>
       filter (λ domain, DomainInfo.status domain = "exited"
                         ∨ DomainInfo.status domain = "dead")
              (list_domains rt None clock))
    10.

Definition cleanup_all (rt : Docker.t) (timeout : Z) (clock : nat → string)
    : outcome (list string) * Docker.t :=
  stop_each rt (DomainInfo.domain_id <$> list_domains rt None clock) timeout.

End discovery.

End DomainSpawner.

(** ** The domain runner ([lib/domain_runner.py]) *)

Module DomainRunner.

(** How a run of the command-line tool ended: with an exit code, with the
    tool missing, or with another exception, of which the text is kept. *)
Inductive ending : Type :=
  | Exited (returncode : Z)
  | FileNotFound
  | Failed (msg : string).

(** A run of the tool: the lines read from it, and how it ended. *)
Record process : Type := mk_process {
  output_lines : list string;
  ended : ending
}.

(** The dictionary [_run_claude] returns; its two file lists stay empty. *)
Record result : Type := mk_result {
  success : bool;
  stdout : string;
  error : option string
}.

(** The runner object. *)
Record t : Type := mk {
  domain_type : string;
  agent_id : string
}.

Section runner.
Context {C : Codec}.

(** What lies outside the store: the prompt [_build_prompt] makes of a
    payload, or the text of the exception it raises on the way, and the run
    of the tool on a prompt. *)
Variable build_prompt : dict → string + string.
Variable claude : string → process.

(** The reading loop of [_run_claude]: every tenth line read leaves a
    progress entry in the task's log.  [n] counts the lines read so far and
    [clock k] is the k-th clock reading from here on. *)
Fixpoint read_lines (task_id : string) (lines : list string) (n : nat)
    (clock : nat → string) (r : Redis.t) : Redis.t :=
  match lines with
  | [] => r
  | _ :: lines =>
      if decide (S n `mod` 10 = 0)%nat then
        read_lines task_id lines (S n) (clock ∘ S)
          (AgentMessaging.add_log task_id
             ("... " +:+ pretty (S n) +:+ " lines processed") (clock 0%nat) r)
      else read_lines task_id lines (S n) clock r
  end.

Definition _run_claude (prompt task_id : string) (clock : nat → string) (r : Redis.t)
    : result * Redis.t :=
  let run := claude prompt in
  let r := read_lines task_id (output_lines run) 0 clock r in
  match ended run with
  | Exited returncode =>
      let out := String.concat "" (output_lines run) in
      if decide (returncode = 0)%Z then (mk_result true out None, r)
      else (mk_result false out
              (Some ("Claude exited with code " +:+ pretty returncode)), r)
  | FileNotFound => (mk_result false "" (Some "Claude CLI not found"), r)
  | Failed msg => (mk_result false "" (Some msg), r)
  end.

(** [clock k] is the k-th clock reading the call makes. *)
Definition process_task (runner : t) (task : TaskMessage.t) (clock : nat → string)
    (r : Redis.t) : Redis.t :=
  let task_id := TaskMessage.task_id task in
  let r := AgentMessaging.add_log task_id ("Task received by " +:+ agent_id runner)
             (clock 0%nat) r in
  let r :=
    match build_prompt (TaskMessage.payload task) with
    | inl prompt =>
        let r := AgentMessaging.add_log task_id "Starting Claude Code execution"
                   (clock 1%nat) r in
        let '(result, r) := _run_claude prompt task_id (λ k, clock (2 + k)%nat) r in
        let done := (2 + length (output_lines (claude prompt)) `div` 10)%nat in
        if success result then
          AgentMessaging.publish_result task_id
            [ ("stdout", JStr (stdout result));
              ("files_created", JList []);
              ("files_modified", JList []) ]
            "completed" None (clock done) r
        else
          AgentMessaging.publish_result task_id [("stdout", JStr (stdout result))]
            "failed" (error result) (clock done) r
    | inr e =>
        AgentMessaging.publish_result task_id [] "failed" (Some e) (clock 1%nat) r
    end in
  AgentMessaging.complete_task (domain_type runner) task r.

(** One turn of the loop of [run]: a task is processed, an empty queue is
    answered with a heartbeat, and an exception is logged and slept over. *)
Definition turn (runner : t) (clock : nat → string) (r : Redis.t) : Redis.t :=
  match AgentMessaging.get_next_task (domain_type runner) 5 (clock 0%nat) r with
  | (Return (Some task), r) => process_task runner task (clock ∘ S) r
  | (Return None, r) => (AgentRegistry.heartbeat (agent_id runner) (clock 0%nat) r).2
  | (Raise _, r) => r
  end.

(** The loop of [run], for as many turns as it makes before a signal
    stops it; [clocks i] is the clock of the i-th turn. *)
Fixpoint run (runner : t) (turns : nat) (clocks : nat → nat → string) (r : Redis.t)
    : Redis.t :=
  match turns with
  | O => r
  | S turns => run runner turns (clocks ∘ S) (turn runner (clocks 0%nat) r)
  end.

End runner.
End DomainRunner.

(** ** The health probe ([lib/health_check.py]) *)

Module HealthCheck.

(** [ping] is what [AgentMessaging.ping] answers and [environ] the process
    environment.  Any exception on the way makes the probe fail. *)
Definition check_health (ping : bool) (environ : gmap string string) (now : string)
    (r : Redis.t) : bool :=
  if negb ping then false
  else
    let agent_id :=
      match environ !! "AGENT_ID" with
      | Some agent_id => Some agent_id
      | None => environ !! "HOSTNAME"
      end in
    match agent_id with
    | Some agent_id =>
        if truthy agent_id then
          match AgentRegistry.get_agent agent_id now r with
          | Return None => false
          | Return (Some agent) =>
              if decide (AgentInfo.status agent = "stopping") then false else true
          | Raise _ => false
          end
        else true
    | None => true
    end.

End HealthCheck.

(** ** Runs of the queue, used to state its properties *)

Section runs.
Context {C : Codec}.

(** [publish_task] called once per argument record, in order. *)
Definition publish_all (domain : string) (args : list AgentMessaging.publish_args)
    (r : Redis.t) : Redis.t :=
  foldl (λ r a, snd (AgentMessaging.publish_task domain a r)) r args.

(** Successive [get_next_task] calls, one per (timeout, clock reading),
    with what each returned. *)
Fixpoint drain (domain : string) (calls : list (Z * string)) (r : Redis.t)
    : list (outcome (option TaskMessage.t)) * Redis.t :=
  match calls with
  | [] => ([], r)
  | (timeout, now) :: calls =>
      let '(res, r) := AgentMessaging.get_next_task domain timeout now r in
      let '(rest, r) := drain domain calls r in
      (res :: rest, r)
  end.

Definition pending (domain : string) (r : Redis.t) : list string :=
  Redis.lrange (AgentMessaging.pending_key domain) r.
Definition active (domain : string) (r : Redis.t) : list string :=
  Redis.lrange (AgentMessaging.active_key domain) r.

(** No entry sits twice in a domain's two lists taken together. *)
Definition queue_inv (r : Redis.t) : Prop :=
  ∀ domain, NoDup (pending domain r ++ active domain r).

(** No queued or in-flight entry of the domain carries this identifier. *)
Definition fresh_task_id (task_id domain : string) (r : Redis.t) : Prop :=
  ∀ raw task, raw ∈ pending domain r ++ active domain r →
    from_json raw = Some task → TaskMessage.task_id task ≠ task_id.
(** One call on the queue, by any agent. *)
Inductive op : Type :=
  | Publish (domain : string) (a : AgentMessaging.publish_args)
  | Next (domain : string) (timeout : Z) (now : string)
  | Complete (domain : string) (task : TaskMessage.t)
  | Result (task_id : string) (output : dict) (status : string)
           (error : option string) (now : string)
  | Log (task_id log_entry now : string).

(** The store after the call, and the task handed out if the call was a
    [get_next_task] that returned one. *)
Definition step (o : op) (r : Redis.t) : option (string * TaskMessage.t) * Redis.t :=
  match o with
  | Publish domain a => (None, (AgentMessaging.publish_task domain a r).2)
  | Next domain timeout now =>
      let '(res, r) := AgentMessaging.get_next_task domain timeout now r in
      (match res with Return (Some task) => Some (domain, task) | _ => None end, r)
  | Complete domain task => (None, AgentMessaging.complete_task domain task r)
  | Result task_id output status error now =>
      (None, AgentMessaging.publish_result task_id output status error now r)
  | Log task_id log_entry now => (None, AgentMessaging.add_log task_id log_entry now r)
  end.

(** The tasks a domain's consumers were handed during a run, in order. *)
Fixpoint handed_out (domain : string) (ops : list op) (r : Redis.t) : list TaskMessage.t :=
  match ops with
  | [] => []
  | o :: ops =>
      let '(ev, r) := step o r in
      match ev with
      | Some (d, task) =>
          if decide (d = domain) then task :: handed_out domain ops r
          else handed_out domain ops r
      | None => handed_out domain ops r
      end
  end.

(** The tasks published to a domain during a run, in order. *)
Fixpoint published_to (domain : string) (ops : list op) : list TaskMessage.t :=
  match ops with
  | [] => []
  | Publish d a :: ops =>
      if decide (d = domain) then AgentMessaging.new_task d a :: published_to domain ops
      else published_to domain ops
  | _ :: ops => published_to domain ops
  end.

(** The store at the end of a run. *)
Definition run_ops (ops : list op) (r : Redis.t) : Redis.t :=
  foldl (λ r o, (step o r).2) r ops.

End runs.

(** ** Sample data for the worked instances *)

Definition task_a : AgentMessaging.publish_args :=
  AgentMessaging.mk_args "Create user API" None None "normal" 300 "main" "id-1" "t1".
Definition task_b : AgentMessaging.publish_args :=
  AgentMessaging.mk_args "Add login" (Some [JStr "jwt"]) None "high" 60 "main" "id-2" "t2".

(** The store after [task_a] was published to "backend" on an empty store. *)
Definition store_a : Redis.t :=
  (AgentMessaging.publish_task (C := Wire.codec) "backend" task_a Redis.empty).2.

(** Every listed agent has a record the model accepts, or none at all. *)
Definition records_readable (ids : gset string) (now : string) (r : Redis.t) : Prop :=
  ∀ x, x ∈ ids → ∃ o, AgentRegistry.get_agent x now r = Return o.

(** A runtime with no container at all. *)
Definition idle_runtime : Docker.t :=
  Docker.mk [] (λ _, inl (Docker.APIError "image not found"))
    (λ _ cid, inl (Docker.NotFound cid))
    (λ _ c _, Docker.Refused (Docker.NotFound (Docker.id c)))
    0 (λ _ _, None) (λ _, None).

(** The sets [register] adds an agent of this role and domain type to. *)
Definition membership_keys (role : string) (domain_type : option string) : list string :=
  "agents:all" ::
  (if decide (role = "main") then []
   else if decide (role = "domain") then
     "agents:domains" ::
     match domain_type with
     | Some dt => if truthy dt then [AgentRegistry.domain_set dt] else []
     | None => []
     end
   else if decide (role = "worker") then ["agents:workers"]
   else []).

(** ** The shape of a domain identifier and the course of a wait *)




(** The time between the starts of two inspections, in milliseconds. *)
Definition poll_period (rt : Docker.t) : Z := Z.of_nat (Docker.poll_cost rt) + 500.

(** The k-th inspection shows the container in this status. *)
Definition reports (rt : Docker.t) (container_id : string) (k : nat)
    (c : Docker.container) : Prop :=
  Docker.inspect rt k container_id = inr c.

(** The k-th inspection shows a container that is neither running nor
    ended. *)
Definition still_starting (rt : Docker.t) (container_id : string) (k : nat) : Prop :=
  ∃ c, reports rt container_id k c
       ∧ Docker.status c ≠ "running"
       ∧ DomainSpawner.is_terminal (Docker.status c) = false.

(** The last [tail] of the lines, each with its line end. *)
Definition tail_text (tail : nat) (lines : list string) : string :=
  foldr (λ line acc, line +:+ newline +:+ acc) ""
        (drop (length lines - tail) lines).

(** A runtime that accepts the request and shows the container as
    "created" for the first [n] inspections and in status [final] from then
    on; one inspection takes 20 ms, and a fetch of the log answers
    [reply]. *)
Definition sample_container (status : string) : Docker.container :=
  Docker.mk_container "c0ffee" "domain-backend" ∅ status None.

Definition replying_runtime (n : nat) (final : string)
    (reply : nat → Docker.logs_reply) : Docker.t :=
  Docker.mk []
    (λ _, inr (sample_container "created"))
    (λ k _, inr (sample_container (if (k <? n)%nat then "created" else final)))
    (λ _ _ tail, reply tail)
    20 (λ _ _, None) (λ _, None).

(** The same, with a log of the given lines that can be fetched. *)
Definition sample_runtime (n : nat) (final : string) (log : list string) : Docker.t :=
  replying_runtime n final (λ tail, Docker.Text (tail_text tail log)).

Definition sample_spawner : DomainSpawner.t :=
  DomainSpawner.mk "distributed-agent-network-main-orchestrator"
    "distributed-agent-network_agent-network" ∅.

Definition sample_uuid : N := 83962609477091624992755022528958767941%N.

(** ** Waiting for a result *)

Section waiting.
Context {C : Codec}.

(** The time between the starts of two reads of a waiting caller, in
    milliseconds. *)
Definition read_period (env : AgentMessaging.poll_env) (interval : nat) : Z :=
  Z.pos (AgentMessaging.read_cost env) + Z.of_nat interval.

(** The k-th read finds no record, or one that is not terminal yet. *)
Definition not_finished (env : AgentMessaging.poll_env) (task_id : string) (k : nat) : Prop :=
  AgentMessaging.get_result task_id 0 (AgentMessaging.store_at env k) = Return None
  ∨ ∃ res, AgentMessaging.get_result task_id 0 (AgentMessaging.store_at env k)
             = Return (Some res)
           ∧ AgentMessaging.is_terminal_status (TaskResult.status res) = false.

End waiting.

(** ** More sample data *)

(** [store_a] after its task was handed out, and after its result came in. *)
Definition store_in_progress : Redis.t :=
  (AgentMessaging.get_next_task (C := Wire.codec) "backend" 5 "t2" store_a).2.

Definition store_completed : Redis.t :=
  AgentMessaging.publish_result (C := Wire.codec) "id-1"
    [("api_url", JStr "/api/users")] "completed" None "t3" store_in_progress.

(** A caller whose first two reads see the task in progress and whose later
    reads see it completed; a read takes 5 ms. *)
Definition sample_poll_env : AgentMessaging.poll_env :=
  AgentMessaging.mk_poll_env
    (λ k, if (k <? 2)%nat then store_in_progress else store_completed) 5.

(** ** The registry's set keys *)

(** The keys under which the registry keeps membership sets. *)
Definition is_set_key (k : string) : Prop :=
  k = "agents:all" ∨ k = "agents:domains" ∨ k = "agents:workers"
  ∨ ∃ t, k = AgentRegistry.domain_set t.

(** A record with one field replaced. *)
Definition with_status (status : string) (a : AgentInfo.t) : AgentInfo.t :=
  AgentInfo.mk (AgentInfo.agent_id a) (AgentInfo.role a) (AgentInfo.domain_type a)
    status (AgentInfo.container_id a) (AgentInfo.created_at a)
    (AgentInfo.last_heartbeat a).

Definition with_last_heartbeat (beat : string) (a : AgentInfo.t) : AgentInfo.t :=
  AgentInfo.mk (AgentInfo.agent_id a) (AgentInfo.role a) (AgentInfo.domain_type a)
    (AgentInfo.status a) (AgentInfo.container_id a) (AgentInfo.created_at a)
    (Some beat).

(** A registry with a backend domain agent, and with a worker besides. *)
Definition registry_a : Redis.t :=
  (AgentRegistry.register "backend-1" "domain" (Some "backend") (Some "c1") "t0" "t1"
     Redis.empty).2.

Definition registry_ab : Redis.t :=
  (AgentRegistry.register "worker-1" "worker" None None "t2" "t3" registry_a).2.

(** The set [get_domain_orchestrators] walks for a domain type: the type's
    own set, or the set of all domain agents when the type is empty. *)
Definition domain_members (domain_type : string) (r : Redis.t) : gset string :=
  if truthy domain_type then Redis.smembers (AgentRegistry.domain_set domain_type) r
  else Redis.smembers "agents:domains" r.


(** [registry_ab] once the lease of its domain agent has run out. *)
Definition registry_lapsed : Redis.t :=
  AgentRegistry.lease_expired "backend-1" registry_ab.

(** ** More runtimes *)

(** A runtime that refuses every request. *)
Definition refusing_runtime : Docker.t :=
  Docker.mk []
    (λ _, inl (Docker.APIError "no such image"))
    (λ _ _, inl (Docker.NotFound "no such container"))
    (λ _ _ _, Docker.Refused (Docker.NotFound "no such container"))
    20 (λ _ _, None) (λ _, None).

(** A runtime that accepts the request, shows the container as "created"
    for the first [n] inspections and answers [reply] from then on. *)
Definition failing_runtime (n : nat) (reply : Docker.error) : Docker.t :=
  Docker.mk []
    (λ _, inr (sample_container "created"))
    (λ k _, if (k <? n)%nat then inr (sample_container "created") else inl reply)
    (λ _ _ _, Docker.Text "")
    20 (λ _ _, None) (λ _, None).

(** ** A runtime with containers *)

(** A container as the runtime keeps it after a spawn request for the
    domain was accepted. *)
Definition spawned (cid domain_type domain_id status : string) (health : option string)
    : Docker.container :=
  Docker.mk_container cid ("domain-" +:+ domain_id)
    (Docker.req_labels
       (DomainSpawner.run_request sample_spawner domain_type
          (DomainSpawner.default_config sample_spawner domain_type) domain_id))
    status health.

(** Two domain containers and a container of another project; stopping
    and removing succeed. *)
Definition fleet : Docker.t :=
  Docker.mk
    [ spawned "0123456789abcdef0123" "backend" "backend-3f2a9c41" "running" (Some "healthy");
      spawned "fedcba9876543210fedc" "frontend" "frontend-00c0ffee" "exited" None;
      Docker.mk_container "7777777777777777" "postgres" ∅ "running" None ]
    (λ _, inl (Docker.APIError "no such image"))
    (λ _ _, inl (Docker.NotFound "no such container"))
    (λ _ _ _, Docker.Text "")
    20 (λ _ _, None) (λ _, None).

(** A refresh that shows every container as it was listed, and one that
    always fails. *)
Definition steady (c : Docker.container) : Docker.error + Docker.container := inr c.

Definition unreachable (c : Docker.container) : Docker.error + Docker.container :=
  inl (Docker.APIError "connection refused").

(** The containers a listing for [domain_type] returns. *)
Definition is_listed (domain_type : option string) (c : Docker.container) : Prop :=
  Docker.labels c !! DomainSpawner.MANAGED_LABEL = Some "true"
  ∧ match domain_type with
    | Some t => t ≠ "" → Docker.labels c !! DomainSpawner.DOMAIN_LABEL = Some t
    | None => True
    end.

Global Instance is_listed_dec domain_type c : Decision (is_listed domain_type c).
Proof. unfold is_listed. destruct domain_type; apply _. Defined.

(** The domain id an entry for the container carries. *)
Definition id_label (c : Docker.container) : string :=
  default "unknown" (Docker.labels c !! DomainSpawner.DOMAIN_ID_LABEL).

(** The runtime once a container has been removed. *)
Definition without (c : Docker.container) (rt : Docker.t) : Docker.t :=
  Docker.mk (filter (λ c0, Docker.id c0 ≠ Docker.id c) (Docker.containers rt))
    (Docker.run rt) (Docker.inspect rt) (Docker.logs rt) (Docker.poll_cost rt)
    (Docker.stop rt) (Docker.remove rt).

(** The container object after [_get_container_health] refreshed it. *)
Definition refreshed (reload : Docker.container → Docker.error + Docker.container)
    (c : Docker.container) : Docker.container :=
  (DomainSpawner._get_container_health reload c).2.

(** The runtime obeys every stop and remove, gives every container its
    own id, no two containers the same domain-id label, and every managed
    container such a label. *)
Record orderly (rt : Docker.t) : Prop := mk_orderly {
  stop_obeyed : ∀ c timeout, Docker.stop rt c timeout = None;
  remove_obeyed : ∀ c, Docker.remove rt c = None;
  ids_distinct : NoDup (Docker.id <$> Docker.containers rt);
  labels_distinct :
    NoDup (omap (λ c, Docker.labels c !! DomainSpawner.DOMAIN_ID_LABEL)
                (Docker.containers rt));
  managed_labelled :
    ∀ c, c ∈ Docker.containers rt → is_listed None c →
         is_Some (Docker.labels c !! DomainSpawner.DOMAIN_ID_LABEL)
}.

(** Pairwise forms of the runtime's order. *)
Record tidy (rt : Docker.t) : Prop := mk_tidy {
  tidy_stop : ∀ c timeout, Docker.stop rt c timeout = None;
  tidy_remove : ∀ c, Docker.remove rt c = None;
  tidy_ids : ∀ c1 c2, c1 ∈ Docker.containers rt → c2 ∈ Docker.containers rt →
                      Docker.id c1 = Docker.id c2 → c1 = c2;
  tidy_labels : ∀ c1 c2 x, c1 ∈ Docker.containers rt → c2 ∈ Docker.containers rt →
                  Docker.labels c1 !! DomainSpawner.DOMAIN_ID_LABEL = Some x →
                  Docker.labels c2 !! DomainSpawner.DOMAIN_ID_LABEL = Some x → c1 = c2
}.

(** ** The runner's world *)

(** Two stores with the same hashes, sets and strings and the same lists
    up to the log of one task, which the second has extended. *)
Definition logged_more (task_id : string) (r r' : Redis.t) : Prop :=
  Redis.hashes r' = Redis.hashes r
  ∧ Redis.sets r' = Redis.sets r
  ∧ Redis.strings r' = Redis.strings r
  ∧ (∀ k, k ≠ AgentMessaging.logs_key task_id → Redis.lrange k r' = Redis.lrange k r)
  ∧ ∃ more, AgentMessaging.get_logs task_id r' = AgentMessaging.get_logs task_id r ++ more.

(** A task is finished when its prompt could be built and the tool exited
    with code 0 on it. *)
Definition finished (build_prompt : dict → string + string)
    (claude : string → DomainRunner.process) (task : TaskMessage.t) : Prop :=
  ∃ prompt, build_prompt (TaskMessage.payload task) = inl prompt
            ∧ DomainRunner.ended (claude prompt) = DomainRunner.Exited 0.

(** The task has a result record that carries an identifier. *)
Definition tracked (task_id : string) (r : Redis.t) : Prop :=
  is_Some (Redis.hgetall (AgentMessaging.result_key task_id) r !! "task_id").

(** The task's result reads back, and is terminal. *)
Definition settled {C : Codec} (task_id : string) (r : Redis.t) : Prop :=
  ∃ res, AgentMessaging.get_result task_id 0 r = Return (Some res)
         ∧ AgentMessaging.is_terminal_status (TaskResult.status res) = true.

(** A runner, a prompt builder that fails on an empty payload, and a tool
    that writes twelve lines and exits with 0 on the prompt "ok" and dies
    with code 2 on any other. *)
Definition sample_runner : DomainRunner.t := DomainRunner.mk "backend" "backend-3f2a9c41".

Definition sample_build (payload : dict) : string + string :=
  match payload with
  | [] => inr "'NoneType' object is not iterable"
  | _ => inl "ok"
  end.

Definition sample_claude (prompt : string) : DomainRunner.process :=
  if decide (prompt = "ok")
  then DomainRunner.mk_process (replicate 12 "line") (DomainRunner.Exited 0)
  else DomainRunner.mk_process [] (DomainRunner.Exited 2).

(** A store with two tasks queued for "backend", and one whose queue
    holds a text that is no task. *)
Definition store_ab : Redis.t :=
  (AgentMessaging.publish_task (C := Wire.codec) "backend" task_b store_a).2.

Definition store_junk : Redis.t :=
  Redis.lpush (AgentMessaging.pending_key "backend") "not a task" Redis.empty.

(** * Properties *)

(** ** The store primitives *)

Lemma unsnoc_snoc l x : Redis.unsnoc (l ++ [x]) = Some (l, x).
Proof.
  induction l as [|y l IH]; simpl; [done|]. by rewrite IH.
Qed.

Lemma unsnoc_nil_inv l : Redis.unsnoc l = None → l = [].
Proof.
  destruct l as [|x l]; [done|]. simpl. by destruct (Redis.unsnoc l) as [[??]|].
Qed.

Lemma unsnoc_Some l init x : Redis.unsnoc l = Some (init, x) → l = init ++ [x].
Proof.
  revert init. induction l as [|y l IH]; intros init; simpl; [done|].
  destruct (Redis.unsnoc l) as [[i z]|] eqn:E.
  - intros [= <- <-]. simpl. f_equal. by apply IH.
  - intros [= <- <-]. by rewrite (unsnoc_nil_inv _ E).
Qed.

Lemma pending_active_ne d d' :
  AgentMessaging.pending_key d ≠ AgentMessaging.active_key d'.
Proof. discriminate. Qed.

Global Instance pending_key_inj : Inj (=) (=) AgentMessaging.pending_key.
Proof. intros d d' H. by simplify_eq/=. Qed.
Global Instance active_key_inj : Inj (=) (=) AgentMessaging.active_key.
Proof. intros d d' H. by simplify_eq/=. Qed.
Global Instance result_key_inj : Inj (=) (=) AgentMessaging.result_key.
Proof. intros d d' H. by simplify_eq/=. Qed.

Lemma lrange_with_lists_eq k v r :
  Redis.lrange k (Redis.with_lists (insert k v) r) = v.
Proof. unfold Redis.lrange. simpl. by rewrite lookup_insert_eq. Qed.

Lemma lrange_with_lists_ne k k' v r :
  k ≠ k' → Redis.lrange k' (Redis.with_lists (insert k v) r) = Redis.lrange k' r.
Proof. intros. unfold Redis.lrange. simpl. by rewrite lookup_insert_ne. Qed.

Lemma lrange_hset k key m r : Redis.lrange k (Redis.hset key m r) = Redis.lrange k r.
Proof. done. Qed.

Lemma lrange_publish k ch msg r : Redis.lrange k (Redis.publish ch msg r) = Redis.lrange k r.
Proof. done. Qed.

Lemma lrange_lpush_eq k v r : Redis.lrange k (Redis.lpush k v r) = v :: Redis.lrange k r.
Proof. apply lrange_with_lists_eq. Qed.

Lemma lrange_lpush_ne k k' v r :
  k ≠ k' → Redis.lrange k' (Redis.lpush k v r) = Redis.lrange k' r.
Proof. apply lrange_with_lists_ne. Qed.

Lemma rpoplpush_empty src dst r :
  Redis.lrange src r = [] → Redis.rpoplpush src dst r = (None, r).
Proof. intros H. unfold Redis.rpoplpush. by rewrite H. Qed.

(** RPOPLPUSH between two different keys: the tail of the source becomes
    the head of the destination, every other list is untouched. *)
Lemma rpoplpush_snoc src dst q x r :
  src ≠ dst → Redis.lrange src r = q ++ [x] →
  ∃ r', Redis.rpoplpush src dst r = (Some x, r')
    ∧ Redis.lrange src r' = q
    ∧ Redis.lrange dst r' = x :: Redis.lrange dst r
    ∧ (∀ k, k ≠ src → k ≠ dst → Redis.lrange k r' = Redis.lrange k r)
    ∧ Redis.hashes r' = Redis.hashes r ∧ Redis.sets r' = Redis.sets r
    ∧ Redis.strings r' = Redis.strings r ∧ Redis.published r' = Redis.published r.
Proof.
  intros Hne Hq. unfold Redis.rpoplpush. rewrite Hq, unsnoc_snoc.
  eexists; split; [done|]. repeat split.
  - rewrite lrange_with_lists_ne by done. apply lrange_with_lists_eq.
  - rewrite lrange_with_lists_eq. by rewrite lrange_with_lists_ne.
  - intros k H1 H2. by rewrite !lrange_with_lists_ne.
Qed.

Lemma truthy_ne s : s ≠ "" → truthy s = true.
Proof. unfold truthy. intros H. by destruct (String.eqb_spec s ""). Qed.

Lemma truthy_true s : truthy s = true → s ≠ "".
Proof. unfold truthy. by destruct (String.eqb_spec s ""). Qed.

Section messaging_facts.
Context {C : Codec}.

Lemma pending_publish_task d a r :
  pending d (AgentMessaging.publish_task d a r).2
  = to_json (AgentMessaging.new_task d a) :: pending d r.
Proof. apply lrange_lpush_eq. Qed.

Lemma pending_publish_task_ne d d' a r :
  d ≠ d' → pending d' (AgentMessaging.publish_task d a r).2 = pending d' r.
Proof.
  intros. unfold pending, AgentMessaging.publish_task; simpl.
  rewrite lrange_publish. unfold AgentMessaging._init_result.
  rewrite lrange_hset. apply lrange_lpush_ne. by intros ?%(inj _).
Qed.

Lemma active_publish_task d d' a r :
  active d' (AgentMessaging.publish_task d a r).2 = active d' r.
Proof.
  unfold active, AgentMessaging.publish_task; simpl.
  rewrite lrange_publish. unfold AgentMessaging._init_result.
  rewrite lrange_hset. apply lrange_lpush_ne, pending_active_ne.
Qed.

Lemma get_next_task_empty d timeout now r :
  pending d r = [] → AgentMessaging.get_next_task d timeout now r = (Return None, r).
Proof.
  intros H. unfold AgentMessaging.get_next_task, Redis.brpoplpush.
  rewrite (rpoplpush_empty _ _ _ H). by destruct (0 <? timeout)%Z.
Qed.

Lemma get_next_task_snoc `{!CodecLaws C} d timeout now q t r :
  pending d r = q ++ [to_json t] →
  ∃ r', AgentMessaging.get_next_task d timeout now r = (Return (Some t), r')
    ∧ pending d r' = q
    ∧ active d r' = to_json t :: active d r
    ∧ (∀ d', d' ≠ d → pending d' r' = pending d' r ∧ active d' r' = active d' r).
Proof.
  intros Hq.
  destruct (rpoplpush_snoc _ _ _ _ _ (pending_active_ne d d) Hq)
    as (r' & Hpop & Hsrc & Hdst & Hother & _).
  unfold AgentMessaging.get_next_task, Redis.brpoplpush. rewrite Hpop.
  eexists. split.
  { destruct (0 <? timeout)%Z; by rewrite (truthy_ne _ (to_json_truthy t)), from_to_json. }
  unfold pending, active, AgentMessaging._update_result.
  rewrite !lrange_hset. repeat split; [done..| |].
  - apply Hother; [by intros ?%(inj _)|]. apply pending_active_ne.
  - apply Hother; [|by intros ?%(inj _)]. intros E. symmetry in E. by apply pending_active_ne in E.
Qed.

Lemma pending_publish_all d args r :
  pending d (publish_all d args r)
  = rev (to_json <$> (AgentMessaging.new_task d <$> args)) ++ pending d r.
Proof.
  revert r. induction args as [|a args IH]; intros r; [done|].
  change (publish_all d (a :: args) r)
    with (publish_all d args (AgentMessaging.publish_task d a r).2).
  rewrite IH, pending_publish_task, !fmap_cons.
  cbn [rev]. by rewrite <- app_assoc.
Qed.

Lemma drain_fifo `{!CodecLaws C} d tasks calls r :
  pending d r = rev (to_json <$> tasks) →
  (drain d calls r).1
  = (Return ∘ Some <$> take (length calls) tasks)
    ++ replicate (length calls - length tasks) (Return None).
Proof.
  revert tasks r. induction calls as [|[timeout now] calls IH]; intros tasks r Hq; [done|].
  simpl. destruct tasks as [|t tasks].
  - rewrite (get_next_task_empty _ _ _ _ Hq).
    specialize (IH [] r Hq). destruct (drain d calls r) as [rest r'].
    simpl in *. rewrite IH, take_nil, Nat.sub_0_r. done.
  - simpl in Hq. destruct (get_next_task_snoc d timeout now _ _ _ Hq)
      as (r' & -> & Hp & _).
    specialize (IH tasks r' Hp). destruct (drain d calls r') as [rest r''].
    simpl in *. by rewrite IH.
Qed.
End messaging_facts.

(** C1. Tasks published to a domain whose queue was empty come back from
    successive [get_next_task] calls on that domain in the order they were
    published, blocking or not; calls beyond the last task return nothing. *)
Theorem fifo_per_domain `{!CodecLaws C} (domain : string)
    (args : list AgentMessaging.publish_args) (calls : list (Z * string)) (r : Redis.t) :
  pending domain r = [] →
  (drain domain calls (publish_all domain args r)).1
  = (Return ∘ Some ∘ AgentMessaging.new_task domain <$> take (length calls) args)
    ++ replicate (length calls - length args) (Return None).
Proof.
  intros Hempty.
  rewrite (drain_fifo domain (AgentMessaging.new_task domain <$> args)).
  - by rewrite length_fmap, <- fmap_take, <- list_fmap_compose.
  - by rewrite pending_publish_all, Hempty, app_nil_r.
Qed.

(** ** The reference serialiser meets the laws *)

Lemma json_ind (P : json → Prop) :
  P JNull → (∀ b, P (JBool b)) → (∀ n, P (JInt n)) → (∀ s, P (JStr s)) →
  (∀ xs, Forall P xs → P (JList xs)) →
  (∀ kvs, Forall (λ kv, P (snd kv)) kvs → P (JDict kvs)) →
  ∀ j, P j.
Proof.
  intros HNull HBool HInt HStr HList HDict. fix IH 1.
  intros [|b|n|s|xs|kvs]; [done..| |].
  - apply HList. induction xs as [|x xs IHxs]; constructor; [apply IH|apply IHxs].
  - apply HDict. induction kvs as [|kv kvs IHkvs]; constructor; [apply IH|apply IHkvs].
Qed.

Lemma tree_to_json_to_tree j : Wire.tree_to_json (Wire.json_to_tree j) = j.
Proof.
  induction j as [| | | |xs IH|kvs IH] using json_ind; simpl; try done.
  - f_equal. induction IH as [|x xs Hx _ IHxs]; simpl; [done|]. by rewrite Hx, IHxs.
  - f_equal. induction IH as [|[k v] kvs Hx _ IHxs]; simpl in *; [done|].
    by rewrite Hx, IHxs.
Qed.

Lemma bits_to_pos_to_bits p : Wire.bits_to_pos (Wire.pos_to_bits p) = Some p.
Proof. induction p as [p IH|p IH|]; simpl; [by rewrite IH..|done]. Qed.

Lemma read_write tag t : Wire.read tag (Wire.write tag t) = Some t.
Proof.
  unfold Wire.read, Wire.write. rewrite decide_True by done.
  rewrite bits_to_pos_to_bits. simpl. apply decode_encode.
Qed.

Lemma tree_to_msg_to_tree m : Wire.tree_to_msg (Wire.msg_to_tree m) = Some m.
Proof.
  destruct m as [a b c d e p m]. unfold Wire.msg_to_tree, Wire.tree_to_msg.
  cbn [TaskMessage.task_id TaskMessage.type TaskMessage.source TaskMessage.destination
       TaskMessage.timestamp TaskMessage.payload TaskMessage.metadata].
  by rewrite !tree_to_json_to_tree.
Qed.

Global Instance wire_laws : CodecLaws Wire.codec.
Proof.
  split.
  - intros m. change (Wire.read "{" (Wire.write "{" (Wire.msg_to_tree m))
                      ≫= Wire.tree_to_msg = Some m).
    rewrite read_write. apply tree_to_msg_to_tree.
  - done.
  - intros j. change (Wire.tree_to_json <$> Wire.read "j" (Wire.write "j" (Wire.json_to_tree j))
                      = Some j).
    rewrite read_write. simpl. f_equal. apply tree_to_json_to_tree.
  - done.
Qed.

(** Witness of C1: two tasks published to the empty store, three calls. *)
Lemma fifo_per_domain_witness :
  let a1 := AgentMessaging.mk_args "Create user API" None None "normal" 300 "main" "id-1" "t1" in
  let a2 := AgentMessaging.mk_args "Add login" (Some [JStr "jwt"]) None "high" 60 "main" "id-2" "t2" in
  pending "backend" Redis.empty = []
  ∧ (drain (C := Wire.codec) "backend" [(0%Z, "t3"); (5%Z, "t4"); (0%Z, "t5")]
       (publish_all (C := Wire.codec) "backend" [a1; a2] Redis.empty)).1
    = [ Return (Some (AgentMessaging.new_task "backend" a1));
        Return (Some (AgentMessaging.new_task "backend" a2));
        Return None ].
Proof.
  intros a1 a2. split; [reflexivity|].
  exact (fifo_per_domain (C := Wire.codec) "backend" [a1; a2] [(0%Z, "t3"); (5%Z, "t4"); (0%Z, "t5")]
           Redis.empty eq_refl).
Defined.

(** ** The two lists of a domain *)

Lemma rpoplpush_cases src dst r :
  src ≠ dst →
  (Redis.lrange src r = [] ∧ Redis.rpoplpush src dst r = (None, r))
  ∨ ∃ q x r', Redis.lrange src r = q ++ [x]
      ∧ Redis.rpoplpush src dst r = (Some x, r')
      ∧ Redis.lrange src r' = q
      ∧ Redis.lrange dst r' = x :: Redis.lrange dst r
      ∧ (∀ k, k ≠ src → k ≠ dst → Redis.lrange k r' = Redis.lrange k r).
Proof.
  intros Hne. destruct (Redis.unsnoc (Redis.lrange src r)) as [[q x]|] eqn:E.
  - right. apply unsnoc_Some in E.
    destruct (rpoplpush_snoc src dst q x r Hne E) as (r' & ? & ? & ? & ? & _).
    by exists q, x, r'.
  - left. apply unsnoc_nil_inv in E. split; [done|]. by apply rpoplpush_empty.
Qed.

Lemma remove_first_sublist v l : Redis.remove_first v l `sublist_of` l.
Proof.
  induction l as [|x l IH]; simpl; [done|].
  case_decide; [by apply sublist_cons|by apply sublist_skip].
Qed.

Lemma lrange_lrem1_eq k v r :
  Redis.lrange k (Redis.lrem1 k v r) = Redis.remove_first v (Redis.lrange k r).
Proof. apply lrange_with_lists_eq. Qed.

Lemma lrange_lrem1_ne k k' v r :
  k ≠ k' → Redis.lrange k' (Redis.lrem1 k v r) = Redis.lrange k' r.
Proof. apply lrange_with_lists_ne. Qed.

Section queue_facts.
Context {C : Codec}.

(** What one [get_next_task] does to the lists, whatever it returns. *)
Lemma get_next_task_lists d timeout now r :
  let r' := (AgentMessaging.get_next_task d timeout now r).2 in
  (pending d r = [] ∧ r' = r)
  ∨ ∃ q raw, pending d r = q ++ [raw]
      ∧ pending d r' = q
      ∧ active d r' = raw :: active d r
      ∧ (∀ d', d' ≠ d → pending d' r' = pending d' r ∧ active d' r' = active d' r).
Proof.
  destruct (rpoplpush_cases (AgentMessaging.pending_key d) (AgentMessaging.active_key d) r
              (pending_active_ne d d))
    as [[Hq Hpop]|(q & raw & r1 & Hq & Hpop & Hsrc & Hdst & Hother)].
  - left. split; [done|]. by rewrite get_next_task_empty.
  - right. exists q, raw. split; [done|].
    assert (∀ k, Redis.lrange k (AgentMessaging.get_next_task d timeout now r).2
                 = Redis.lrange k r1) as Hk.
    { intros k. unfold AgentMessaging.get_next_task, Redis.brpoplpush. rewrite Hpop.
      destruct (0 <? timeout)%Z, (truthy raw), (from_json raw); done. }
    unfold pending, active. rewrite !Hk. repeat split; [done..| |].
    + rewrite Hk. apply Hother; [by intros ?%(inj _)|]. apply pending_active_ne.
    + rewrite Hk. apply Hother; [|by intros ?%(inj _)].
      intros E. symmetry in E. by apply pending_active_ne in E.
Qed.

Lemma queue_inv_get_next_task d timeout now r :
  queue_inv r → queue_inv (AgentMessaging.get_next_task d timeout now r).2.
Proof.
  intros Hinv d'.
  destruct (get_next_task_lists d timeout now r)
    as [[_ ->]|(q & raw & Hq & Hp & Ha & Hother)]; [apply Hinv|].
  destruct (decide (d' = d)) as [->|Hne].
  - rewrite Hp, Ha. specialize (Hinv d). rewrite Hq, <- app_assoc in Hinv. done.
  - destruct (Hother d' Hne) as [-> ->]. apply Hinv.
Qed.

Lemma complete_task_lists d task r :
  (∀ d', pending d' (AgentMessaging.complete_task d task r) = pending d' r)
  ∧ active d (AgentMessaging.complete_task d task r)
    = Redis.remove_first (to_json task) (active d r)
  ∧ (∀ d', d' ≠ d → active d' (AgentMessaging.complete_task d task r) = active d' r).
Proof.
  unfold pending, active, AgentMessaging.complete_task. repeat split.
  - intros d'. apply lrange_lrem1_ne. intros E. symmetry in E.
    by apply pending_active_ne in E.
  - apply lrange_lrem1_eq.
  - intros d' Hne. apply lrange_lrem1_ne. by intros ?%(inj _).
Qed.

Lemma queue_inv_complete_task d task r :
  queue_inv r → queue_inv (AgentMessaging.complete_task d task r).
Proof.
  intros Hinv d'. destruct (complete_task_lists d task r) as (Hp & Ha & Hother).
  rewrite Hp. destruct (decide (d' = d)) as [->|Hne].
  - rewrite Ha. eapply sublist_NoDup; [apply Hinv|].
    apply sublist_app; [done|apply remove_first_sublist].
  - rewrite (Hother d' Hne). apply Hinv.
Qed.

Lemma queue_inv_publish_result task_id output status error now r :
  queue_inv r → queue_inv (AgentMessaging.publish_result task_id output status error now r).
Proof. done. Qed.

Lemma fresh_task_id_raw `{!CodecLaws C} d a r :
  fresh_task_id (AgentMessaging.fresh_id a) d r →
  to_json (AgentMessaging.new_task d a) ∉ pending d r ++ active d r.
Proof.
  intros Hfresh Hin. by eapply Hfresh; [done|apply from_to_json|].
Qed.

Lemma queue_inv_publish_task `{!CodecLaws C} d a r :
  fresh_task_id (AgentMessaging.fresh_id a) d r →
  queue_inv r → queue_inv (AgentMessaging.publish_task d a r).2.
Proof.
  intros Hfresh Hinv d'. rewrite active_publish_task.
  destruct (decide (d = d')) as [<-|Hne].
  - rewrite pending_publish_task. simpl. apply NoDup_cons. split; [|apply Hinv].
    by apply fresh_task_id_raw.
  - rewrite pending_publish_task_ne by done. apply Hinv.
Qed.
End queue_facts.

(** C2. Every operation of the queue keeps each entry in at most one place
    of a domain's pending and active lists, provided a published task draws
    an identifier no queued or in-flight entry of its domain carries.
    [get_next_task], whatever it returns, either finds the pending list
    empty and changes nothing, or takes the tail entry out of the pending
    list and puts that same entry at the head of the active list, in one
    step and touching no other list: the entry is then in the active list
    and no longer in the pending one.  What it returns is the task that
    entry parses to; for the serialised form of a task, that task.
    [complete_task] changes no pending list and no other domain's active
    list, and takes the first occurrence of the task's entry, and nothing
    else, off the active list. *)
Theorem pending_active_exclusive `{!CodecLaws C} (r : Redis.t) :
  queue_inv r →
  (∀ d a, fresh_task_id (AgentMessaging.fresh_id a) d r →
          queue_inv (AgentMessaging.publish_task d a r).2)
  ∧ (∀ d timeout now, queue_inv (AgentMessaging.get_next_task d timeout now r).2)
  ∧ (∀ d task, queue_inv (AgentMessaging.complete_task d task r))
  ∧ (∀ task_id output status error now,
        queue_inv (AgentMessaging.publish_result task_id output status error now r))
  ∧ (∀ d timeout now,
        let r' := (AgentMessaging.get_next_task d timeout now r).2 in
        (pending d r = [] ∧ r' = r)
        ∨ ∃ q raw, pending d r = q ++ [raw]
            ∧ pending d r' = q ∧ active d r' = raw :: active d r
            ∧ (raw ∉ pending d r') ∧ (raw ∈ active d r')
            ∧ (∀ d', d' ≠ d →
                 pending d' r' = pending d' r ∧ active d' r' = active d' r))
  ∧ (∀ d timeout now task r',
        AgentMessaging.get_next_task d timeout now r = (Return (Some task), r') →
        ∃ q raw, from_json raw = Some task
          ∧ pending d r = q ++ [raw]
          ∧ pending d r' = q ∧ active d r' = raw :: active d r
          ∧ (raw ∉ pending d r') ∧ (raw ∈ active d r'))
  ∧ (∀ d timeout now q task,
        pending d r = q ++ [to_json task] →
        (AgentMessaging.get_next_task d timeout now r).1 = Return (Some task))
  ∧ (∀ d task,
        (∀ d', pending d' (AgentMessaging.complete_task d task r) = pending d' r)
        ∧ active d (AgentMessaging.complete_task d task r)
          = Redis.remove_first (to_json task) (active d r)
        ∧ active d (AgentMessaging.complete_task d task r) `sublist_of` active d r
        ∧ (∀ d', d' ≠ d →
             active d' (AgentMessaging.complete_task d task r) = active d' r)).
Proof.
  intros Hinv.
  assert (∀ d timeout now q raw,
            pending d r = q ++ [raw] →
            pending d (AgentMessaging.get_next_task d timeout now r).2 = q →
            raw ∉ pending d (AgentMessaging.get_next_task d timeout now r).2) as Hgone.
  { intros d timeout now q raw Hq Hp. specialize (Hinv d). rewrite Hq in Hinv. rewrite Hp.
    apply NoDup_app in Hinv as [Hnd _]. apply NoDup_app in Hnd as (_ & Hnd & _).
    intros Hin. apply (Hnd _ Hin). set_solver. }
  split_and!.
  - intros d a Hfresh. by apply queue_inv_publish_task.
  - intros. by apply queue_inv_get_next_task.
  - intros. by apply queue_inv_complete_task.
  - done.
  - intros d timeout now r'. subst r'.
    destruct (get_next_task_lists d timeout now r)
      as [[Hq Hsame]|(q & raw & Hq & Hp & Ha & Hother)].
    + left. by split.
    + right. exists q, raw. split_and!; [done..|by apply (Hgone d timeout now q)| |done].
      rewrite Ha. by left.
  - intros d timeout now task r' Hget.
    destruct (get_next_task_lists d timeout now r)
      as [[Hq _]|(q & raw & Hq & Hp & Ha & _)].
    { rewrite (get_next_task_empty _ _ _ _ Hq) in Hget. congruence. }
    pose proof (Hgone d timeout now q raw Hq Hp) as Hnot.
    rewrite Hget in Hp, Ha, Hnot. simpl in Hp, Ha, Hnot. exists q, raw.
    assert (from_json raw = Some task) as Hraw.
    { revert Hget. unfold AgentMessaging.get_next_task, Redis.brpoplpush.
      destruct (rpoplpush_snoc _ _ _ _ r (pending_active_ne d d) Hq) as (r1 & -> & _).
      destruct (0 <? timeout)%Z, (truthy raw), (from_json raw); intros; congruence. }
    split_and!; [done..|]. rewrite Ha. by left.
  - intros d timeout now q task Hq.
    by destruct (get_next_task_snoc d timeout now q task r Hq) as (r' & -> & _).
  - intros d task. destruct (complete_task_lists d task r) as (Hp & Ha & Hother).
    split_and!; [done|done| |done]. rewrite Ha. apply remove_first_sublist.
Qed.

(** ** Results *)

Lemma hgetall_hset_eq key m r :
  Redis.hgetall key (Redis.hset key m r) = m ∪ Redis.hgetall key r.
Proof. unfold Redis.hgetall at 1. simpl. by rewrite lookup_insert_eq. Qed.

Lemma hgetall_hset_ne key key' m r :
  key ≠ key' → Redis.hgetall key' (Redis.hset key m r) = Redis.hgetall key' r.
Proof. intros. unfold Redis.hgetall. simpl. by rewrite lookup_insert_ne. Qed.

Lemma hgetall_publish key ch msg r :
  Redis.hgetall key (Redis.publish ch msg r) = Redis.hgetall key r.
Proof. done. Qed.

Section result_facts.
Context {C : Codec}.

Lemma hgetall_publish_result task_id output status error now r :
  Redis.hgetall (AgentMessaging.result_key task_id)
    (AgentMessaging.publish_result task_id output status error now r)
  = list_to_map (AgentMessaging.result_data output status error now)
    ∪ Redis.hgetall (AgentMessaging.result_key task_id) r.
Proof.
  unfold AgentMessaging.publish_result. by rewrite hgetall_publish, hgetall_hset_eq.
Qed.

(** The fields of the stored record after [publish_result]. *)
Lemma result_fields output status error now (old : gmap string string) :
  let m := list_to_map (AgentMessaging.result_data output status error now) ∪ old in
  m !! "status" = Some status
  ∧ m !! "output" = Some (json_dumps (JDict output))
  ∧ m !! "completed_at" = Some now
  ∧ m !! "error" = (if truthy_opt error then error else old !! "error")
  ∧ m !! "task_id" = old !! "task_id"
  ∧ m !! "started_at" = old !! "started_at".
Proof.
  unfold AgentMessaging.result_data.
  destruct error as [e|]; simpl; [destruct (truthy e) eqn:He|]; simpl;
    repeat split;
    repeat first
      [ done
      | rewrite lookup_union_r by (by simplify_map_eq)
      | erewrite lookup_union_Some_l by (by simplify_map_eq) ].
Qed.

(** Reading back what [publish_result] stored, for a record that carries
    its [task_id]. *)
Lemma get_result_publish_result `{!CodecLaws C} task_id output status error now timeout r tid :
  Redis.hgetall (AgentMessaging.result_key task_id) r !! "task_id" = Some tid →
  AgentMessaging.get_result task_id timeout
    (AgentMessaging.publish_result task_id output status error now r)
  = Return (Some (TaskResult.mk tid status (Some output)
      (if truthy_opt error then error
       else Redis.hgetall (AgentMessaging.result_key task_id) r !! "error")
      (Redis.hgetall (AgentMessaging.result_key task_id) r !! "started_at")
      (Some now))).
Proof.
  intros Htid. unfold AgentMessaging.get_result. rewrite hgetall_publish_result.
  set (old := Redis.hgetall _ r) in *.
  destruct (result_fields output status error now old)
    as (Hst & Hout & Hca & Herr & Hid & Hsa).
  set (m := _ ∪ old) in *.
  rewrite decide_False by (intros E; by rewrite E in Hst).
  unfold AgentMessaging.parsed_data. rewrite Hout.
  rewrite (truthy_ne _ (dumps_truthy _)), loads_dumps.
  unfold TaskResult.from_dict.
  rewrite lookup_insert_eq.
  rewrite (lookup_insert_ne _ "output" "task_id"), (lookup_insert_ne _ "output" "status"),
    (lookup_insert_ne _ "output" "error"), (lookup_insert_ne _ "output" "started_at"),
    (lookup_insert_ne _ "output" "completed_at") by done.
  rewrite !lookup_fmap, Hst, Hca, Herr, Hid, Hsa, Htid. simpl.
  by destruct (if truthy_opt error then error else old !! "error"), (old !! "started_at").
Qed.
End result_facts.

(** C3, as stated, fails in three ways.  A second completion that passes
    no error leaves the error of the first in the record; an empty error
    string is not stored, so it reads back as no error; and for an
    identifier that was never published the read raises instead of
    returning a result. *)
Lemma publish_result_roundtrip_counterexample :
  let publish_result := AgentMessaging.publish_result (C := Wire.codec) in
  let get_result := AgentMessaging.get_result (C := Wire.codec) in
  let r2 := publish_result "id-1" [] "failed" (Some "boom") "t2" store_a in
  let r3 := publish_result "id-1" [("api_url", JStr "/api/users")] "completed" None "t3" r2 in
  get_result "id-1" 0%Z r3
    = Return (Some (TaskResult.mk "id-1" "completed" (Some [("api_url", JStr "/api/users")])
                      (Some "boom") None (Some "t3")))
  ∧ get_result "id-1" 0%Z (publish_result "id-1" [] "failed" (Some "") "t2" store_a)
    = Return (Some (TaskResult.mk "id-1" "failed" (Some []) None None (Some "t2")))
  ∧ get_result "ghost" 0%Z (publish_result "ghost" [] "completed" None "t2" Redis.empty)
    = Raise (ValidationError "TaskResult" "task_id").
Proof. vm_compute. done. Qed.

(** C3, amended.  For a task whose result record exists (it carries its
    [task_id], as [publish_task] writes it), [publish_result] followed by
    [get_result] returns a result with exactly the given status and output
    and with [completed_at] set, whatever the record held before; its error
    is the given one when that is a non-empty string, and otherwise the
    error the record held before, none if it held none.  The start time
    stays what it was. *)
Theorem publish_result_roundtrip `{!CodecLaws C} (task_id : string) (output : dict)
    (status : string) (error : option string) (now : string) (timeout : Z)
    (r : Redis.t) (tid : string) :
  Redis.hgetall (AgentMessaging.result_key task_id) r !! "task_id" = Some tid →
  ∃ res,
    AgentMessaging.get_result task_id timeout
      (AgentMessaging.publish_result task_id output status error now r)
    = Return (Some res)
    ∧ TaskResult.task_id res = tid
    ∧ TaskResult.status res = status
    ∧ TaskResult.output res = Some output
    ∧ TaskResult.error res
      = (if truthy_opt error then error
         else Redis.hgetall (AgentMessaging.result_key task_id) r !! "error")
    ∧ (truthy_opt error = false →
       Redis.hgetall (AgentMessaging.result_key task_id) r !! "error" = None →
       TaskResult.error res = None)
    ∧ TaskResult.started_at res
      = Redis.hgetall (AgentMessaging.result_key task_id) r !! "started_at"
    ∧ TaskResult.completed_at res = Some now.
Proof.
  intros Htid. eexists. split; [by apply get_result_publish_result|].
  simpl. split_and!; try done. by intros -> ->.
Qed.

(** Witness of C3: a second completion of the task published in
    [store_a], once with a new error and once with none, which leaves the
    error of the first in the record. *)
Lemma publish_result_roundtrip_witness :
  let publish_result := AgentMessaging.publish_result (C := Wire.codec) in
  let r2 := publish_result "id-1" [] "failed" (Some "boom") "t2" store_a in
  CodecLaws Wire.codec
  ∧ Redis.hgetall (AgentMessaging.result_key "id-1") r2 !! "task_id" = Some "id-1"
  ∧ (∃ res,
      AgentMessaging.get_result (C := Wire.codec) "id-1" 0
        (publish_result "id-1" [("retried", JBool true)] "failed" (Some "boom again") "t3" r2)
      = Return (Some res)
      ∧ TaskResult.task_id res = "id-1"
      ∧ TaskResult.status res = "failed"
      ∧ TaskResult.output res = Some [("retried", JBool true)]
      ∧ TaskResult.error res = Some "boom again"
      ∧ TaskResult.completed_at res = Some "t3")
  ∧ ∃ res,
      AgentMessaging.get_result (C := Wire.codec) "id-1" 0
        (publish_result "id-1" [("retried", JBool true)] "completed" None "t3" r2)
      = Return (Some res)
      ∧ TaskResult.status res = "completed"
      ∧ TaskResult.output res = Some [("retried", JBool true)]
      ∧ TaskResult.error res = Some "boom"
      ∧ TaskResult.completed_at res = Some "t3".
Proof.
  intros publish_result r2.
  assert (Redis.hgetall (AgentMessaging.result_key "id-1") r2 !! "task_id" = Some "id-1")
    as H1 by (vm_compute; reflexivity).
  assert (Redis.hgetall (AgentMessaging.result_key "id-1") r2 !! "error" = Some "boom")
    as H2 by (vm_compute; reflexivity).
  split_and!; [apply wire_laws|exact H1| |].
  - destruct (publish_result_roundtrip (C := Wire.codec) "id-1" [("retried", JBool true)]
                "failed" (Some "boom again") "t3" 0 r2 "id-1" H1)
      as (res & Hres & Hid & Hst & Hout & Herr & _ & _ & Hca).
    exists res. split_and!; [exact Hres|exact Hid|exact Hst|exact Hout|exact Herr|exact Hca].
  - destruct (publish_result_roundtrip (C := Wire.codec) "id-1" [("retried", JBool true)]
                "completed" None "t3" 0 r2 "id-1" H1)
      as (res & Hres & _ & Hst & Hout & Herr & _ & _ & Hca).
    exists res. split_and!; [exact Hres|exact Hst|exact Hout| |exact Hca].
    rewrite Herr. exact H2.
Defined.

Section queue_instances.
Local Existing Instance Wire.codec.

(** Witness of C2, on the store that holds one published task. *)
Lemma pending_active_exclusive_witness :
CodecLaws Wire.codec ∧ queue_inv store_a
∧ queue_inv (AgentMessaging.get_next_task (C := Wire.codec) "backend" 0 "t2" store_a).2
∧ queue_inv (AgentMessaging.publish_task (C := Wire.codec) "backend" task_b store_a).2.
Proof.
assert (queue_inv store_a) as Hinv.
{ apply (queue_inv_publish_task (C := Wire.codec)).
  - intros raw task Hin. vm_compute in Hin. by apply elem_of_nil in Hin.
  - intros d. vm_compute. constructor. }
assert (fresh_task_id (C := Wire.codec) (AgentMessaging.fresh_id task_b) "backend" store_a)
  as Hfresh.
{ intros raw task Hin Hraw.
  change (pending "backend" store_a) with
    [to_json (Codec := Wire.codec) (AgentMessaging.new_task "backend" task_a)] in Hin.
  change (active "backend" store_a) with (@nil string) in Hin.
  apply list_elem_of_singleton in Hin. subst raw.
  rewrite (from_to_json (C := Wire.codec)) in Hraw. by injection Hraw as <-. }
pose proof (pending_active_exclusive (C := Wire.codec) store_a Hinv) as (Hpub & Hget & _).
split_and!; [apply wire_laws|exact Hinv|apply Hget|by apply Hpub].
Defined.

(** C5, as stated, fails: after two publications the head of the pending
  list is the newer task, and [get_next_task] takes the older one from
  the tail, leaving the head in place. *)
Lemma pending_head_is_oldest_counterexample :
let t1 := AgentMessaging.new_task "backend" task_a in
let t2 := AgentMessaging.new_task "backend" task_b in
let r := publish_all (C := Wire.codec) "backend" [task_a; task_b] Redis.empty in
let next := AgentMessaging.get_next_task (C := Wire.codec) "backend" 0 "t3" r in
to_json t1 ≠ to_json t2
∧ pending "backend" r = [to_json t2; to_json t1]
∧ head (pending "backend" r) ≠ Some (to_json t1)
∧ next.1 = Return (Some t1)
∧ pending "backend" next.2 = [to_json t2].
Proof.
intros t1 t2 r next.
assert (to_json (Codec := Wire.codec) t1 ≠ to_json t2) as Hne.
{ intros E. apply (f_equal from_json) in E.
  rewrite !(from_to_json (C := Wire.codec)) in E. discriminate. }
assert (pending "backend" r = [to_json t2; to_json t1]) as Hp by reflexivity.
destruct (get_next_task_snoc (C := Wire.codec) "backend" 0 "t3" [to_json t2] t1 r Hp)
  as (r' & Hget & Hp' & _).
subst next. rewrite Hget, Hp. cbn [fst snd head].
split_and!; [done|done|congruence|done|done].
Qed.

End queue_instances.

(** C5, amended.  The pending list has its newest entry at the head and
    its oldest at the tail: [publish_task] pushes at the head, and
    [get_next_task] takes the tail entry off and pushes it at the head of
    the active list. *)
Theorem pending_head_push_tail_pop {C : Codec} (d : string) (r : Redis.t) :
  (∀ a, pending d (AgentMessaging.publish_task d a r).2
        = to_json (AgentMessaging.new_task d a) :: pending d r)
  ∧ (∀ args, pending d (publish_all d args r)
             = rev (to_json <$> (AgentMessaging.new_task d <$> args)) ++ pending d r)
  ∧ (∀ timeout now,
       let r' := (AgentMessaging.get_next_task d timeout now r).2 in
       pending d r' = removelast (pending d r)
       ∧ active d r' = match last (pending d r) with
                       | Some raw => raw :: active d r
                       | None => active d r
                       end).
Proof.
  split_and!.
  - intros a. apply pending_publish_task.
  - intros args. apply pending_publish_all.
  - intros timeout now.
    destruct (get_next_task_lists d timeout now r)
      as [[Hq ->]|(q & raw & Hq & Hp & Ha & _)]; simpl.
    + by rewrite Hq.
    + rewrite Hp, Ha, Hq, last_snoc. split; [|done].
      by rewrite removelast_last.
Qed.

(** ** The registry *)

Lemma to_dict_lookup a :
  AgentInfo.to_dict a !! "agent_id" = Some (AgentInfo.agent_id a)
  ∧ AgentInfo.to_dict a !! "role" = Some (AgentInfo.role a)
  ∧ AgentInfo.to_dict a !! "domain_type" = AgentInfo.domain_type a
  ∧ AgentInfo.to_dict a !! "status" = Some (AgentInfo.status a)
  ∧ AgentInfo.to_dict a !! "container_id" = AgentInfo.container_id a
  ∧ AgentInfo.to_dict a !! "created_at" = Some (AgentInfo.created_at a)
  ∧ AgentInfo.to_dict a !! "last_heartbeat" = AgentInfo.last_heartbeat a.
Proof.
  destruct a as [aid rl [dt|] st [cid|] ca [hb|]]; vm_compute; done.
Qed.

Lemma register_hashes agent_id role dt cid created beat r :
  Redis.hashes (AgentRegistry.register agent_id role dt cid created beat r).2
  = <[AgentRegistry.info_key agent_id :=
        AgentInfo.to_dict (AgentInfo.mk agent_id role dt "active" cid created None)
        ∪ Redis.hgetall (AgentRegistry.info_key agent_id) r]> (Redis.hashes r).
Proof.
  unfold AgentRegistry.register. simpl.
  repeat case_decide; try done; destruct dt as [t|]; try done; by destruct (truthy t).
Qed.

Lemma register_strings agent_id role dt cid created beat r :
  Redis.strings (AgentRegistry.register agent_id role dt cid created beat r).2
  = <[AgentRegistry.heartbeat_key agent_id := (beat, Some AgentRegistry.HEARTBEAT_TTL)]>
      (if decide (role = "main") then <["agents:main" := (agent_id, None)]> (Redis.strings r)
       else Redis.strings r).
Proof.
  unfold AgentRegistry.register. simpl.
  repeat case_decide; try done; destruct dt as [t|]; try done; by destruct (truthy t).
Qed.

Lemma hgetall_register agent_id role dt cid created beat r :
  Redis.hgetall (AgentRegistry.info_key agent_id)
    (AgentRegistry.register agent_id role dt cid created beat r).2
  = AgentInfo.to_dict (AgentInfo.mk agent_id role dt "active" cid created None)
    ∪ Redis.hgetall (AgentRegistry.info_key agent_id) r.
Proof. unfold Redis.hgetall at 1. by rewrite register_hashes, lookup_insert_eq. Qed.

Global Instance info_key_inj : Inj (=) (=) AgentRegistry.info_key.
Proof. intros d d' H. by simplify_eq/=. Qed.
Global Instance heartbeat_key_inj : Inj (=) (=) AgentRegistry.heartbeat_key.
Proof. intros d d' H. by simplify_eq/=. Qed.
Global Instance domain_set_inj : Inj (=) (=) AgentRegistry.domain_set.
Proof. intros d d' H. by simplify_eq/=. Qed.

Lemma hgetall_register_ne agent_id other role dt cid created beat r :
  other ≠ agent_id →
  Redis.hgetall (AgentRegistry.info_key other)
    (AgentRegistry.register agent_id role dt cid created beat r).2
  = Redis.hgetall (AgentRegistry.info_key other) r.
Proof.
  intros Hne. unfold Redis.hgetall.
  rewrite register_hashes, lookup_insert_ne; [done|]. by intros ?%(inj _).
Qed.

Lemma is_healthy_register agent_id role dt cid created beat r :
  AgentRegistry.is_healthy agent_id
    (AgentRegistry.register agent_id role dt cid created beat r).2 = true.
Proof.
  unfold AgentRegistry.is_healthy, Redis.exists_.
  by rewrite register_strings, lookup_insert_eq.
Qed.

(** The record [get_agent] builds from a hash holding both required fields. *)
Lemma get_agent_Some agent_id now r data aid rl :
  Redis.hgetall (AgentRegistry.info_key agent_id) r = data →
  data !! "agent_id" = Some aid →
  data !! "role" = Some rl →
  AgentRegistry.get_agent agent_id now r
  = Return (Some (AgentInfo.mk aid rl (data !! "domain_type")
                    (default "starting" (data !! "status"))
                    (data !! "container_id")
                    (default now (data !! "created_at"))
                    (data !! "last_heartbeat"))).
Proof.
  intros <- Hid Hrl. unfold AgentRegistry.get_agent, AgentInfo.from_dict.
  rewrite decide_False by (intros E; by rewrite E in Hid).
  by rewrite Hid, Hrl.
Qed.

Lemma get_agent_None agent_id now r :
  Redis.hgetall (AgentRegistry.info_key agent_id) r = ∅ →
  AgentRegistry.get_agent agent_id now r = Return None.
Proof. intros H. unfold AgentRegistry.get_agent. by rewrite H, decide_True. Qed.

Lemma get_agent_register agent_id role dt cid created beat now r :
  let old := Redis.hgetall (AgentRegistry.info_key agent_id) r in
  AgentRegistry.get_agent agent_id now
    (AgentRegistry.register agent_id role dt cid created beat r).2
  = Return (Some (AgentInfo.mk agent_id role
                    (match dt with Some t => Some t | None => old !! "domain_type" end)
                    "active"
                    (match cid with Some c => Some c | None => old !! "container_id" end)
                    created (old !! "last_heartbeat"))).
Proof.
  intros old.
  destruct (to_dict_lookup (AgentInfo.mk agent_id role dt "active" cid created None))
    as (Hid & Hrl & Hdt & Hst & Hcid & Hca & Hhb). simpl in *.
  rewrite (get_agent_Some _ _ _ _ agent_id role
             (hgetall_register agent_id role dt cid created beat r)); fold old;
    [|rewrite lookup_union, Hid; by destruct (old !! "agent_id")
     |rewrite lookup_union, Hrl; by destruct (old !! "role")].
  rewrite !lookup_union, Hdt, Hst, Hcid, Hca, Hhb.
  repeat f_equal.
  - by destruct dt, (old !! "domain_type").
  - by destruct (old !! "status").
  - by destruct cid, (old !! "container_id").
  - by destruct (old !! "created_at").
  - by destruct (old !! "last_heartbeat").
Qed.

Lemma smembers_sadd_eq k x r :
  Redis.smembers k (Redis.sadd k x r) = {[x]} ∪ Redis.smembers k r.
Proof. unfold Redis.smembers at 1. simpl. by rewrite lookup_insert_eq. Qed.

Lemma smembers_sadd_ne k k' x r :
  k ≠ k' → Redis.smembers k' (Redis.sadd k x r) = Redis.smembers k' r.
Proof. intros. unfold Redis.smembers. simpl. by rewrite lookup_insert_ne. Qed.

Lemma smembers_register_domain agent_id t cid created beat r :
  truthy t = true →
  Redis.smembers (AgentRegistry.domain_set t)
    (AgentRegistry.register agent_id "domain" (Some t) cid created beat r).2
  = {[agent_id]} ∪ Redis.smembers (AgentRegistry.domain_set t) r.
Proof.
  intros Ht. unfold AgentRegistry.register. simpl. rewrite Ht.
  change (Redis.smembers ?k (Redis.setex _ _ _ ?r)) with (Redis.smembers k r).
  rewrite smembers_sadd_eq, !smembers_sadd_ne by done.
  change (Redis.smembers ?k (Redis.hset _ _ ?r)) with (Redis.smembers k r). done.
Qed.

Lemma fetch_agents_ok ids now r :
  (∀ x, x ∈ ids → ∃ o, AgentRegistry.get_agent x now r = Return o) →
  ∃ l, AgentRegistry.fetch_agents ids now r = Return l
    ∧ ∀ x a, x ∈ ids → AgentRegistry.get_agent x now r = Return (Some a) → a ∈ l.
Proof.
  induction ids as [|y ids IH]; intros Hok.
  - exists []. split; [done|]. intros x a Hx. by apply elem_of_nil in Hx.
  - destruct IH as (l & Hl & Hin). { intros x Hx. apply Hok. by right. }
    destruct (Hok y) as [o Ho]; [by left|]. simpl. rewrite Ho, Hl. simpl.
    eexists. split; [done|]. intros x a Hx Ha.
    apply elem_of_cons in Hx as [->|Hx].
    + rewrite Ho in Ha. injection Ha as ->. by left.
    + destruct o; [right|]; by eapply Hin.
Qed.

(** C9. Right after [register], [get_agent] returns the agent's record and
    its status is "active", never "starting"; its lease is live.  So a domain
    agent registered with a domain type passes the filter of
    [find_available_domain] at once, and the search returns an available
    agent, as long as the other members of that type's set have records the
    model can read. *)
Theorem register_stamps_active (agent_id role : string) (dt cid : option string)
    (created beat now : string) (r : Redis.t) :
  let r' := (AgentRegistry.register agent_id role dt cid created beat r).2 in
  AgentInfo.status (AgentRegistry.register agent_id role dt cid created beat r).1 = "active"
  ∧ AgentRegistry.is_healthy agent_id r' = true
  ∧ ∃ info,
      AgentRegistry.get_agent agent_id now r' = Return (Some info)
      ∧ AgentInfo.agent_id info = agent_id
      ∧ AgentInfo.role info = role
      ∧ AgentInfo.status info = "active"
      ∧ ∀ t, role = "domain" → dt = Some t → truthy t = true →
          records_readable (Redis.smembers (AgentRegistry.domain_set t) r ∖ {[agent_id]}) now r →
          ∃ domains a,
            AgentRegistry.get_domain_orchestrators (Some t) now r' = Return domains
            ∧ info ∈ AgentRegistry.available domains r'
            ∧ AgentRegistry.find_available_domain t now r' = Return (Some a)
            ∧ a ∈ AgentRegistry.available domains r'.
Proof.
  intros r'. split; [done|]. split; [apply is_healthy_register|].
  eexists. split; [apply get_agent_register|]. simpl. split_and!; [done..|].
  intros t -> -> Ht Hread.
  set (info := AgentInfo.mk _ _ _ _ _ _ _).
  assert (AgentRegistry.get_agent agent_id now r' = Return (Some info)) as Hget
    by apply get_agent_register.
  destruct (fetch_agents_ok (elements (Redis.smembers (AgentRegistry.domain_set t) r')) now r')
    as (domains & Hdom & Hin).
  { intros x Hx%elem_of_elements. destruct (decide (x = agent_id)) as [->|Hne]; [by eexists|].
    subst r'. rewrite smembers_register_domain in Hx by done.
    destruct (Hread x) as [o Ho].
    { apply elem_of_difference. split; [|by apply not_elem_of_singleton].
      apply elem_of_union in Hx. destruct Hx as [Hx|Hx]; [|done].
      by apply elem_of_singleton in Hx. }
    exists o. rewrite <- Ho.
    unfold AgentRegistry.get_agent. by rewrite hgetall_register_ne. }
  assert (info ∈ AgentRegistry.available domains r') as Havail.
  { apply list_elem_of_filter. split; [split; [done|apply is_healthy_register]|].
    apply (Hin agent_id); [|done]. apply elem_of_elements.
    subst r'. rewrite smembers_register_domain by done. set_solver. }
  unfold AgentRegistry.find_available_domain, AgentRegistry.get_domain_orchestrators.
  rewrite Ht, Hdom. simpl.
  destruct (AgentRegistry.available domains r') as [|a rest] eqn:E.
  { by apply elem_of_nil in Havail. }
  exists domains, a. rewrite E. split_and!; [done..|by left].
Qed.

(** Witness of C9: the first backend agent of an empty registry. *)
Lemma register_stamps_active_witness :
  let r' := (AgentRegistry.register "backend-1" "domain" (Some "backend") None "t0" "t1"
               Redis.empty).2 in
  records_readable (Redis.smembers (AgentRegistry.domain_set "backend") Redis.empty
                    ∖ {["backend-1"]}) "t2" Redis.empty
  ∧ ∃ info a, AgentRegistry.get_agent "backend-1" "t2" r' = Return (Some info)
      ∧ AgentInfo.status info = "active"
      ∧ AgentRegistry.find_available_domain "backend" "t2" r' = Return (Some a).
Proof.
  intros r'.
  assert (records_readable (Redis.smembers (AgentRegistry.domain_set "backend") Redis.empty
                            ∖ {["backend-1"]}) "t2" Redis.empty) as Hread.
  { intros x [Hx _]%elem_of_difference. by apply elem_of_empty in Hx. }
  split; [exact Hread|].
  destruct (register_stamps_active "backend-1" "domain" (Some "backend") None "t0" "t1" "t2"
              Redis.empty) as (_ & _ & info & Hget & _ & _ & Hst & Hfind).
  destruct (Hfind "backend" eq_refl eq_refl eq_refl Hread) as (domains & a & _ & _ & Ha & _).
  exists info, a. split_and!; [exact Hget|exact Hst|exact Ha].
Defined.

Lemma deregister_unknown agent_id now r :
  Redis.hgetall (AgentRegistry.info_key agent_id) r = ∅ →
  AgentRegistry.deregister agent_id now r = (Return false, r).
Proof.
  intros H. unfold AgentRegistry.deregister. by rewrite (get_agent_None _ _ _ H).
Qed.

Lemma hgetall_delete_eq key r : Redis.hgetall key (Redis.delete key r) = ∅.
Proof. unfold Redis.hgetall. simpl. by rewrite lookup_delete_eq. Qed.

Lemma hgetall_delete_ne key key' r :
  key ≠ key' → Redis.hgetall key' (Redis.delete key r) = Redis.hgetall key' r.
Proof. intros. unfold Redis.hgetall. simpl. by rewrite lookup_delete_ne. Qed.

Lemma hgetall_srem key k x r : Redis.hgetall key (Redis.srem k x r) = Redis.hgetall key r.
Proof. done. Qed.

(** What a successful [deregister] leaves behind. *)
Lemma deregister_known agent_id now r info :
  AgentRegistry.get_agent agent_id now r = Return (Some info) →
  ∃ r', AgentRegistry.deregister agent_id now r = (Return true, r')
    ∧ Redis.hgetall (AgentRegistry.info_key agent_id) r' = ∅
    ∧ (∀ other, other ≠ agent_id →
         Redis.hgetall (AgentRegistry.info_key other) r'
         = Redis.hgetall (AgentRegistry.info_key other) r)
    ∧ Redis.get (AgentRegistry.heartbeat_key agent_id) r' = None
    ∧ (AgentInfo.role info = "main" → Redis.get "agents:main" r' = None).
Proof.
  intros Hget. unfold AgentRegistry.deregister. rewrite Hget.
  eexists. split; [done|]. split_and!.
  - rewrite hgetall_delete_ne by done. apply hgetall_delete_eq.
  - intros other Hne. rewrite !hgetall_delete_ne; [|by intros ?%(inj _)|done].
    repeat case_decide; rewrite ?hgetall_delete_ne by done; try done;
      destruct (AgentInfo.domain_type info) as [t|]; try done; by destruct (truthy t).
  - unfold Redis.get. simpl. by rewrite lookup_delete_eq.
  - intros Hmain. rewrite decide_True by done. unfold Redis.get. simpl.
    rewrite !lookup_delete_ne by done. by rewrite lookup_delete_eq.
Qed.

(** C10. Deregistering an agent whose stored role is "main" deletes the
    key [agents:main] whoever it names: once A and then B have registered
    as main, deregistering A leaves [get_main_orchestrator] with nothing to
    return although B's record is still there. *)
Theorem deregister_main_clears_singleton (a b : string) (dta cida dtb cidb : option string)
    (ca ba cb bb now : string) (r : Redis.t) :
  a ≠ b →
  let r1 := (AgentRegistry.register a "main" dta cida ca ba r).2 in
  let r2 := (AgentRegistry.register b "main" dtb cidb cb bb r1).2 in
  Redis.get "agents:main" r2 = Some b
  ∧ ∃ r3 info,
      AgentRegistry.deregister a now r2 = (Return true, r3)
      ∧ Redis.get "agents:main" r3 = None
      ∧ AgentRegistry.get_main_orchestrator now r3 = Return None
      ∧ AgentRegistry.get_agent b now r3 = Return (Some info)
      ∧ AgentInfo.agent_id info = b ∧ AgentInfo.role info = "main".
Proof.
  intros Hab r1 r2. split.
  { unfold Redis.get. subst r2. rewrite register_strings, decide_True by done.
    rewrite lookup_insert_ne by done. by rewrite lookup_insert_eq. }
  assert (∃ ia, AgentRegistry.get_agent a now r2 = Return (Some ia)
                ∧ AgentInfo.role ia = "main") as (ia & Hia & Hrole).
  { eexists. split.
    - unfold AgentRegistry.get_agent. subst r2. rewrite hgetall_register_ne by done.
      apply get_agent_register.
    - done. }
  destruct (deregister_known a now r2 ia Hia) as (r3 & Hd & _ & Hother & _ & Hmain).
  exists r3. eexists. split_and!; [done|by apply Hmain| | |..].
  - unfold AgentRegistry.get_main_orchestrator. by rewrite Hmain.
  - unfold AgentRegistry.get_agent. rewrite Hother by done. apply get_agent_register.
  - done.
  - done.
Qed.

(** Witness of C10. *)
Lemma deregister_main_clears_singleton_witness :
  let r1 := (AgentRegistry.register "main-a" "main" None None "t0" "t0" Redis.empty).2 in
  let r2 := (AgentRegistry.register "main-b" "main" None None "t1" "t1" r1).2 in
  "main-a" ≠ "main-b"
  ∧ ∃ r3 info,
      AgentRegistry.deregister "main-a" "t2" r2 = (Return true, r3)
      ∧ AgentRegistry.get_main_orchestrator "t2" r3 = Return None
      ∧ AgentRegistry.get_agent "main-b" "t2" r3 = Return (Some info).
Proof.
  intros r1 r2.
  assert ("main-a" ≠ "main-b") as Hne by discriminate.
  split; [exact Hne|].
  destruct (deregister_main_clears_singleton "main-a" "main-b" None None None None
              "t0" "t0" "t1" "t1" "t2" Redis.empty Hne)
    as (_ & r3 & info & Hd & _ & Hmain & Hb & _).
  exists r3, info. split_and!; [exact Hd|exact Hmain|exact Hb].
Defined.

Lemma deregister_partial agent_id now r :
  Redis.hgetall (AgentRegistry.info_key agent_id) r ≠ ∅ →
  Redis.hgetall (AgentRegistry.info_key agent_id) r !! "agent_id" = None →
  AgentRegistry.deregister agent_id now r
  = (Raise (ValidationError "AgentInfo" "agent_id"), r).
Proof.
  intros Hsome Hid. unfold AgentRegistry.deregister, AgentRegistry.get_agent.
  rewrite decide_False by done. unfold AgentInfo.from_dict. by rewrite Hid.
Qed.

Lemma hgetall_hset1_fresh agent_id f v r :
  f ≠ "agent_id" →
  Redis.hgetall (AgentRegistry.info_key agent_id) r = ∅ →
  let r' := Redis.hset1 (AgentRegistry.info_key agent_id) f v r in
  Redis.hgetall (AgentRegistry.info_key agent_id) r' ≠ ∅
  ∧ Redis.hgetall (AgentRegistry.info_key agent_id) r' !! "agent_id" = None.
Proof.
  intros Hf Hnone r'. subst r'. unfold Redis.hset1.
  rewrite hgetall_hset_eq, Hnone, (right_id_L ∅ (∪)). split.
  - intros Hempty. apply (f_equal (λ m : gmap string string, m !! f)) in Hempty.
    by rewrite lookup_singleton_eq, lookup_empty in Hempty.
  - by rewrite lookup_singleton_ne.
Qed.

(** C7, as stated, fails for [deregister]: an agent that never registered
    and has sent one heartbeat, as the domain runner does while its queue is
    empty, is in no set and has no readable record, and [deregister] raises
    on the one-field record the heartbeat left instead of returning false.
    A status update on such an agent has the same effect. *)
Lemma unknown_agent_raises_counterexample :
  let r1 := (AgentRegistry.heartbeat "ghost" "t0" Redis.empty).2 in
  let r2 := (AgentRegistry.update_status "ghost" "busy" Redis.empty).2 in
  Redis.smembers "agents:all" r1 = ∅
  ∧ (∀ now, AgentRegistry.get_agent "ghost" now Redis.empty = Return None)
  ∧ AgentRegistry.deregister "ghost" "t1" r1
    = (Raise (ValidationError "AgentInfo" "agent_id"), r1)
  ∧ AgentRegistry.deregister "ghost" "t1" r2
    = (Raise (ValidationError "AgentInfo" "agent_id"), r2).
Proof.
  intros r1 r2. split_and!; [reflexivity|intros now; reflexivity| |].
  - apply deregister_partial; [|reflexivity].
    intros Hempty. apply (f_equal (λ m : gmap string string, m !! "last_heartbeat")) in Hempty.
    vm_compute in Hempty. discriminate.
  - apply deregister_partial; [|reflexivity].
    intros Hempty. apply (f_equal (λ m : gmap string string, m !! "status")) in Hempty.
    vm_compute in Hempty. discriminate.
Qed.

(** C7, amended.  Absence is answered with a sentinel, not an exception,
    where nothing at all is stored.  [deregister] of an agent without any
    record returns false and leaves the store as it was, so a second
    [deregister] after a successful one returns false; for an agent whose
    record lacks its identifier, as a heartbeat or a status update leaves it
    for an agent that never registered, [deregister] raises a validation
    error and leaves the store as it was.  [stop_domain] returns false when
    no container carries the domain id; a non-blocking [get_next_task] on
    an empty queue returns nothing. *)
Theorem not_found_is_sentinel {C : Codec} :
  (∀ agent_id now r,
     Redis.hgetall (AgentRegistry.info_key agent_id) r = ∅ →
     AgentRegistry.deregister agent_id now r = (Return false, r))
  ∧ (∀ agent_id now now' r r',
       AgentRegistry.deregister agent_id now r = (Return true, r') →
       AgentRegistry.deregister agent_id now' r' = (Return false, r'))
  ∧ (∀ agent_id now r,
       Redis.hgetall (AgentRegistry.info_key agent_id) r ≠ ∅ →
       Redis.hgetall (AgentRegistry.info_key agent_id) r !! "agent_id" = None →
       AgentRegistry.deregister agent_id now r
       = (Raise (ValidationError "AgentInfo" "agent_id"), r))
  ∧ (∀ agent_id now beat status r,
       Redis.hgetall (AgentRegistry.info_key agent_id) r = ∅ →
       let r1 := (AgentRegistry.heartbeat agent_id beat r).2 in
       let r2 := (AgentRegistry.update_status agent_id status r).2 in
       AgentRegistry.deregister agent_id now r1
       = (Raise (ValidationError "AgentInfo" "agent_id"), r1)
       ∧ AgentRegistry.deregister agent_id now r2
         = (Raise (ValidationError "AgentInfo" "agent_id"), r2))
  ∧ (∀ rt domain_id timeout,
       Docker.list_by_label DomainSpawner.DOMAIN_ID_LABEL domain_id rt = [] →
       DomainSpawner.stop_domain rt domain_id timeout = (Return false, rt))
  ∧ (∀ domain timeout now r,
       (timeout ≤ 0)%Z → pending domain r = [] →
       AgentMessaging.get_next_task domain timeout now r = (Return None, r)).
Proof.
  split_and!.
  - apply deregister_unknown.
  - intros agent_id now now' r r' Hd. apply deregister_unknown.
    destruct (AgentRegistry.get_agent agent_id now r) as [[info|]|e] eqn:Hget.
    + destruct (deregister_known _ _ _ _ Hget) as (r'' & Hd' & Hgone & _).
      rewrite Hd in Hd'. by injection Hd' as ->.
    + unfold AgentRegistry.deregister in Hd. rewrite Hget in Hd. discriminate.
    + unfold AgentRegistry.deregister in Hd. rewrite Hget in Hd. discriminate.
  - apply deregister_partial.
  - intros agent_id now beat status r Hnone r1 r2. split.
    + destruct (hgetall_hset1_fresh agent_id "last_heartbeat" beat
                  (Redis.setex (AgentRegistry.heartbeat_key agent_id)
                     AgentRegistry.HEARTBEAT_TTL beat r)) as [Hsome Hid]; [done|done|].
      by apply deregister_partial.
    + destruct (hgetall_hset1_fresh agent_id "status" status r) as [Hsome Hid];
        [done|done|].
      by apply deregister_partial.
  - intros rt domain_id timeout Hnone.
    unfold DomainSpawner.stop_domain, DomainSpawner._find_container_by_domain_id.
    by rewrite Hnone.
  - intros domain timeout now r _ Hempty. by apply get_next_task_empty.
Qed.

(** Witness of C7. *)
Lemma not_found_is_sentinel_witness :
  let r1 := (AgentRegistry.register "worker-1" "worker" None None "t0" "t0" Redis.empty).2 in
  let r2 := (AgentRegistry.deregister "worker-1" "t1" r1).2 in
  let r3 := (AgentRegistry.heartbeat "ghost" "t2" r1).2 in
  AgentRegistry.deregister "ghost" "t1" r1 = (Return false, r1)
  ∧ AgentRegistry.deregister "worker-1" "t1" r1 = (Return true, r2)
  ∧ AgentRegistry.deregister "worker-1" "t2" r2 = (Return false, r2)
  ∧ AgentRegistry.deregister "ghost" "t3" r3
    = (Raise (ValidationError "AgentInfo" "agent_id"), r3)
  ∧ DomainSpawner.stop_domain idle_runtime "backend-0a1b2c3d" 10
    = (Return false, idle_runtime)
  ∧ AgentMessaging.get_next_task (C := Wire.codec) "backend" 0 "t1" r1 = (Return None, r1).
Proof.
  intros r1 r2 r3.
  destruct (not_found_is_sentinel (C := Wire.codec)) as (H1 & H2 & _ & H3 & H4 & H5).
  assert (AgentRegistry.deregister "worker-1" "t1" r1 = (Return true, r2)) as Hd
    by (vm_compute; reflexivity).
  assert (Redis.hgetall (AgentRegistry.info_key "ghost") r1 = ∅) as Hghost
    by (vm_compute; reflexivity).
  split_and!.
  - apply H1. exact Hghost.
  - exact Hd.
  - exact (H2 "worker-1" "t1" "t2" r1 r2 Hd).
  - exact (proj1 (H3 "ghost" "t3" "t2" "busy" r1 Hghost)).
  - apply H4. reflexivity.
  - apply H5; [lia|reflexivity].
Defined.

(** C4, as stated, fails: after a registration and a deregistration the
    agent is gone, and one heartbeat later it counts as healthy again while
    [get_agent] raises on the one-field record the heartbeat wrote. *)
Lemma heartbeat_resurrects_counterexample :
  let r1 := (AgentRegistry.register "worker-1" "worker" None None "t0" "t0" Redis.empty).2 in
  let r2 := (AgentRegistry.deregister "worker-1" "t1" r1).2 in
  let r3 := (AgentRegistry.heartbeat "worker-1" "t2" r2).2 in
  (AgentRegistry.deregister "worker-1" "t1" r1).1 = Return true
  ∧ AgentRegistry.get_agent "worker-1" "t1" r2 = Return None
  ∧ AgentRegistry.is_healthy "worker-1" r2 = false
  ∧ AgentRegistry.is_healthy "worker-1" r3 = true
  ∧ AgentRegistry.get_agent "worker-1" "t3" r3 = Raise (ValidationError "AgentInfo" "agent_id").
Proof. vm_compute. done. Qed.

(** C4, amended.  For an agent whose record has been removed, [heartbeat]
    returns true, writes the lease anew with the full time to live, so that
    the agent counts as healthy, and writes [last_heartbeat] into a record
    that holds nothing else.  It restores no membership, and [get_agent]
    returns no record for the agent: it rejects the one-field record. *)
Theorem heartbeat_after_deregister (agent_id now now' : string) (r : Redis.t) :
  Redis.hgetall (AgentRegistry.info_key agent_id) r = ∅ →
  let r' := (AgentRegistry.heartbeat agent_id now r).2 in
  (AgentRegistry.heartbeat agent_id now r).1 = true
  ∧ Redis.strings r' !! AgentRegistry.heartbeat_key agent_id
    = Some (now, Some AgentRegistry.HEARTBEAT_TTL)
  ∧ AgentRegistry.is_healthy agent_id r' = true
  ∧ Redis.hgetall (AgentRegistry.info_key agent_id) r' = {["last_heartbeat" := now]}
  ∧ Redis.sets r' = Redis.sets r
  ∧ AgentRegistry.get_agent agent_id now' r'
    = Raise (ValidationError "AgentInfo" "agent_id").
Proof.
  intros Hgone r'.
  assert (Redis.hgetall (AgentRegistry.info_key agent_id) r' = {["last_heartbeat" := now]})
    as Hrec.
  { subst r'. unfold AgentRegistry.heartbeat, Redis.hset1. simpl.
    rewrite hgetall_hset_eq.
    change (Redis.hgetall ?k (Redis.setex _ _ _ ?s)) with (Redis.hgetall k s).
    rewrite Hgone. apply (right_id ∅ (∪)). }
  split_and!; [done| | |exact Hrec|done|].
  - subst r'. simpl. by rewrite lookup_insert_eq.
  - subst r'. unfold AgentRegistry.is_healthy, Redis.exists_. simpl.
    by rewrite lookup_insert_eq.
  - unfold AgentRegistry.get_agent. rewrite Hrec. done.
Qed.

(** Witness of C4, on the store a registration and a deregistration leave. *)
Lemma heartbeat_after_deregister_witness :
  let r1 := (AgentRegistry.register "worker-1" "worker" None None "t0" "t0" Redis.empty).2 in
  let r2 := (AgentRegistry.deregister "worker-1" "t1" r1).2 in
  let r3 := (AgentRegistry.heartbeat "worker-1" "t2" r2).2 in
  Redis.hgetall (AgentRegistry.info_key "worker-1") r2 = ∅
  ∧ AgentRegistry.is_healthy "worker-1" r3 = true
  ∧ Redis.smembers "agents:all" r3 = Redis.smembers "agents:all" r2
  ∧ AgentRegistry.get_agent "worker-1" "t3" r3 = Raise (ValidationError "AgentInfo" "agent_id").
Proof.
  intros r1 r2 r3.
  assert (Redis.hgetall (AgentRegistry.info_key "worker-1") r2 = ∅) as Hgone
    by (vm_compute; reflexivity).
  destruct (heartbeat_after_deregister "worker-1" "t2" "t3" r2 Hgone)
    as (_ & _ & Hhealthy & _ & Hsets & Hget).
  split_and!; [exact Hgone|exact Hhealthy| |exact Hget].
  unfold Redis.smembers. fold r3 in Hsets. by rewrite Hsets.
Defined.

Lemma redis_eq (r r' : Redis.t) :
  Redis.lists r = Redis.lists r' → Redis.hashes r = Redis.hashes r' →
  Redis.sets r = Redis.sets r' → Redis.strings r = Redis.strings r' →
  Redis.published r = Redis.published r' → r = r'.
Proof. destruct r, r'. simpl. by intros -> -> -> -> ->. Qed.

Lemma to_dict_absorb agent_id role dt cid1 cid2 c1 c2 (old : gmap string string) :
  (is_Some cid1 → is_Some cid2) →
  AgentInfo.to_dict (AgentInfo.mk agent_id role dt "active" cid2 c2 None)
  ∪ (AgentInfo.to_dict (AgentInfo.mk agent_id role dt "active" cid1 c1 None) ∪ old)
  = AgentInfo.to_dict (AgentInfo.mk agent_id role dt "active" cid2 c2 None) ∪ old.
Proof.
  intros Hcid. apply map_eq. intros k. rewrite !lookup_union.
  destruct cid1 as [x1|], cid2 as [x2|], dt as [t|].
  all: try (exfalso; destruct Hcid as [? Hc]; [by eexists|discriminate Hc]).
  all: unfold AgentInfo.to_dict; cbn [omap list_omap id fmap option_fmap option_map
      AgentInfo.agent_id AgentInfo.role AgentInfo.domain_type AgentInfo.status
      AgentInfo.container_id AgentInfo.created_at AgentInfo.last_heartbeat
      list_to_map foldr uncurry fst snd].
  all: rewrite !lookup_insert, !lookup_empty.
  all: repeat case_decide; try congruence; by destruct (old !! k).
Qed.

Lemma sets_sadd k x r :
  Redis.sets (Redis.sadd k x r) = <[k := {[x]} ∪ Redis.smembers k r]> (Redis.sets r).
Proof. reflexivity. Qed.

(** The memberships after [register], set by set. *)
Lemma register_sets_lookup agent_id role dt cid created beat r k :
  Redis.sets (AgentRegistry.register agent_id role dt cid created beat r).2 !! k
  = if decide (k ∈ membership_keys role dt)
    then Some ({[agent_id]} ∪ Redis.smembers k r)
    else Redis.sets r !! k.
Proof.
  unfold AgentRegistry.register, membership_keys. cbn [snd].
  change (Redis.sets (Redis.setex ?a ?b ?c ?s)) with (Redis.sets s).
  repeat case_decide; try destruct dt as [t|]; try destruct (truthy t).
  all: change (Redis.sets (Redis.set ?a ?b ?s)) with (Redis.sets s).
  all: rewrite ?sets_sadd, ?smembers_sadd_ne by done.
  all: change (Redis.smembers ?a (Redis.hset ?b ?c ?s)) with (Redis.smembers a s).
  all: change (Redis.sets (Redis.hset ?b ?c ?s)) with (Redis.sets s).
  all: rewrite ?lookup_insert.
  all: repeat case_decide; subst; try done.
  all: try (exfalso; match goal with H : _ ∉ _ |- _ => apply H end;
            repeat first [by left | right]).
  all: exfalso; repeat match goal with
         | H : _ ∈ _ :: _ |- _ => apply elem_of_cons in H; destruct H as [H|H]; [congruence|]
         | H : _ ∈ [] |- _ => by apply elem_of_nil in H
         end.
Qed.

Lemma smembers_register agent_id role dt cid created beat r k :
  Redis.smembers k (AgentRegistry.register agent_id role dt cid created beat r).2
  = if decide (k ∈ membership_keys role dt)
    then {[agent_id]} ∪ Redis.smembers k r
    else Redis.smembers k r.
Proof.
  unfold Redis.smembers at 1. rewrite register_sets_lookup. by case_decide.
Qed.

Lemma register_lists agent_id role dt cid created beat r :
  Redis.lists (AgentRegistry.register agent_id role dt cid created beat r).2 = Redis.lists r.
Proof.
  unfold AgentRegistry.register. cbn [snd].
  repeat case_decide; try destruct dt as [t|]; try destruct (truthy t); reflexivity.
Qed.

Lemma register_published agent_id role dt cid created beat r :
  Redis.published (AgentRegistry.register agent_id role dt cid created beat r).2
  = Redis.published r.
Proof.
  unfold AgentRegistry.register. cbn [snd].
  repeat case_decide; try destruct dt as [t|]; try destruct (truthy t); reflexivity.
Qed.

(** C6, as stated, fails: registered first as a backend domain agent in
    container c1 and then again as a plain worker, the agent keeps the
    domain type and the container of the first call in its record and stays
    in the set of domain agents; a single registration as worker gives
    neither. *)
Lemma reregister_counterexample :
  let r1 := (AgentRegistry.register "agent-1" "domain" (Some "backend") (Some "c1")
               "t0" "t0" Redis.empty).2 in
  let twice := (AgentRegistry.register "agent-1" "worker" None None "t1" "t1" r1).2 in
  let once := (AgentRegistry.register "agent-1" "worker" None None "t1" "t1" Redis.empty).2 in
  AgentRegistry.get_agent "agent-1" "t2" twice
    = Return (Some (AgentInfo.mk "agent-1" "worker" (Some "backend") "active" (Some "c1")
                      "t1" None))
  ∧ AgentRegistry.get_agent "agent-1" "t2" once
    = Return (Some (AgentInfo.mk "agent-1" "worker" None "active" None "t1" None))
  ∧ elements (Redis.smembers "agents:domains" twice) = ["agent-1"]
  ∧ elements (Redis.smembers "agents:domains" once) = [].
Proof. vm_compute. done. Qed.

(** C6, amended.  Registering an agent again overwrites every field the
    second call supplies, adds the agent to the sets of the second role and
    rewrites the lease, with the second call's heartbeat and the full time
    to live, so that the agent is healthy; it takes nothing away: fields
    the second call leaves out and memberships of the first role stay, and
    a pointer to the main orchestrator is only ever set.  So when the
    second call has the
    role and domain type of the first and gives a container wherever the
    first gave one, the store equals the one a single registration with the
    second call's arguments produces. *)
Theorem reregister_upsert (agent_id : string) (r : Redis.t) :
  (∀ role1 dt1 cid1 c1 b1 role2 dt2 cid2 c2 b2,
     let r1 := (AgentRegistry.register agent_id role1 dt1 cid1 c1 b1 r).2 in
     let r2 := (AgentRegistry.register agent_id role2 dt2 cid2 c2 b2 r1).2 in
     Redis.hgetall (AgentRegistry.info_key agent_id) r2
     = AgentInfo.to_dict (AgentInfo.mk agent_id role2 dt2 "active" cid2 c2 None)
       ∪ Redis.hgetall (AgentRegistry.info_key agent_id) r1
     ∧ (∀ k, Redis.smembers k r1 ⊆ Redis.smembers k r2)
     ∧ (∀ k, k ∈ membership_keys role2 dt2 → agent_id ∈ Redis.smembers k r2)
     ∧ Redis.strings r1 !! AgentRegistry.heartbeat_key agent_id
       = Some (b1, Some AgentRegistry.HEARTBEAT_TTL)
     ∧ Redis.strings r2 !! AgentRegistry.heartbeat_key agent_id
       = Some (b2, Some AgentRegistry.HEARTBEAT_TTL)
     ∧ AgentRegistry.is_healthy agent_id r2 = true
     ∧ (∀ k, k ≠ AgentRegistry.heartbeat_key agent_id → k ≠ "agents:main" →
          Redis.strings r2 !! k = Redis.strings r !! k)
     ∧ Redis.get "agents:main" r2
       = (if decide (role2 = "main") then Some agent_id
          else if decide (role1 = "main") then Some agent_id
          else Redis.get "agents:main" r))
  ∧ (∀ role dt cid1 c1 b1 cid2 c2 b2,
       (is_Some cid1 → is_Some cid2) →
       AgentRegistry.register agent_id role dt cid2 c2 b2
         (AgentRegistry.register agent_id role dt cid1 c1 b1 r).2
       = AgentRegistry.register agent_id role dt cid2 c2 b2 r).
Proof.
  split.
  - intros role1 dt1 cid1 c1 b1 role2 dt2 cid2 c2 b2 r1 r2. split_and!.
    + apply hgetall_register.
    + intros k. subst r2. rewrite smembers_register.
      case_decide; [apply union_subseteq_r|done].
    + intros k Hk. subst r2. rewrite smembers_register, decide_True by done.
      by apply elem_of_union_l, elem_of_singleton.
    + subst r1. rewrite register_strings. by rewrite lookup_insert_eq.
    + subst r2. rewrite register_strings. by rewrite lookup_insert_eq.
    + apply is_healthy_register.
    + intros k Hk Hmain. subst r2 r1. rewrite !register_strings.
      rewrite lookup_insert_ne by done.
      case_decide; [rewrite lookup_insert_ne by done|];
        (rewrite lookup_insert_ne by done);
        (case_decide; [by rewrite lookup_insert_ne|done]).
    + unfold Redis.get. subst r2 r1. rewrite !register_strings.
      rewrite lookup_insert_ne by done.
      case_decide; [by rewrite lookup_insert_eq|].
      rewrite lookup_insert_ne by done.
      case_decide; [by rewrite lookup_insert_eq|done].
  - intros role dt cid1 c1 b1 cid2 c2 b2 Hcid.
    apply (injective_projections _ _); [done|].
    apply redis_eq.
    + by rewrite !register_lists.
    + rewrite !register_hashes, insert_insert_eq, hgetall_register.
      by rewrite to_dict_absorb.
    + apply map_eq. intros k. rewrite !register_sets_lookup. case_decide; [|done].
      f_equal. rewrite smembers_register, decide_True by done.
      by rewrite (assoc_L (∪)), (idemp_L (∪)).
    + rewrite !register_strings.
      apply map_eq. intros k. case_decide; rewrite !lookup_insert; by repeat case_decide.
    + by rewrite !register_published.
Qed.

(** Witness of C6: the same worker registered twice, the second time from a
    new container. *)
Lemma reregister_upsert_witness :
  (is_Some (Some "c1") → is_Some (Some "c2"))
  ∧ AgentRegistry.register "worker-1" "worker" None (Some "c2") "t1" "t1"
      (AgentRegistry.register "worker-1" "worker" None (Some "c1") "t0" "t0" Redis.empty).2
    = AgentRegistry.register "worker-1" "worker" None (Some "c2") "t1" "t1" Redis.empty.
Proof.
  assert (is_Some (Some "c1") → is_Some (Some "c2")) as H by (intros _; by eexists).
  split; [exact H|].
  exact (proj2 (reregister_upsert "worker-1" Redis.empty) "worker" None
           (Some "c1") "t0" "t0" (Some "c2") "t1" "t1" H).
Defined.

(** ** The spawner *)

Lemma wait_loop_step rt cid timeout deadline t k :
  DomainSpawner.wait_loop rt cid timeout deadline t k
  = if decide (t < deadline)%Z then
      match Docker.inspect rt k cid with
      | inl (Docker.NotFound _) =>
          inr (Raise (DockerException ("Container " +:+ cid +:+ " not found")))
      | inl (Docker.APIError e) => inl (Docker.APIError e)
      | inr c =>
          if decide (Docker.status c = "running") then inr (Return ())
          else if DomainSpawner.is_terminal (Docker.status c) then
            match Docker.logs rt k c 50 with
            | Docker.Text logs =>
                inr (Raise (DockerException
                  ("Container exited unexpectedly. Logs:" +:+ newline +:+ logs)))
            | Docker.Refused (Docker.NotFound _) =>
                inr (Raise (DockerException ("Container " +:+ cid +:+ " not found")))
            | Docker.Refused (Docker.APIError e) => inl (Docker.APIError e)
            | Docker.Undecodable reason => inr (Raise (UnicodeDecodeError reason))
            end
          else DomainSpawner.wait_loop rt cid timeout deadline
                 (t + Z.of_nat (Docker.poll_cost rt) + 500)%Z (S k)
      end
    else inr (Raise (DockerException
           ("Container did not start within " +:+ pretty timeout +:+ "s"))).
Proof.
  simp wait_loop. destruct (decide (t < deadline)%Z); simpl; [|done].
  destruct (Docker.inspect rt k cid) as [[e|e]|c]; simpl; [done..|].
  destruct (decide (Docker.status c = "running")); simpl; [done|].
  destruct (DomainSpawner.is_terminal (Docker.status c)); simpl.
  - by destruct (Docker.logs rt k c 50) as [logs|[e|e]|reason].
  - by simp wait_loop.
Qed.

Lemma wait_loop_skip rt cid timeout deadline clock n :
  ∀ j,
    (∀ i, j ≤ i < j + n → still_starting rt cid i) →
    (clock + Z.of_nat (j + n) * poll_period rt < deadline)%Z →
    DomainSpawner.wait_loop rt cid timeout deadline
      (clock + Z.of_nat j * poll_period rt) j
    = DomainSpawner.wait_loop rt cid timeout deadline
        (clock + Z.of_nat (j + n) * poll_period rt) (j + n).
Proof.
  unfold poll_period. induction n as [|n IH]; intros j Hwait Hlt.
  - by rewrite Nat.add_0_r.
  - rewrite wait_loop_step. rewrite decide_True by lia.
    destruct (Hwait j) as (c & Hc & Hrun & Hterm); [lia|].
    red in Hc. rewrite Hc, decide_False, Hterm by done.
    replace (j + S n) with (S j + n) in * by lia.
    rewrite <- IH; [|intros i Hi; apply Hwait; lia|done].
    f_equal. lia.
Qed.








Lemma wait_loop_from_start rt cid timeout deadline clock k :
  (∀ i, (i < k)%nat → still_starting rt cid i) →
  (clock + Z.of_nat k * poll_period rt < deadline)%Z →
  DomainSpawner.wait_loop rt cid timeout deadline clock 0
  = DomainSpawner.wait_loop rt cid timeout deadline
      (clock + Z.of_nat k * poll_period rt) k.
Proof.
  intros Hwait Hlt.
  pose proof (wait_loop_skip rt cid timeout deadline clock k 0) as H.
  cbn [Nat.add Z.of_nat Z.mul] in H. rewrite Z.add_0_r in H.
  apply H; [intros i Hi; apply Hwait; lia|done].
Qed.








(** * Further properties of the code *)

(** ** Interleaved runs of the queue *)

Section interleaving.
Context {C : Codec}.

Lemma handed_out_cons d o ops r :
  handed_out d (o :: ops) r
  = match (step o r).1 with
    | Some (d', task) =>
        if decide (d' = d) then task :: handed_out d ops (step o r).2
        else handed_out d ops (step o r).2
    | None => handed_out d ops (step o r).2
    end.
Proof. cbn [handed_out]. by destruct (step o r) as [[[??]|] ?]. Qed.

Lemma run_ops_cons o ops r : run_ops (o :: ops) r = run_ops ops (step o r).2.
Proof. done. Qed.

Lemma step_next d timeout now r :
  step (Next d timeout now) r
  = (match (AgentMessaging.get_next_task d timeout now r).1 with
     | Return (Some task) => Some (d, task)
     | _ => None
     end, (AgentMessaging.get_next_task d timeout now r).2).
Proof. cbn [step]. by destruct (AgentMessaging.get_next_task d timeout now r). Qed.

Lemma logs_key_ne_pending task_id d :
  AgentMessaging.logs_key task_id ≠ AgentMessaging.pending_key d.
Proof. discriminate. Qed.

Lemma logs_key_ne_active task_id d :
  AgentMessaging.logs_key task_id ≠ AgentMessaging.active_key d.
Proof. discriminate. Qed.

Lemma lrange_rpush_eq k v r : Redis.lrange k (Redis.rpush k v r) = Redis.lrange k r ++ [v].
Proof. apply lrange_with_lists_eq. Qed.

Lemma lrange_rpush_ne k k' v r :
  k ≠ k' → Redis.lrange k' (Redis.rpush k v r) = Redis.lrange k' r.
Proof. apply lrange_with_lists_ne. Qed.

Lemma pending_add_log d task_id entry now r :
  pending d (AgentMessaging.add_log task_id entry now r) = pending d r.
Proof. apply lrange_rpush_ne, logs_key_ne_pending. Qed.

Lemma active_add_log d task_id entry now r :
  active d (AgentMessaging.add_log task_id entry now r) = active d r.
Proof. apply lrange_rpush_ne, logs_key_ne_active. Qed.

Lemma pending_get_next_task_ne d d' timeout now r :
  d' ≠ d →
  pending d (AgentMessaging.get_next_task d' timeout now r).2 = pending d r.
Proof.
  intros Hd. destruct (get_next_task_lists d' timeout now r)
    as [[_ ->]|(q & raw & _ & _ & _ & Hother)]; [done|].
  by destruct (Hother d) as [-> _].
Qed.

(** X1. In any interleaving of calls on the queue, by any agents and on any
    domains, the tasks handed out for one domain followed by the tasks still
    pending for it are exactly the tasks queued for it, in the order they
    were queued: none is lost, repeated or overtaken. *)
Theorem interleaved_fifo `{!CodecLaws C} (d : string) (ops : list op) :
  ∀ (r : Redis.t) (olds : list TaskMessage.t),
    pending d r = rev (to_json <$> olds) →
    ∃ queue,
      handed_out d ops r ++ queue = olds ++ published_to d ops
      ∧ pending d (run_ops ops r) = rev (to_json <$> queue).
Proof.
  induction ops as [|o ops IH]; intros r olds Hq.
  { exists olds. by rewrite app_nil_r. }
  rewrite handed_out_cons, run_ops_cons.
  destruct o as [d' a|d' timeout now|d' task|tid out st err now|tid entry now];
    cbn [published_to]; rewrite ?step_next; cbn [step fst snd].
  - case_decide as Hd.
    + subst d'. destruct (IH (AgentMessaging.publish_task d a r).2
                            (olds ++ [AgentMessaging.new_task d a])) as (queue & Ho & Hp).
      { by rewrite pending_publish_task, Hq, fmap_app, rev_app_distr. }
      exists queue. split; [|done]. by rewrite Ho, <- app_assoc.
    + apply IH. by rewrite pending_publish_task_ne.
  - destruct (decide (d' = d)) as [->|Hd].
    + destruct olds as [|t olds].
      * rewrite (get_next_task_empty _ _ _ _ Hq). by apply IH.
      * simpl in Hq. destruct (get_next_task_snoc d timeout now _ _ _ Hq)
          as (r' & -> & Hp & _).
        cbn [fst snd]. rewrite decide_True by done.
        destruct (IH r' olds Hp) as (queue & Ho & Hp').
        exists queue. split; [|done]. simpl. by rewrite Ho.
    + pose proof (pending_get_next_task_ne d d' timeout now r Hd) as Hp.
      destruct (AgentMessaging.get_next_task d' timeout now r).1 as [[task|]|e];
        rewrite ?decide_False by done; apply IH; by rewrite Hp.
  - apply IH. destruct (complete_task_lists d' task r) as (Hp & _). by rewrite Hp.
  - by apply IH.
  - apply IH. by rewrite pending_add_log.
Qed.

End interleaving.

Section interleaving_instance.
Local Existing Instance Wire.codec.

(** Witness of X1: two producers, two domains, calls in between. *)
Lemma interleaved_fifo_witness :
  let t1 := AgentMessaging.new_task "backend" task_a in
  let t2 := AgentMessaging.new_task "backend" task_b in
  let ops := [ Next "backend" 0 "t0"; Publish "backend" task_a;
               Publish "frontend" task_b; Next "backend" 5 "t3";
               Log "id-1" "started" "t4"; Publish "backend" task_b;
               Next "frontend" 0 "t5" ] in
  CodecLaws Wire.codec
  ∧ pending "backend" Redis.empty = rev (to_json <$> [])
  ∧ ∃ queue, handed_out "backend" ops Redis.empty ++ queue = [t1; t2]
       ∧ pending "backend" (run_ops ops Redis.empty) = rev (to_json <$> queue).
Proof.
  intros t1 t2 ops. split_and!; [apply wire_laws|reflexivity|].
  exact (interleaved_fifo "backend" ops Redis.empty [] eq_refl).
Defined.

End interleaving_instance.

(** ** Result records *)

(** X2. A result record survives the trip through its dictionary form:
    [from_dict] of [to_dict] gives the record back, whichever optional
    fields are set. *)
Theorem task_result_dict_roundtrip (res : TaskResult.t) :
  TaskResult.from_dict (TaskResult.to_dict res) = Return res.
Proof.
  destruct res as [tid st [out|] [err|] [sa|] [ca|]]; vm_compute; reflexivity.
Qed.

Section publish_facts.
Context {C : Codec}.

Lemma hgetall_lpush key k v r : Redis.hgetall key (Redis.lpush k v r) = Redis.hgetall key r.
Proof. done. Qed.

Lemma hgetall_publish_task d a r key :
  key ≠ AgentMessaging.result_key (AgentMessaging.fresh_id a) →
  Redis.hgetall key (AgentMessaging.publish_task d a r).2 = Redis.hgetall key r.
Proof.
  intros Hne. unfold AgentMessaging.publish_task. cbn [snd].
  rewrite hgetall_publish. unfold AgentMessaging._init_result.
  rewrite hgetall_hset_ne by done. done.
Qed.

Lemma init_result_fields task_id :
  AgentMessaging.string_fields
    (TaskResult.to_dict (TaskResult.mk task_id "pending" None None None None))
  = {[ "task_id" := task_id; "status" := "pending" ]}.
Proof.
  apply map_eq. intros k. unfold AgentMessaging.string_fields. rewrite lookup_omap.
  unfold TaskResult.to_dict. cbn [omap list_omap id fmap option_fmap option_map
    TaskResult.task_id TaskResult.status TaskResult.output TaskResult.error
    TaskResult.started_at TaskResult.completed_at list_to_map foldr uncurry fst snd].
  rewrite !lookup_insert, !lookup_singleton, !lookup_empty.
  repeat case_decide; subst; try done; congruence.
Qed.

Lemma hgetall_publish_task_record d a r :
  Redis.hgetall (AgentMessaging.result_key (AgentMessaging.fresh_id a))
    (AgentMessaging.publish_task d a r).2
  = {[ "task_id" := AgentMessaging.fresh_id a; "status" := "pending" ]}
    ∪ Redis.hgetall (AgentMessaging.result_key (AgentMessaging.fresh_id a)) r.
Proof.
  unfold AgentMessaging.publish_task. cbn [snd].
  rewrite hgetall_publish. unfold AgentMessaging._init_result.
  cbn [AgentMessaging.new_task TaskMessage.task_id].
  by rewrite hgetall_hset_eq, init_result_fields.
Qed.

(** Reading a record made of a [task_id], a [status] and possibly a
    [started_at], and nothing else. *)
Lemma get_result_plain task_id timeout r tid st (sa : option string) :
  Redis.hgetall (AgentMessaging.result_key task_id) r
  = {[ "task_id" := tid; "status" := st ]}
    ∪ (match sa with Some s => {[ "started_at" := s ]} | None => ∅ end) →
  AgentMessaging.get_result task_id timeout r
  = Return (Some (TaskResult.mk tid st None None sa None)).
Proof.
  intros Hrec. unfold AgentMessaging.get_result. rewrite Hrec.
  destruct sa as [s|]; vm_compute; reflexivity.
Qed.

(** X3. [publish_task] returns the identifier the message drew, makes the
    domain's queue one longer and leaves every other queue as long as it
    was, and announces the message on the domain's channel.  When no record
    existed under that identifier, the task's result reads back as pending
    with nothing else set. *)
Theorem publish_task_effects (d : string) (a : AgentMessaging.publish_args) (r : Redis.t) :
  let r' := (AgentMessaging.publish_task d a r).2 in
  (AgentMessaging.publish_task d a r).1 = AgentMessaging.fresh_id a
  ∧ AgentMessaging.get_queue_length d r' = S (AgentMessaging.get_queue_length d r)
  ∧ (∀ d', d' ≠ d →
       AgentMessaging.get_queue_length d' r' = AgentMessaging.get_queue_length d' r)
  ∧ head (Redis.published r')
    = Some (AgentMessaging.notifications d, to_json (AgentMessaging.new_task d a))
  ∧ (Redis.hgetall (AgentMessaging.result_key (AgentMessaging.fresh_id a)) r = ∅ →
     ∀ timeout,
       AgentMessaging.get_result (AgentMessaging.fresh_id a) timeout r'
       = Return (Some (TaskResult.mk (AgentMessaging.fresh_id a) "pending"
                         None None None None))).
Proof.
  intros r'. split_and!; [done| | |done|].
  - unfold AgentMessaging.get_queue_length, Redis.llen.
    change (Redis.lrange (AgentMessaging.pending_key d) ?s) with (pending d s).
    subst r'. by rewrite pending_publish_task.
  - intros d' Hne. unfold AgentMessaging.get_queue_length, Redis.llen.
    change (Redis.lrange (AgentMessaging.pending_key d') ?s) with (pending d' s).
    subst r'. by rewrite pending_publish_task_ne.
  - intros Hnew timeout. apply (get_result_plain _ _ _ _ _ None).
    subst r'. rewrite hgetall_publish_task_record, Hnew.
    by rewrite !(right_id_L ∅ (∪)).
Qed.

End publish_facts.

(** Witness of X3, on the empty store. *)
Lemma publish_task_effects_witness :
  Redis.hgetall (AgentMessaging.result_key "id-1") Redis.empty = ∅
  ∧ AgentMessaging.get_queue_length "backend" store_a = 1
  ∧ AgentMessaging.get_result (C := Wire.codec) "id-1" 0 store_a
    = Return (Some (TaskResult.mk "id-1" "pending" None None None None)).
Proof.
  destruct (publish_task_effects (C := Wire.codec) "backend" task_a Redis.empty)
    as (_ & Hlen & _ & _ & Hres).
  split_and!; [reflexivity|exact Hlen|exact (Hres eq_refl 0%Z)].
Defined.

(** Equality of two small maps with explicit keys, key by key. *)
Ltac map_by_keys :=
  apply map_eq; intros ?k;
  rewrite ?lookup_union, ?lookup_insert, ?lookup_singleton, ?lookup_empty;
  repeat case_decide; subst; simpl; try done; try congruence.

Section dequeue_facts.
Context {C : Codec}.

Lemma hashes_rpoplpush src dst r :
  Redis.hashes (Redis.rpoplpush src dst r).2 = Redis.hashes r.
Proof.
  unfold Redis.rpoplpush. by destruct (Redis.unsnoc (Redis.lrange src r)) as [[??]|].
Qed.

(** The record of the task that a successful [get_next_task] hands out. *)
Lemma hgetall_get_next_task `{!CodecLaws C} d timeout now q t r key :
  pending d r = q ++ [to_json t] →
  Redis.hgetall key (AgentMessaging.get_next_task d timeout now r).2
  = if decide (key = AgentMessaging.result_key (TaskMessage.task_id t))
    then {[ "status" := "in_progress"; "started_at" := now ]} ∪ Redis.hgetall key r
    else Redis.hgetall key r.
Proof.
  intros Hq.
  destruct (rpoplpush_snoc _ _ _ _ _ (pending_active_ne d d) Hq)
    as (r1 & Hpop & _ & _ & _ & Hh & _).
  unfold AgentMessaging.get_next_task, Redis.brpoplpush. rewrite Hpop.
  assert ((if (0 <? timeout)%Z then (Some (to_json t), r1) else (Some (to_json t), r1))
          = (Some (to_json t), r1)) as -> by by destruct (0 <? timeout)%Z.
  rewrite (truthy_ne _ (to_json_truthy t)), from_to_json. cbn [snd].
  unfold AgentMessaging._update_result.
  rewrite decide_True by by rewrite lookup_singleton_eq.
  assert (∀ k, Redis.hgetall k r1 = Redis.hgetall k r) as Hk
    by (intros k; unfold Redis.hgetall; by rewrite Hh).
  case_decide as Hkey.
  - subst key. rewrite hgetall_hset_eq, Hk. by f_equal.
  - rewrite hgetall_hset_ne by done. apply Hk.
Qed.

(** X4. When the entry at the tail of a domain's pending list is a
    published task whose record is still the pending one, [get_next_task]
    returns that task, leaves the queue one shorter, puts the entry at the
    head of the active list, and turns the record into "in_progress" with
    [started_at] stamped; no other record changes. *)
Theorem get_next_task_effects `{!CodecLaws C} (d : string) (timeout : Z) (now : string)
    (q : list string) (t : TaskMessage.t) (r : Redis.t) :
  pending d r = q ++ [to_json t] →
  Redis.hgetall (AgentMessaging.result_key (TaskMessage.task_id t)) r
    = {[ "task_id" := TaskMessage.task_id t; "status" := "pending" ]} →
  let r' := (AgentMessaging.get_next_task d timeout now r).2 in
  (AgentMessaging.get_next_task d timeout now r).1 = Return (Some t)
  ∧ S (AgentMessaging.get_queue_length d r') = AgentMessaging.get_queue_length d r
  ∧ active d r' = to_json t :: active d r
  ∧ (∀ timeout',
       AgentMessaging.get_result (TaskMessage.task_id t) timeout' r'
       = Return (Some (TaskResult.mk (TaskMessage.task_id t) "in_progress"
                         None None (Some now) None)))
  ∧ (∀ key, key ≠ AgentMessaging.result_key (TaskMessage.task_id t) →
       Redis.hgetall key r' = Redis.hgetall key r).
Proof.
  intros Hq Hrec r'.
  destruct (get_next_task_snoc d timeout now q t r Hq) as (r1 & Hget & Hp & Ha & _).
  subst r'. split_and!.
  - by rewrite Hget.
  - unfold AgentMessaging.get_queue_length, Redis.llen.
    change (Redis.lrange (AgentMessaging.pending_key d) ?s) with (pending d s).
    rewrite Hget. cbn [snd]. rewrite Hp, Hq, length_app. simpl. lia.
  - by rewrite Hget.
  - intros timeout'. apply (get_result_plain _ _ _ _ _ (Some now)).
    rewrite (hgetall_get_next_task d timeout now q t r _ Hq), decide_True by done.
    rewrite Hrec. map_by_keys.
  - intros key Hkey.
    by rewrite (hgetall_get_next_task d timeout now q t r _ Hq), decide_False.
Qed.

Lemma remove_first_absent v l : v ∉ l → Redis.remove_first v l = l.
Proof.
  induction l as [|x l IH]; [done|]. intros Hv. simpl.
  rewrite decide_False by (intros ->; apply Hv; by left).
  f_equal. apply IH. intros ?. apply Hv. by right.
Qed.

Lemma remove_first_split v l :
  v ∈ l →
  ∃ before after, l = before ++ v :: after ∧ (v ∉ before)
                  ∧ Redis.remove_first v l = before ++ after.
Proof.
  induction l as [|x l IH]; intros Hin; [by apply elem_of_nil in Hin|].
  cbn [Redis.remove_first]. case_decide as Hx.
  - subst x. exists [], l. split_and!; [done| |done]. by intros ?%elem_of_nil.
  - apply elem_of_cons in Hin as [->|Hin]; [done|].
    destruct (IH Hin) as (before & after & -> & Hnot & ->).
    exists (x :: before), after. split_and!; [done| |done].
    intros [->|?]%elem_of_cons; [done|by apply Hnot].
Qed.

(** X5. [complete_task] takes one occurrence of the task's entry off the
    domain's active list, the first from the head, and is a no-op on the
    list when the entry is not there; it never touches a pending list.
    Called for a task right after [get_next_task] handed it out, it leaves
    the active list as it was before the hand-out. *)
Theorem complete_task_effects `{!CodecLaws C} (d : string) (task : TaskMessage.t)
    (r : Redis.t) :
  (to_json task ∉ active d r →
   active d (AgentMessaging.complete_task d task r) = active d r)
  ∧ (to_json task ∈ active d r →
     ∃ before after,
       active d r = before ++ to_json task :: after
       ∧ (to_json task ∉ before)
       ∧ active d (AgentMessaging.complete_task d task r) = before ++ after)
  ∧ (∀ d', pending d' (AgentMessaging.complete_task d task r) = pending d' r)
  ∧ (∀ timeout now q,
       pending d r = q ++ [to_json task] →
       active d (AgentMessaging.complete_task d task
                   (AgentMessaging.get_next_task d timeout now r).2)
       = active d r).
Proof.
  destruct (complete_task_lists d task r) as (Hp & Ha & _).
  split_and!.
  - intros Hnot. rewrite Ha. by apply remove_first_absent.
  - intros Hin. rewrite Ha. by apply remove_first_split.
  - done.
  - intros timeout now q Hq.
    destruct (get_next_task_snoc d timeout now q task r Hq) as (r1 & -> & _ & Ha1 & _).
    cbn [snd]. destruct (complete_task_lists d task r1) as (_ & -> & _).
    rewrite Ha1. simpl. by rewrite decide_True.
Qed.

End dequeue_facts.

Section dequeue_instances.
Local Existing Instance Wire.codec.

(** Witness of X4: the task of [store_a] is dequeued. *)
Lemma get_next_task_effects_witness :
  let t := AgentMessaging.new_task "backend" task_a in
  let r' := (AgentMessaging.get_next_task "backend" 5 "t2" store_a).2 in
  pending "backend" store_a = [] ++ [to_json t]
  ∧ AgentMessaging.get_queue_length "backend" r' = 0
  ∧ AgentMessaging.get_result "id-1" 0 r'
    = Return (Some (TaskResult.mk "id-1" "in_progress" None None (Some "t2") None)).
Proof.
  intros t r'.
  assert (pending "backend" store_a = [] ++ [to_json t]) as Hq by reflexivity.
  assert (Redis.hgetall (AgentMessaging.result_key (TaskMessage.task_id t)) store_a
          = {[ "task_id" := TaskMessage.task_id t; "status" := "pending" ]}) as Hrec
    by (vm_compute; reflexivity).
  destruct (get_next_task_effects "backend" 5 "t2" [] t store_a Hq Hrec)
    as (_ & Hlen & _ & Hres & _).
  split_and!; [exact Hq| |exact (Hres 0%Z)].
  fold r' in Hlen. change (AgentMessaging.get_queue_length "backend" store_a) with 1 in Hlen.
  lia.
Defined.

(** Witness of X5: hand-out and completion of the task of [store_a]. *)
Lemma complete_task_effects_witness :
  let t := AgentMessaging.new_task "backend" task_a in
  pending "backend" store_a = [] ++ [to_json t]
  ∧ active "backend"
      (AgentMessaging.complete_task "backend" t
         (AgentMessaging.get_next_task "backend" 5 "t2" store_a).2)
    = active "backend" store_a.
Proof.
  intros t.
  assert (pending "backend" store_a = [] ++ [to_json t]) as Hq by reflexivity.
  destruct (complete_task_effects "backend" t store_a) as (_ & _ & _ & Hdone).
  split; [exact Hq|exact (Hdone 5%Z "t2" [] Hq)].
Defined.

End dequeue_instances.

(** ** Task logs *)

Lemma string_app_length (s t : string) :
  String.length (s +:+ t) = (String.length s + String.length t)%nat.
Proof. induction s as [|c s IH]; simpl; [done|]. by rewrite IH. Qed.

Lemma string_app_inv_tail (s1 s2 t : string) : s1 +:+ t = s2 +:+ t → s1 = s2.
Proof.
  revert s2. induction s1 as [|c s1 IH]; intros [|c2 s2] H.
  - done.
  - apply (f_equal String.length) in H. rewrite !string_app_length in H. simpl in H. lia.
  - apply (f_equal String.length) in H. rewrite !string_app_length in H. simpl in H. lia.
  - change (String c (s1 +:+ t) = String c2 (s2 +:+ t)) in H.
    injection H as -> H. f_equal. by apply IH.
Qed.

Global Instance logs_key_inj : Inj (=) (=) AgentMessaging.logs_key.
Proof.
  intros a b H. unfold AgentMessaging.logs_key in H.
  apply (inj (String.app "results:")) in H. by apply string_app_inv_tail in H.
Qed.

(** X6. [add_log] appends the stamped entry at the end of the task's log,
    so [get_logs] returns the entries in the order they were added; the
    logs of other tasks, the queues and the result records are left as
    they were. *)
Theorem add_log_appends (task_id entry now : string) (r : Redis.t) :
  let r' := AgentMessaging.add_log task_id entry now r in
  AgentMessaging.get_logs task_id r'
    = AgentMessaging.get_logs task_id r ++ ["[" +:+ now +:+ "] " +:+ entry]
  ∧ (∀ other, other ≠ task_id →
       AgentMessaging.get_logs other r' = AgentMessaging.get_logs other r)
  ∧ (∀ d, pending d r' = pending d r ∧ active d r' = active d r)
  ∧ Redis.hashes r' = Redis.hashes r.
Proof.
  intros r'. split_and!.
  - apply lrange_rpush_eq.
  - intros other Hne. apply lrange_rpush_ne. by intros ?%(inj _).
  - intros d. split; [apply pending_add_log|apply active_add_log].
  - done.
Qed.

(** Witness of X6: a second entry in the log of one task, seen from another. *)
Lemma add_log_appends_witness :
  let r1 := AgentMessaging.add_log "id-1" "Task received by backend-1" "t1" store_a in
  let r2 := AgentMessaging.add_log "id-1" "Starting Claude Code execution" "t2" r1 in
  "id-2" ≠ "id-1"
  ∧ AgentMessaging.get_logs "id-1" r2
    = ["[t1] Task received by backend-1"; "[t2] Starting Claude Code execution"]
  ∧ AgentMessaging.get_logs "id-2" r2 = AgentMessaging.get_logs "id-2" r1.
Proof.
  intros r1 r2.
  assert ("id-2" ≠ "id-1") as Hne by discriminate.
  destruct (add_log_appends "id-1" "Starting Claude Code execution" "t2" r1)
    as (Happ & Hother & _).
  split_and!; [exact Hne|exact Happ|exact (Hother "id-2" Hne)].
Defined.

(** ** Waiting for a result *)

Section waiting_facts.
Context {C : Codec}.

Lemma poll_result_step env task_id interval deadline t k :
  AgentMessaging.poll_result env task_id interval deadline t k
  = if decide (t < deadline)%Z then
      match AgentMessaging.get_result task_id 0 (AgentMessaging.store_at env k) with
      | Raise e => Raise e
      | Return (Some result) =>
          if AgentMessaging.is_terminal_status (TaskResult.status result)
          then Return (Some result)
          else AgentMessaging.poll_result env task_id interval deadline
                 (t + Z.pos (AgentMessaging.read_cost env) + Z.of_nat interval)%Z (S k)
      | Return None =>
          AgentMessaging.poll_result env task_id interval deadline
            (t + Z.pos (AgentMessaging.read_cost env) + Z.of_nat interval)%Z (S k)
      end
    else Return None.
Proof.
  simp poll_result. destruct (decide (t < deadline)%Z); simpl; [|done].
  destruct (AgentMessaging.get_result task_id 0 (AgentMessaging.store_at env k))
    as [[result|]|e]; simpl; [|by simp poll_result|done].
  destruct (AgentMessaging.is_terminal_status (TaskResult.status result)); simpl; [done|].
  by simp poll_result.
Qed.

Lemma poll_result_skip env task_id interval deadline clock n :
  ∀ j,
    (∀ i, (j ≤ i < j + n)%nat → not_finished env task_id i) →
    (clock + Z.of_nat (j + n) * read_period env interval ≤ deadline)%Z →
    AgentMessaging.poll_result env task_id interval deadline
      (clock + Z.of_nat j * read_period env interval) j
    = AgentMessaging.poll_result env task_id interval deadline
        (clock + Z.of_nat (j + n) * read_period env interval) (j + n).
Proof.
  unfold read_period. induction n as [|n IH]; intros j Hwait Hlt.
  - by rewrite Nat.add_0_r.
  - rewrite poll_result_step. rewrite decide_True by lia.
    replace (j + S n)%nat with (S j + n)%nat in * by lia.
    assert (AgentMessaging.poll_result env task_id interval deadline
              (clock + Z.of_nat j * (Z.pos (AgentMessaging.read_cost env) + Z.of_nat interval)
               + Z.pos (AgentMessaging.read_cost env) + Z.of_nat interval) (S j)
            = AgentMessaging.poll_result env task_id interval deadline
                (clock + Z.of_nat (S j + n)
                         * (Z.pos (AgentMessaging.read_cost env) + Z.of_nat interval))
                (S j + n)) as Hrec.
    { rewrite <- IH; [|intros i Hi; apply Hwait; lia|done]. f_equal. lia. }
    destruct (Hwait j) as [->|(res & -> & ->)]; [lia|done..].
Qed.

Lemma poll_result_expires env task_id interval deadline clock :
  (∀ i, (clock + Z.of_nat i * read_period env interval < deadline)%Z →
        not_finished env task_id i) →
  ∀ n j,
    (Z.to_nat (deadline - (clock + Z.of_nat j * read_period env interval)) ≤ n)%nat →
    AgentMessaging.poll_result env task_id interval deadline
      (clock + Z.of_nat j * read_period env interval) j
    = Return None.
Proof.
  unfold read_period. intros Hwait n. induction n as [|n IH]; intros j Hn.
  - rewrite poll_result_step. by rewrite decide_False by lia.
  - rewrite poll_result_step. case_decide as Hlt; [|done].
    assert (AgentMessaging.poll_result env task_id interval deadline
              (clock + Z.of_nat j * (Z.pos (AgentMessaging.read_cost env) + Z.of_nat interval)
               + Z.pos (AgentMessaging.read_cost env) + Z.of_nat interval) (S j)
            = Return None) as Hrec.
    { rewrite <- (IH (S j)) by lia. f_equal. lia. }
    destruct (Hwait j Hlt) as [->|(res & -> & ->)]; done.
Qed.

(** X7. [wait_for_result] polls until the deadline.  It returns the first
    terminal result a read made before the deadline shows, when the earlier
    reads showed no record or a record that was not terminal; it propagates
    the error of a read that fails in that position; it returns none when
    no read made before the deadline shows a terminal result, and so, with
    a timeout of zero or less, without reading at all. *)
Theorem wait_for_result_polls (env : AgentMessaging.poll_env) (task_id : string)
    (timeout : Z) (interval : nat) (clock : Z) :
  let wait := AgentMessaging.wait_for_result env task_id timeout interval clock in
  (∀ k,
     (∀ i, (i < k)%nat → not_finished env task_id i) →
     (Z.of_nat k * read_period env interval < timeout * 1000)%Z →
     (∀ res,
        AgentMessaging.get_result task_id 0 (AgentMessaging.store_at env k)
          = Return (Some res) →
        AgentMessaging.is_terminal_status (TaskResult.status res) = true →
        wait = Return (Some res))
     ∧ (∀ e,
          AgentMessaging.get_result task_id 0 (AgentMessaging.store_at env k) = Raise e →
          wait = Raise e))
  ∧ ((∀ i, (Z.of_nat i * read_period env interval < timeout * 1000)%Z →
           not_finished env task_id i) →
     wait = Return None)
  ∧ ((timeout ≤ 0)%Z → wait = Return None).
Proof.
  intros wait. subst wait. unfold AgentMessaging.wait_for_result.
  assert (∀ k,
    (∀ i, (i < k)%nat → not_finished env task_id i) →
    (Z.of_nat k * read_period env interval < timeout * 1000)%Z →
    AgentMessaging.poll_result env task_id interval (clock + timeout * 1000) clock 0
    = match AgentMessaging.get_result task_id 0 (AgentMessaging.store_at env k) with
      | Raise e => Raise e
      | Return (Some result) =>
          if AgentMessaging.is_terminal_status (TaskResult.status result)
          then Return (Some result)
          else AgentMessaging.poll_result env task_id interval (clock + timeout * 1000)
                 (clock + Z.of_nat k * read_period env interval
                  + Z.pos (AgentMessaging.read_cost env) + Z.of_nat interval)%Z (S k)
      | Return None =>
          AgentMessaging.poll_result env task_id interval (clock + timeout * 1000)
            (clock + Z.of_nat k * read_period env interval
             + Z.pos (AgentMessaging.read_cost env) + Z.of_nat interval)%Z (S k)
      end) as Hat.
  { intros k Hwait Hlt.
    pose proof (poll_result_skip env task_id interval (clock + timeout * 1000) clock k 0)
      as Hskip.
    cbn [Nat.add Z.of_nat Z.mul] in Hskip. rewrite Z.add_0_r in Hskip.
    rewrite Hskip; [|intros i Hi; apply Hwait; lia|lia].
    rewrite poll_result_step. by rewrite decide_True by lia. }
  assert ((∀ i, (Z.of_nat i * read_period env interval < timeout * 1000)%Z →
                not_finished env task_id i) →
          AgentMessaging.poll_result env task_id interval (clock + timeout * 1000) clock 0
          = Return None) as Hnone.
  { intros Hwait.
    pose proof (poll_result_expires env task_id interval (clock + timeout * 1000) clock
                  (λ i Hi, Hwait i ltac:(lia))
                  (Z.to_nat (clock + timeout * 1000 - clock)) 0) as H.
    cbn [Z.of_nat Z.mul] in H. rewrite Z.add_0_r in H. by apply H. }
  split_and!.
  - intros k Hwait Hlt. split.
    + intros res Hres Hterm. by rewrite (Hat k Hwait Hlt), Hres, Hterm.
    + intros e He. by rewrite (Hat k Hwait Hlt), He.
  - exact Hnone.
  - intros Hle. apply Hnone. intros i Hi. unfold read_period in Hi. lia.
Qed.

End waiting_facts.

Section waiting_instances.
Local Existing Instance Wire.codec.

(** Witness of X7: the result arrives between the second and the third
    read of a caller that polls once a second for five seconds. *)
Lemma wait_for_result_polls_witness :
  (2 * read_period sample_poll_env 1000 < 5 * 1000)%Z
  ∧ AgentMessaging.wait_for_result sample_poll_env "id-1" 5 1000 0
    = Return (Some (TaskResult.mk "id-1" "completed" (Some [("api_url", JStr "/api/users")])
                      None (Some "t2") (Some "t3")))
  ∧ AgentMessaging.wait_for_result sample_poll_env "id-1" 0 1000 0 = Return None.
Proof.
  assert ((2 * read_period sample_poll_env 1000 < 5 * 1000)%Z) as Hlt
    by (vm_compute; reflexivity).
  assert (∀ i, (i < 2)%nat → not_finished sample_poll_env "id-1" i) as Hwait.
  { intros i Hi. right.
    exists (TaskResult.mk "id-1" "in_progress" None None (Some "t2") None).
    destruct i as [|[|i]]; [split; vm_compute; reflexivity..|lia]. }
  destruct (wait_for_result_polls sample_poll_env "id-1" 5 1000 0) as (Hfound & _).
  destruct (Hfound 2%nat Hwait Hlt) as [Hres _].
  destruct (wait_for_result_polls sample_poll_env "id-1" 0 1000 0) as (_ & _ & Hzero).
  split_and!; [exact Hlt| |apply Hzero; lia].
  apply Hres; vm_compute; reflexivity.
Defined.

End waiting_instances.

(** ** Agent records *)

(** X8. An agent record survives the trip through its dictionary form,
    whichever optional fields are set. *)
Theorem agent_info_dict_roundtrip (a : AgentInfo.t) (now : string) :
  AgentInfo.from_dict now (AgentInfo.to_dict a) = Return a.
Proof.
  destruct a as [aid rl [dt|] st [cid|] ca [hb|]]; vm_compute; reflexivity.
Qed.

Lemma get_agent_register_new agent_id role dt cid created beat now r :
  Redis.hgetall (AgentRegistry.info_key agent_id) r = ∅ →
  AgentRegistry.get_agent agent_id now
    (AgentRegistry.register agent_id role dt cid created beat r).2
  = Return (Some (AgentRegistry.register agent_id role dt cid created beat r).1).
Proof.
  intros Hnew. rewrite get_agent_register, Hnew, !lookup_empty. by destruct dt, cid.
Qed.

(** X9. For an agent without a record, [get_agent] right after [register]
    returns exactly the record [register] returned, and [register] leaves
    every other agent's record as it was. *)
Theorem register_then_get_agent (agent_id role : string) (dt cid : option string)
    (created beat now : string) (r : Redis.t) :
  Redis.hgetall (AgentRegistry.info_key agent_id) r = ∅ →
  AgentRegistry.get_agent agent_id now
    (AgentRegistry.register agent_id role dt cid created beat r).2
  = Return (Some (AgentRegistry.register agent_id role dt cid created beat r).1)
  ∧ ∀ other, other ≠ agent_id →
      AgentRegistry.get_agent other now
        (AgentRegistry.register agent_id role dt cid created beat r).2
      = AgentRegistry.get_agent other now r.
Proof.
  intros Hnew. split.
  - by apply get_agent_register_new.
  - intros other Hne. unfold AgentRegistry.get_agent. by rewrite hgetall_register_ne.
Qed.

(** Witness of X9. *)
Lemma register_then_get_agent_witness :
  Redis.hgetall (AgentRegistry.info_key "backend-1") Redis.empty = ∅
  ∧ AgentRegistry.get_agent "backend-1" "t2"
      (AgentRegistry.register "backend-1" "domain" (Some "backend") (Some "c1") "t0" "t1"
         Redis.empty).2
    = Return (Some (AgentInfo.mk "backend-1" "domain" (Some "backend") "active" (Some "c1")
                      "t0" None)).
Proof.
  split; [reflexivity|].
  exact (proj1 (register_then_get_agent "backend-1" "domain" (Some "backend") (Some "c1")
                  "t0" "t1" "t2" Redis.empty eq_refl)).
Defined.

(** ** Deregistration *)

Lemma smembers_delete_ne key k r :
  key ≠ k → Redis.smembers k (Redis.delete key r) = Redis.smembers k r.
Proof. intros. unfold Redis.smembers. simpl. by rewrite lookup_delete_ne. Qed.

Lemma smembers_srem_eq k x r :
  Redis.smembers k (Redis.srem k x r) = Redis.smembers k r ∖ {[x]}.
Proof. unfold Redis.smembers at 1. simpl. by rewrite lookup_insert_eq. Qed.

Lemma smembers_srem_ne k k' x r :
  k ≠ k' → Redis.smembers k' (Redis.srem k x r) = Redis.smembers k' r.
Proof. intros. unfold Redis.smembers. simpl. by rewrite lookup_insert_ne. Qed.

Lemma is_set_key_not_plain k agent_id agent_id' :
  is_set_key k →
  k ≠ "agents:main" ∧ k ≠ AgentRegistry.info_key agent_id
  ∧ k ≠ AgentRegistry.heartbeat_key agent_id'.
Proof. intros [->|[->|[->|[t ->]]]]; split_and!; discriminate. Qed.

Lemma smembers_srem k k' x r :
  Redis.smembers k' (Redis.srem k x r)
  = if decide (k = k') then Redis.smembers k' r ∖ {[x]} else Redis.smembers k' r.
Proof.
  case_decide as Hk; [subst; apply smembers_srem_eq|by apply smembers_srem_ne].
Qed.

(** The memberships after a successful [deregister], set by set. *)
Lemma smembers_deregister agent_id now r info k :
  AgentRegistry.get_agent agent_id now r = Return (Some info) →
  is_set_key k →
  Redis.smembers k (AgentRegistry.deregister agent_id now r).2
  = if decide (k ∈ membership_keys (AgentInfo.role info) (AgentInfo.domain_type info))
    then Redis.smembers k r ∖ {[agent_id]}
    else Redis.smembers k r.
Proof.
  intros Hget Hk. unfold AgentRegistry.deregister. rewrite Hget. cbn [snd].
  destruct (is_set_key_not_plain k agent_id agent_id Hk) as (Hmain & Hinfo & Hbeat).
  rewrite !smembers_delete_ne by done. clear Hk Hget.
  unfold membership_keys.
  destruct (decide (AgentInfo.role info = "main")) as [Hr|Hr];
    [|destruct (decide (AgentInfo.role info = "domain")) as [Hd|Hd];
      [destruct (AgentInfo.domain_type info) as [t|]; [destruct (truthy t)|]
      |destruct (decide (AgentInfo.role info = "worker")) as [Hw|Hw]]].
  all: rewrite ?smembers_delete_ne by done.
  all: rewrite !smembers_srem.
  all: repeat case_decide; subst; try done.
  all: try (exfalso; match goal with H : _ ∉ _ |- _ => apply H end;
            repeat first [by left | right]).
  all: exfalso; repeat match goal with
         | H : _ ∈ _ :: _ |- _ => apply elem_of_cons in H; destruct H as [H|H]; [congruence|]
         | H : _ ∈ [] |- _ => by apply elem_of_nil in H
         end.
Qed.

Lemma strings_deregister agent_id now r info key :
  AgentRegistry.get_agent agent_id now r = Return (Some info) →
  key ≠ "agents:main" → key ≠ AgentRegistry.info_key agent_id →
  key ≠ AgentRegistry.heartbeat_key agent_id →
  Redis.strings (AgentRegistry.deregister agent_id now r).2 !! key
  = Redis.strings r !! key.
Proof.
  intros Hget Hmain Hinfo Hbeat. unfold AgentRegistry.deregister. rewrite Hget. cbn [snd].
  cbn [Redis.delete Redis.strings]. rewrite !lookup_delete_ne by done.
  repeat case_decide; try destruct (AgentInfo.domain_type info) as [t|];
    try destruct (truthy t); cbn [Redis.delete Redis.strings];
    rewrite ?lookup_delete_ne by done; done.
Qed.

(** X10. Registering an agent that had no record and then deregistering it
    undoes the registration: [deregister] returns true, the record and the
    lease are gone, the agent is in none of the sets the registration put it
    in, and those sets hold whoever else they held before. *)
Theorem register_then_deregister (agent_id role : string) (dt cid : option string)
    (created beat now : string) (r : Redis.t) :
  Redis.hgetall (AgentRegistry.info_key agent_id) r = ∅ →
  let r1 := (AgentRegistry.register agent_id role dt cid created beat r).2 in
  let r2 := (AgentRegistry.deregister agent_id now r1).2 in
  (AgentRegistry.deregister agent_id now r1).1 = Return true
  ∧ AgentRegistry.get_agent agent_id now r2 = Return None
  ∧ AgentRegistry.is_healthy agent_id r2 = false
  ∧ (∀ k, is_set_key k → k ∈ membership_keys role dt →
       Redis.smembers k r2 = Redis.smembers k r ∖ {[agent_id]})
  ∧ (∀ k, is_set_key k → k ∉ membership_keys role dt →
       Redis.smembers k r2 = Redis.smembers k r).
Proof.
  intros Hnew r1 r2.
  pose proof (get_agent_register_new agent_id role dt cid created beat now r Hnew)
    as Hget. fold r1 in Hget. cbn [fst AgentRegistry.register] in Hget.
  destruct (deregister_known agent_id now r1 _ Hget) as (r' & Hd & Hgone & _ & Hbeat & _).
  subst r2. rewrite Hd. cbn [fst snd]. split_and!.
  - done.
  - by apply get_agent_None.
  - unfold AgentRegistry.is_healthy, Redis.exists_. unfold Redis.get in Hbeat.
    by destruct (Redis.strings r' !! AgentRegistry.heartbeat_key agent_id).
  - intros k Hk Hin.
    pose proof (smembers_deregister agent_id now r1 _ k Hget Hk) as Hs.
    rewrite Hd in Hs. cbn [snd AgentInfo.role AgentInfo.domain_type] in Hs.
    rewrite Hs, decide_True by done. subst r1.
    rewrite smembers_register, decide_True by done.
    apply set_eq. intros x. rewrite !elem_of_difference, elem_of_union, elem_of_singleton.
    tauto.
  - intros k Hk Hnin.
    pose proof (smembers_deregister agent_id now r1 _ k Hget Hk) as Hs.
    rewrite Hd in Hs. cbn [snd AgentInfo.role AgentInfo.domain_type] in Hs.
    rewrite Hs, decide_False by done. subst r1.
    by rewrite smembers_register, decide_False.
Qed.

(** Witness of X10: a backend agent comes and goes in a registry that
    holds a worker. *)
Lemma register_then_deregister_witness :
  let r := (AgentRegistry.register "worker-1" "worker" None None "t2" "t3" Redis.empty).2 in
  let r1 := (AgentRegistry.register "backend-1" "domain" (Some "backend") None "t4" "t5" r).2 in
  let r2 := (AgentRegistry.deregister "backend-1" "t6" r1).2 in
  Redis.hgetall (AgentRegistry.info_key "backend-1") r = ∅
  ∧ AgentRegistry.get_agent "backend-1" "t6" r2 = Return None
  ∧ Redis.smembers "agents:all" r2 = Redis.smembers "agents:all" r ∖ {["backend-1"]}.
Proof.
  intros r r1 r2.
  assert (Redis.hgetall (AgentRegistry.info_key "backend-1") r = ∅) as Hnew
    by (vm_compute; reflexivity).
  destruct (register_then_deregister "backend-1" "domain" (Some "backend") None
              "t4" "t5" "t6" r Hnew) as (_ & Hgone & _ & Hin & _).
  split_and!; [exact Hnew|exact Hgone|].
  apply Hin; [by left|by left].
Defined.

Lemma get_agent_inv agent_id now r info :
  AgentRegistry.get_agent agent_id now r = Return (Some info) →
  let data := Redis.hgetall (AgentRegistry.info_key agent_id) r in
  data !! "agent_id" = Some (AgentInfo.agent_id info)
  ∧ data !! "role" = Some (AgentInfo.role info)
  ∧ info = AgentInfo.mk (AgentInfo.agent_id info) (AgentInfo.role info)
             (data !! "domain_type") (default "starting" (data !! "status"))
             (data !! "container_id") (default now (data !! "created_at"))
             (data !! "last_heartbeat").
Proof.
  intros H data. unfold AgentRegistry.get_agent, AgentInfo.from_dict in H. fold data in H.
  case_decide; [discriminate|].
  destruct (data !! "agent_id") as [aid|], (data !! "role") as [rl|]; try discriminate.
  simpl in H. injection H as <-. done.
Qed.

Lemma deregister_frame (agent_id other now : string) (r : Redis.t) :
  other ≠ agent_id →
  let r' := (AgentRegistry.deregister agent_id now r).2 in
  (∀ now', AgentRegistry.get_agent other now' r' = AgentRegistry.get_agent other now' r)
  ∧ AgentRegistry.is_healthy other r' = AgentRegistry.is_healthy other r
  ∧ (∀ k, is_set_key k → other ∈ Redis.smembers k r' ↔ other ∈ Redis.smembers k r).
Proof.
  intros Hne r'. subst r'.
  destruct (AgentRegistry.get_agent agent_id now r) as [[info|]|e] eqn:Hget.
  - destruct (deregister_known agent_id now r info Hget) as (r1 & Hd & _ & Hrec & _).
    split_and!.
    + intros now'. unfold AgentRegistry.get_agent. rewrite Hd. cbn [snd].
      by rewrite Hrec.
    + unfold AgentRegistry.is_healthy, Redis.exists_.
      rewrite (strings_deregister agent_id now r info _ Hget); [done|done|done|].
      by intros ?%(inj _).
    + intros k Hk. rewrite (smembers_deregister agent_id now r info k Hget Hk).
      case_decide; [|done]. rewrite elem_of_difference, elem_of_singleton. tauto.
  - unfold AgentRegistry.deregister. rewrite Hget. done.
  - unfold AgentRegistry.deregister. rewrite Hget. done.
Qed.

(** X11. [deregister] of one agent, whatever it returns, leaves every
    other agent's record, lease and memberships as they were. *)
Theorem deregister_leaves_others (agent_id other now : string) (r : Redis.t) :
  other ≠ agent_id →
  let r' := (AgentRegistry.deregister agent_id now r).2 in
  (∀ now', AgentRegistry.get_agent other now' r' = AgentRegistry.get_agent other now' r)
  ∧ AgentRegistry.is_healthy other r' = AgentRegistry.is_healthy other r
  ∧ (∀ k, is_set_key k → other ∈ Redis.smembers k r' ↔ other ∈ Redis.smembers k r).
Proof. apply deregister_frame. Qed.

(** Witness of X11: the worker of [registry_ab] goes, the backend agent
    stays. *)
Lemma deregister_leaves_others_witness :
  let r' := (AgentRegistry.deregister "worker-1" "t4" registry_ab).2 in
  "backend-1" ≠ "worker-1"
  ∧ AgentRegistry.get_agent "backend-1" "t5" r'
    = AgentRegistry.get_agent "backend-1" "t5" registry_ab
  ∧ AgentRegistry.is_healthy "backend-1" r' = AgentRegistry.is_healthy "backend-1" registry_ab.
Proof.
  intros r'. assert ("backend-1" ≠ "worker-1") as Hne by discriminate.
  destruct (deregister_leaves_others "worker-1" "backend-1" "t4" registry_ab Hne)
    as (Hrec & Hlease & _).
  split_and!; [exact Hne|exact (Hrec "t5")|exact Hlease].
Defined.

(** ** Heartbeats and status updates *)

Lemma lookup_hset1 key f v r k :
  Redis.hgetall key (Redis.hset1 key f v r) !! k
  = if decide (f = k) then Some v else Redis.hgetall key r !! k.
Proof.
  unfold Redis.hset1. rewrite hgetall_hset_eq, lookup_union, lookup_singleton.
  case_decide; [by destruct (Redis.hgetall key r !! k)|].
  by destruct (Redis.hgetall key r !! k).
Qed.

(** Reading a record back after one of its optional or defaulted fields
    was written. *)
Lemma get_agent_hset1 agent_id f v now r info :
  AgentRegistry.get_agent agent_id now r = Return (Some info) →
  f ≠ "agent_id" → f ≠ "role" →
  let field k := if decide (f = k) then Some v
                 else Redis.hgetall (AgentRegistry.info_key agent_id) r !! k in
  AgentRegistry.get_agent agent_id now (Redis.hset1 (AgentRegistry.info_key agent_id) f v r)
  = Return (Some (AgentInfo.mk (AgentInfo.agent_id info) (AgentInfo.role info)
                    (field "domain_type") (default "starting" (field "status"))
                    (field "container_id") (default now (field "created_at"))
                    (field "last_heartbeat"))).
Proof.
  intros Hget Hf1 Hf2 field.
  destruct (get_agent_inv _ _ _ _ Hget) as (Hid & Hrl & _).
  rewrite (get_agent_Some agent_id now _ _ (AgentInfo.agent_id info) (AgentInfo.role info)
             eq_refl).
  - by rewrite !lookup_hset1.
  - by rewrite lookup_hset1, decide_False.
  - by rewrite lookup_hset1, decide_False.
Qed.

(** X12. A heartbeat of a registered agent returns true, makes the agent
    healthy with a lease of the full time to live, and changes nothing in
    its record but [last_heartbeat]; memberships and the records of other
    agents stay as they were. *)
Theorem heartbeat_registered (agent_id now now' : string) (r : Redis.t)
    (info : AgentInfo.t) :
  AgentRegistry.get_agent agent_id now' r = Return (Some info) →
  let r' := (AgentRegistry.heartbeat agent_id now r).2 in
  (AgentRegistry.heartbeat agent_id now r).1 = true
  ∧ AgentRegistry.get_agent agent_id now' r' = Return (Some (with_last_heartbeat now info))
  ∧ AgentRegistry.is_healthy agent_id r' = true
  ∧ Redis.strings r' !! AgentRegistry.heartbeat_key agent_id
    = Some (now, Some AgentRegistry.HEARTBEAT_TTL)
  ∧ Redis.sets r' = Redis.sets r
  ∧ (∀ other, other ≠ agent_id →
       AgentRegistry.get_agent other now' r' = AgentRegistry.get_agent other now' r).
Proof.
  intros Hget r'. subst r'. unfold AgentRegistry.heartbeat. cbn [fst snd].
  split_and!; [done| | | |done|].
  - pose proof (get_agent_hset1 agent_id "last_heartbeat" now now'
                  (Redis.setex (AgentRegistry.heartbeat_key agent_id)
                     AgentRegistry.HEARTBEAT_TTL now r) info Hget) as H.
    rewrite H by done. clear H.
    destruct (get_agent_inv _ _ _ _ Hget) as (_ & _ & Hinfo).
    change (Redis.hgetall ?k (Redis.setex _ _ _ ?s)) with (Redis.hgetall k s).
    destruct info as [aid rl dt st cid ca hb]. cbn in Hinfo |- *.
    injection Hinfo as Hdt Hst Hcid Hca Hhb. subst dt st cid ca hb.
    unfold with_last_heartbeat. cbn. by repeat case_decide.
  - unfold AgentRegistry.is_healthy, Redis.exists_. simpl. by rewrite lookup_insert_eq.
  - simpl. by rewrite lookup_insert_eq.
  - intros other Hne. unfold AgentRegistry.get_agent, Redis.hset1.
    rewrite hgetall_hset_ne; [done|]. by intros ?%(inj _).
Qed.

(** Witness of X12. *)
Lemma heartbeat_registered_witness :
  AgentRegistry.get_agent "backend-1" "t6" registry_a
  = Return (Some (AgentInfo.mk "backend-1" "domain" (Some "backend") "active" (Some "c1")
                    "t0" None))
  ∧ AgentRegistry.get_agent "backend-1" "t6"
      (AgentRegistry.heartbeat "backend-1" "t5" registry_a).2
    = Return (Some (AgentInfo.mk "backend-1" "domain" (Some "backend") "active" (Some "c1")
                      "t0" (Some "t5")))
  ∧ AgentRegistry.is_healthy "backend-1"
      (AgentRegistry.heartbeat "backend-1" "t5" registry_a).2 = true.
Proof.
  assert (AgentRegistry.get_agent "backend-1" "t6" registry_a
          = Return (Some (AgentInfo.mk "backend-1" "domain" (Some "backend") "active"
                            (Some "c1") "t0" None))) as Hget
    by (vm_compute; reflexivity).
  destruct (heartbeat_registered "backend-1" "t5" "t6" registry_a _ Hget)
    as (_ & Hrec & Hlive & _).
  split_and!; [exact Hget|exact Hrec|exact Hlive].
Defined.

(** X13. [update_status], and with it [set_busy] and [set_active], always
    returns true and accepts any status from any status.  For a registered
    agent the record reads back with the new status and is otherwise
    unchanged; for an agent without a record the call leaves a record
    holding only the status, which [get_agent] then rejects.  Leases and
    memberships are not touched. *)
Theorem update_status_effects (agent_id status now : string) (r : Redis.t) :
  let r' := (AgentRegistry.update_status agent_id status r).2 in
  (AgentRegistry.update_status agent_id status r).1 = true
  ∧ (∀ info, AgentRegistry.get_agent agent_id now r = Return (Some info) →
       AgentRegistry.get_agent agent_id now r' = Return (Some (with_status status info)))
  ∧ (Redis.hgetall (AgentRegistry.info_key agent_id) r = ∅ →
     AgentRegistry.get_agent agent_id now r'
     = Raise (ValidationError "AgentInfo" "agent_id"))
  ∧ (∀ other, other ≠ agent_id →
       AgentRegistry.get_agent other now r' = AgentRegistry.get_agent other now r)
  ∧ Redis.strings r' = Redis.strings r
  ∧ Redis.sets r' = Redis.sets r.
Proof.
  intros r'. subst r'. unfold AgentRegistry.update_status. cbn [fst snd].
  split_and!; [done| | | |done|done].
  - intros info Hget.
    rewrite (get_agent_hset1 agent_id "status" status now r info Hget) by done.
    destruct (get_agent_inv _ _ _ _ Hget) as (_ & _ & Hinfo).
    destruct info as [aid rl dt st cid ca hb]. cbn in Hinfo |- *.
    injection Hinfo as Hdt Hst Hcid Hca Hhb. subst dt st cid ca hb.
    unfold with_status. cbn. by repeat case_decide.
  - intros Hnone. unfold AgentRegistry.get_agent, Redis.hset1.
    rewrite hgetall_hset_eq, Hnone, (right_id_L ∅ (∪)). done.
  - intros other Hne. unfold AgentRegistry.get_agent, Redis.hset1.
    rewrite hgetall_hset_ne; [done|]. by intros ?%(inj _).
Qed.

(** Witness of X13: the backend agent of [registry_a] turns busy; a status
    is written for an agent nobody registered. *)
Lemma update_status_effects_witness :
  Redis.hgetall (AgentRegistry.info_key "ghost") registry_a = ∅
  ∧ AgentRegistry.get_agent "backend-1" "t2" (AgentRegistry.set_busy "backend-1" registry_a).2
    = Return (Some (AgentInfo.mk "backend-1" "domain" (Some "backend") "busy" (Some "c1")
                      "t0" None))
  ∧ AgentRegistry.get_agent "ghost" "t2" (AgentRegistry.set_active "ghost" registry_a).2
    = Raise (ValidationError "AgentInfo" "agent_id").
Proof.
  assert (Redis.hgetall (AgentRegistry.info_key "ghost") registry_a = ∅) as Hnone
    by (vm_compute; reflexivity).
  assert (AgentRegistry.get_agent "backend-1" "t2" registry_a
          = Return (Some (AgentInfo.mk "backend-1" "domain" (Some "backend") "active"
                            (Some "c1") "t0" None))) as Hget
    by (vm_compute; reflexivity).
  destruct (update_status_effects "backend-1" "busy" "t2" registry_a) as (_ & Hbusy & _).
  destruct (update_status_effects "ghost" "active" "t2" registry_a) as (_ & _ & Hghost & _).
  split_and!; [exact Hnone|exact (Hbusy _ Hget)|exact (Hghost Hnone)].
Defined.

(** ** Discovery *)

Lemma fetch_agents_Return ids now r l :
  AgentRegistry.fetch_agents ids now r = Return l →
  ∀ a, a ∈ l ↔ ∃ x, x ∈ ids ∧ AgentRegistry.get_agent x now r = Return (Some a).
Proof.
  revert l. induction ids as [|y ids IH]; intros l Hl a; simpl in Hl.
  - injection Hl as <-. split; [by intros ?%elem_of_nil|].
    intros (x & Hx & _). by apply elem_of_nil in Hx.
  - destruct (AgentRegistry.get_agent y now r) as [o|e] eqn:Hy; [|discriminate].
    destruct (AgentRegistry.fetch_agents ids now r) as [l'|e] eqn:Hl'; [|discriminate].
    simpl in Hl. injection Hl as <-. specialize (IH l' eq_refl a).
    split.
    + intros Ha. destruct o as [a'|].
      * apply elem_of_cons in Ha. destruct Ha as [->|Ha].
        -- exists y. split; [by left|done].
        -- apply IH in Ha. destruct Ha as (x & Hx & Hgx). exists x. split; [by right|done].
      * apply IH in Ha. destruct Ha as (x & Hx & Hgx). exists x. split; [by right|done].
    + intros (x & Hx & Hgx). apply elem_of_cons in Hx. destruct Hx as [->|Hx].
      * rewrite Hy in Hgx. injection Hgx as ->. by left.
      * assert (a ∈ l') as Ha by (apply IH; by exists x).
        destruct o; [by right|done].
Qed.

Lemma fetch_agents_Raise ids now r e :
  AgentRegistry.fetch_agents ids now r = Raise e →
  ∃ x, x ∈ ids ∧ AgentRegistry.get_agent x now r = Raise e.
Proof.
  induction ids as [|y ids IH]; simpl; [discriminate|].
  destruct (AgentRegistry.get_agent y now r) as [o|e'] eqn:Hy.
  - destruct (AgentRegistry.fetch_agents ids now r) as [l'|e'] eqn:Hl'; [discriminate|].
    simpl. intros [= ->]. destruct (IH eq_refl) as (x & Hx & Hgx).
    exists x. split; [by right|done].
  - simpl. intros [= ->]. exists y. split; [by left|done].
Qed.

Lemma get_domain_orchestrators_members t now r :
  AgentRegistry.get_domain_orchestrators (Some t) now r
  = AgentRegistry.fetch_agents (elements (domain_members t r)) now r.
Proof.
  unfold AgentRegistry.get_domain_orchestrators, domain_members. by destruct (truthy t).
Qed.

(** X14. Whatever [find_available_domain] returns is the record of a member
    of the set it searched (the type's own set, or that of all domain agents
    for an empty type), has status "active" and names an agent with a live
    lease.  It returns none only when no member's record is like that, and
    it raises only when some member's record cannot be read. *)
Theorem find_available_domain_sound (t now : string) (r : Redis.t) :
  (∀ a, AgentRegistry.find_available_domain t now r = Return (Some a) →
     AgentInfo.status a = "active"
     ∧ AgentRegistry.is_healthy (AgentInfo.agent_id a) r = true
     ∧ ∃ x, x ∈ domain_members t r ∧ AgentRegistry.get_agent x now r = Return (Some a))
  ∧ (AgentRegistry.find_available_domain t now r = Return None →
     ∀ x a, x ∈ domain_members t r →
       AgentRegistry.get_agent x now r = Return (Some a) →
       ¬ (AgentInfo.status a = "active"
          ∧ AgentRegistry.is_healthy (AgentInfo.agent_id a) r = true))
  ∧ (∀ e, AgentRegistry.find_available_domain t now r = Raise e →
     ∃ x, x ∈ domain_members t r ∧ AgentRegistry.get_agent x now r = Raise e).
Proof.
  unfold AgentRegistry.find_available_domain. rewrite get_domain_orchestrators_members.
  destruct (AgentRegistry.fetch_agents (elements (domain_members t r)) now r)
    as [l|e] eqn:Hl; simpl.
  - pose proof (fetch_agents_Return _ _ _ _ Hl) as Hspec. split_and!.
    + intros a [= Hhead].
      assert (a ∈ AgentRegistry.available l r) as Ha.
      { destruct (AgentRegistry.available l r); [discriminate|].
        injection Hhead as ->. by left. }
      apply list_elem_of_filter in Ha. destruct Ha as [[Hst Hh] Hin].
      split_and!; [done..|].
      apply Hspec in Hin. destruct Hin as (x & Hx & Hgx).
      exists x. split; [by apply elem_of_elements|done].
    + intros [= Hhead] x a Hx Hgx Hok.
      assert (a ∈ AgentRegistry.available l r) as Ha.
      { apply list_elem_of_filter. split; [done|].
        apply Hspec. exists x. split; [by apply elem_of_elements|done]. }
      destruct (AgentRegistry.available l r); [by apply elem_of_nil in Ha|discriminate].
    + discriminate.
  - split_and!; [discriminate..|].
    intros e' [= <-]. destruct (fetch_agents_Raise _ _ _ _ Hl) as (x & Hx & Hgx).
    exists x. split; [by apply elem_of_elements|done].
Qed.

(** Witness of X14: the backend agent of [registry_a] is found while
    active and no longer once it is busy. *)
Lemma find_available_domain_sound_witness :
  let busy := (AgentRegistry.set_busy "backend-1" registry_a).2 in
  AgentRegistry.find_available_domain "backend" "t2" registry_a
    = Return (Some (AgentInfo.mk "backend-1" "domain" (Some "backend") "active" (Some "c1")
                      "t0" None))
  ∧ AgentRegistry.find_available_domain "backend" "t2" busy = Return None
  ∧ ∀ x a, x ∈ domain_members "backend" busy →
       AgentRegistry.get_agent x "t2" busy = Return (Some a) →
       ¬ (AgentInfo.status a = "active"
          ∧ AgentRegistry.is_healthy (AgentInfo.agent_id a) busy = true).
Proof.
  intros busy.
  assert (AgentRegistry.find_available_domain "backend" "t2" busy = Return None) as Hnone
    by (vm_compute; reflexivity).
  split_and!; [vm_compute; reflexivity|exact Hnone|].
  exact (proj1 (proj2 (find_available_domain_sound "backend" "t2" busy)) Hnone).
Defined.

(** X15. [list_agents] returns exactly the records of the members of one
    set that have a record; members without a record are skipped.
    The set is that of the domain agents for role "domain", that of the
    workers for role "worker", and that of all agents for no role and for
    any other role, "main" included. *)
Theorem list_agents_members (role : option string) (now : string) (r : Redis.t) :
  let key := if decide (role = Some "domain") then "agents:domains"
             else if decide (role = Some "worker") then "agents:workers"
             else "agents:all" in
  (∀ l, AgentRegistry.list_agents role now r = Return l →
     ∀ a, a ∈ l ↔ ∃ x, x ∈ Redis.smembers key r
                       ∧ AgentRegistry.get_agent x now r = Return (Some a))
  ∧ (role ≠ Some "domain" → role ≠ Some "worker" →
     AgentRegistry.list_agents role now r = AgentRegistry.list_agents None now r).
Proof.
  intros key. split.
  - intros l Hl a. unfold AgentRegistry.list_agents in Hl.
    assert (AgentRegistry.fetch_agents (elements (Redis.smembers key r)) now r = Return l)
      as Hl' by (subst key; by repeat case_decide).
    rewrite (fetch_agents_Return _ _ _ _ Hl' a).
    split; intros (x & Hx & Hgx); exists x; (split; [by apply elem_of_elements|done]).
  - intros Hd Hw. unfold AgentRegistry.list_agents.
    by rewrite !decide_False by done.
Qed.

(** Witness of X15: asked for role "main", [list_agents] lists the domain
    agent and the worker of [registry_ab]. *)
Lemma list_agents_members_witness :
  Some "main" ≠ Some "domain" ∧ Some "main" ≠ Some "worker"
  ∧ AgentRegistry.list_agents (Some "main") "t4" registry_ab
    = AgentRegistry.list_agents None "t4" registry_ab
  ∧ length <$> AgentRegistry.list_agents (Some "main") "t4" registry_ab = Return 2.
Proof.
  assert (Some "main" ≠ Some "domain") as H1 by discriminate.
  assert (Some "main" ≠ Some "worker") as H2 by discriminate.
  pose proof (proj2 (list_agents_members (Some "main") "t4" registry_ab) H1 H2) as Hall.
  split_and!; [exact H1|exact H2|exact Hall|].
  vm_compute. reflexivity.
Defined.

(** ** Reconciliation *)

Lemma get_agent_None_inv agent_id now r :
  AgentRegistry.get_agent agent_id now r = Return None →
  Redis.hgetall (AgentRegistry.info_key agent_id) r = ∅.
Proof.
  unfold AgentRegistry.get_agent. case_decide; [done|].
  by destruct (AgentInfo.from_dict now _).
Qed.

(** One readable agent deregistered: what is returned and what is left. *)
Lemma deregister_readable agent_id now r o :
  AgentRegistry.get_agent agent_id now r = Return o →
  let r1 := (AgentRegistry.deregister agent_id now r).2 in
  (AgentRegistry.deregister agent_id now r).1 = Return (bool_decide (is_Some o))
  ∧ (∀ now', AgentRegistry.get_agent agent_id now' r1 = Return None)
  ∧ (is_Some o → agent_id ∉ Redis.smembers "agents:all" r1)
  ∧ (o = None → r1 = r).
Proof.
  intros Hget r1. subst r1. destruct o as [a|].
  - destruct (deregister_known agent_id now r a Hget) as (r' & Hd & Hgone & _).
    split_and!.
    + by rewrite Hd.
    + intros now'. rewrite Hd. by apply get_agent_None.
    + intros _. rewrite (smembers_deregister agent_id now r a "agents:all" Hget);
        [|by left].
      rewrite decide_True by (unfold membership_keys; by left).
      rewrite elem_of_difference, elem_of_singleton. tauto.
    + discriminate.
  - unfold AgentRegistry.deregister. rewrite Hget. cbn [fst snd]. split_and!.
    + done.
    + intros now'. apply get_agent_None. by apply get_agent_None_inv in Hget.
    + by intros [? [=]].
    + done.
Qed.

Lemma deregister_each_spec now ids :
  ∀ r,
    NoDup ids →
    (∀ x, x ∈ ids → ∃ o, AgentRegistry.get_agent x now r = Return o) →
    ∃ removed r',
      AgentRegistry.deregister_each ids now r = (Return removed, r')
      ∧ (∀ x, x ∈ removed ↔
              x ∈ ids ∧ ∃ a, AgentRegistry.get_agent x now r = Return (Some a))
      ∧ (∀ x now', x ∈ ids → AgentRegistry.get_agent x now' r' = Return None)
      ∧ (∀ x, x ∈ removed → x ∉ Redis.smembers "agents:all" r')
      ∧ (∀ y, y ∉ ids →
           (∀ now', AgentRegistry.get_agent y now' r' = AgentRegistry.get_agent y now' r)
           ∧ AgentRegistry.is_healthy y r' = AgentRegistry.is_healthy y r
           ∧ (∀ k, is_set_key k → y ∈ Redis.smembers k r' ↔ y ∈ Redis.smembers k r))
      ∧ (∀ x, x ∈ ids → AgentRegistry.get_agent x now r = Return None →
           ∀ k, is_set_key k → x ∈ Redis.smembers k r' ↔ x ∈ Redis.smembers k r).
Proof.
  induction ids as [|x ids IH]; intros r Hnd Hread.
  { exists [], r. split_and!; try done.
    all: intros x; rewrite ?elem_of_nil; try tauto.
    all: intros; exfalso; eapply not_elem_of_nil; eassumption. }
  apply NoDup_cons in Hnd. destruct Hnd as [Hx Hnd].
  destruct (Hread x) as [o Ho]; [by left|].
  destruct (deregister_readable x now r o Ho) as (Hret & Hgone & Hout & Hsame).
  set (r1 := (AgentRegistry.deregister x now r).2) in *.
  assert (∀ y, y ≠ x →
            (∀ now', AgentRegistry.get_agent y now' r1 = AgentRegistry.get_agent y now' r)
            ∧ AgentRegistry.is_healthy y r1 = AgentRegistry.is_healthy y r
            ∧ (∀ k, is_set_key k → y ∈ Redis.smembers k r1 ↔ y ∈ Redis.smembers k r))
    as Hframe by (intros y Hy; by apply deregister_frame).
  destruct (IH r1 Hnd) as (removed & r' & Heach & Hrem & Hnone & Hall & Hothers & Hstale).
  { intros y Hy. destruct (Hread y) as [oy Hoy]; [by right|]. exists oy.
    rewrite <- Hoy. apply Hframe. by intros ->. }
  exists (if bool_decide (is_Some o) then x :: removed else removed), r'.
  split_and!.
  - cbn [AgentRegistry.deregister_each].
    destruct (AgentRegistry.deregister x now r) as [res r1'] eqn:Hd.
    cbn [fst snd] in Hret. subst res. subst r1. cbn [snd] in Heach. by rewrite Heach.
  - intros y. rewrite elem_of_cons.
    assert (y ∈ removed ↔ y ∈ ids ∧ ∃ a, AgentRegistry.get_agent y now r = Return (Some a))
      as Hrem'.
    { rewrite Hrem. split; intros [Hy [a Ha]]; (split; [done|]); exists a.
      - rewrite <- Ha. symmetry. apply Hframe. by intros ->.
      - rewrite <- Ha. apply Hframe. by intros ->. }
    destruct o as [a|]; cbn.
    + rewrite elem_of_cons, Hrem'. split.
      * intros [->|[Hy Ha]]; [split; [by left|by exists a]|split; [by right|done]].
      * intros [[->|Hy] Ha]; [by left|right; by split].
    + rewrite Hrem'. split.
      * intros [Hy Ha]. split; [by right|done].
      * intros [[->|Hy] [a Ha]]; [rewrite Ho in Ha; discriminate|split; [done|by exists a]].
  - intros y now' Hy. apply elem_of_cons in Hy. destruct Hy as [->|Hy].
    + destruct (Hothers x Hx) as (Hrec & _). rewrite Hrec. apply Hgone.
    + by apply Hnone.
  - intros y Hy.
    assert (y = x ∧ is_Some o ∨ y ∈ removed) as [[-> Ho']|Hy'].
    { destruct o; cbn in Hy; [|by right].
      apply elem_of_cons in Hy. destruct Hy as [->|Hy]; [left; by split|by right]. }
    + destruct (Hothers x Hx) as (_ & _ & Hsets). rewrite (Hsets "agents:all"); [|by left].
      by apply Hout.
    + by apply Hall.
  - intros y Hy. apply not_elem_of_cons in Hy. destruct Hy as [Hyx Hy].
    destruct (Hothers y Hy) as (Hrec & Hlease & Hsets).
    destruct (Hframe y Hyx) as (Hrec1 & Hlease1 & Hsets1).
    split_and!.
    + intros now'. by rewrite Hrec, Hrec1.
    + by rewrite Hlease, Hlease1.
    + intros k Hk. by rewrite (Hsets k Hk), (Hsets1 k Hk).
  - intros y Hy Hnorec k Hk. apply elem_of_cons in Hy. destruct Hy as [->|Hy].
    + destruct (Hothers x Hx) as (_ & _ & Hsets). rewrite (Hsets k Hk).
      rewrite Ho in Hnorec. injection Hnorec as ->. by rewrite (Hsame eq_refl).
    + assert (y ≠ x) as Hyx by by intros ->.
      destruct (Hframe y Hyx) as (Hrec1 & _ & Hsets1).
      rewrite (Hstale y Hy); [by apply Hsets1| |done]. by rewrite Hrec1.
Qed.

Lemma elem_of_get_unhealthy_agents x r :
  x ∈ AgentRegistry.get_unhealthy_agents r
  ↔ x ∈ Redis.smembers "agents:all" r ∧ AgentRegistry.is_healthy x r = false.
Proof.
  unfold AgentRegistry.get_unhealthy_agents.
  rewrite list_elem_of_filter, elem_of_elements. tauto.
Qed.

(** X16. [cleanup_dead_agents], when the records of the agents without a
    live lease can all be read, returns exactly the members of agents:all
    that have no live lease and do have a record; each of these ends up
    without record and outside agents:all.  An agent with a live lease keeps
    its record, lease and memberships.  A member of agents:all that has
    neither lease nor record is not removed and stays a member. *)
Theorem cleanup_dead_agents_sweeps (now : string) (r : Redis.t) :
  (∀ x, x ∈ AgentRegistry.get_unhealthy_agents r →
        ∃ o, AgentRegistry.get_agent x now r = Return o) →
  ∃ removed r',
    AgentRegistry.cleanup_dead_agents now r = (Return removed, r')
    ∧ (∀ x, x ∈ removed ↔
            x ∈ Redis.smembers "agents:all" r
            ∧ AgentRegistry.is_healthy x r = false
            ∧ ∃ a, AgentRegistry.get_agent x now r = Return (Some a))
    ∧ (∀ x, x ∈ removed →
         AgentRegistry.get_agent x now r' = Return None
         ∧ x ∉ Redis.smembers "agents:all" r')
    ∧ (∀ y, AgentRegistry.is_healthy y r = true →
         AgentRegistry.get_agent y now r' = AgentRegistry.get_agent y now r
         ∧ AgentRegistry.is_healthy y r' = true
         ∧ (∀ k, is_set_key k → y ∈ Redis.smembers k r' ↔ y ∈ Redis.smembers k r))
    ∧ (∀ x, x ∈ Redis.smembers "agents:all" r →
         AgentRegistry.is_healthy x r = false →
         AgentRegistry.get_agent x now r = Return None →
         (x ∉ removed) ∧ x ∈ Redis.smembers "agents:all" r').
Proof.
  intros Hread. unfold AgentRegistry.cleanup_dead_agents.
  destruct (deregister_each_spec now (AgentRegistry.get_unhealthy_agents r) r)
    as (removed & r' & Heach & Hrem & Hnone & Hall & Hothers & Hstale); [|done|].
  { apply NoDup_filter, NoDup_elements. }
  exists removed, r'. split_and!; [done| | | |].
  - intros x. rewrite Hrem, elem_of_get_unhealthy_agents. tauto.
  - intros x Hx. split; [|by apply Hall].
    apply Hnone. by apply Hrem in Hx as [Hx _].
  - intros y Hy.
    assert (y ∉ AgentRegistry.get_unhealthy_agents r) as Hny.
    { rewrite elem_of_get_unhealthy_agents. intros [_ Hf]. congruence. }
    destruct (Hothers y Hny) as (Hrec & Hlease & Hsets).
    split_and!; [apply Hrec|by rewrite Hlease|done].
  - intros x Hx Hdead Hnorec.
    assert (x ∈ AgentRegistry.get_unhealthy_agents r) as Hin
      by by apply elem_of_get_unhealthy_agents.
    split.
    + rewrite Hrem. intros [_ [a Ha]]. rewrite Hnorec in Ha. discriminate.
    + rewrite (Hstale x Hin Hnorec "agents:all"); [done|by left].
Qed.

(** Witness of X16: the domain agent's lease has run out, the worker's has
    not. *)
Lemma cleanup_dead_agents_sweeps_witness :
  (∀ x, x ∈ AgentRegistry.get_unhealthy_agents registry_lapsed →
        ∃ o, AgentRegistry.get_agent x "t9" registry_lapsed = Return o)
  ∧ ∃ removed r',
      AgentRegistry.cleanup_dead_agents "t9" registry_lapsed = (Return removed, r')
      ∧ "backend-1" ∈ removed
      ∧ AgentRegistry.get_agent "backend-1" "t9" r' = Return None
      ∧ AgentRegistry.get_agent "worker-1" "t9" r'
        = AgentRegistry.get_agent "worker-1" "t9" registry_lapsed.
Proof.
  assert (AgentRegistry.get_unhealthy_agents registry_lapsed = ["backend-1"]) as Hdead
    by (vm_compute; reflexivity).
  assert (AgentRegistry.get_agent "backend-1" "t9" registry_lapsed
          = Return (Some (AgentInfo.mk "backend-1" "domain" (Some "backend") "active"
                            (Some "c1") "t0" None))) as Hget
    by (vm_compute; reflexivity).
  assert (∀ x, x ∈ AgentRegistry.get_unhealthy_agents registry_lapsed →
               ∃ o, AgentRegistry.get_agent x "t9" registry_lapsed = Return o) as Hread.
  { intros x. rewrite Hdead. intros ->%list_elem_of_singleton. eexists. exact Hget. }
  split; [exact Hread|].
  destruct (cleanup_dead_agents_sweeps "t9" registry_lapsed Hread)
    as (removed & r' & Hrun & Hrem & Hgone & Hkeep & _).
  assert ("backend-1" ∈ removed) as Hin.
  { apply Hrem. split_and!; [vm_compute; reflexivity|vm_compute; reflexivity|].
    eexists. exact Hget. }
  exists removed, r'. split_and!; [exact Hrun|exact Hin|exact (proj1 (Hgone _ Hin))|].
  refine (proj1 (Hkeep "worker-1" _)). vm_compute. reflexivity.
Defined.

(** X17. After [register] with role "main" and a non-empty id,
    [get_main_orchestrator] returns the new record, whoever was main before;
    with the empty id it returns nothing, although the record is written.
    A registration under any other role leaves the pointer to the main
    orchestrator as it was. *)
Theorem get_main_orchestrator_register (agent_id role : string) (dt cid : option string)
    (created beat now : string) (r : Redis.t) :
  let old := Redis.hgetall (AgentRegistry.info_key agent_id) r in
  let r' := (AgentRegistry.register agent_id role dt cid created beat r).2 in
  (role = "main" → agent_id ≠ "" →
     AgentRegistry.get_main_orchestrator now r'
     = Return (Some (AgentInfo.mk agent_id "main"
                       (match dt with Some t => Some t | None => old !! "domain_type" end)
                       "active"
                       (match cid with Some c => Some c | None => old !! "container_id" end)
                       created (old !! "last_heartbeat"))))
  ∧ (role = "main" → agent_id = "" →
       AgentRegistry.get_main_orchestrator now r' = Return None
       ∧ Redis.hgetall (AgentRegistry.info_key "") r' ≠ ∅)
  ∧ (role ≠ "main" → Redis.get "agents:main" r' = Redis.get "agents:main" r).
Proof.
  intros old r'.
  assert (role = "main" → Redis.get "agents:main" r' = Some agent_id) as Hptr.
  { intros ->. unfold Redis.get. subst r'. rewrite register_strings, decide_True by done.
    rewrite lookup_insert_ne by done. by rewrite lookup_insert_eq. }
  split_and!.
  - intros Hrole Hid. unfold AgentRegistry.get_main_orchestrator.
    rewrite (Hptr Hrole), (truthy_ne _ Hid). subst role. apply get_agent_register.
  - intros Hrole ->. split.
    + unfold AgentRegistry.get_main_orchestrator. by rewrite (Hptr Hrole).
    + subst r'. rewrite hgetall_register. intros Hempty.
      apply (f_equal (λ m : gmap string string, m !! "agent_id")) in Hempty.
      rewrite lookup_union, lookup_empty in Hempty.
      destruct (to_dict_lookup (AgentInfo.mk "" role dt "active" cid created None))
        as (Hid & _). rewrite Hid in Hempty.
      by destruct (Redis.hgetall (AgentRegistry.info_key "") r !! "agent_id").
  - intros Hrole. unfold Redis.get. subst r'. rewrite register_strings.
    rewrite decide_False by done. by rewrite lookup_insert_ne.
Qed.

(** Witness of X17. *)
Lemma get_main_orchestrator_register_witness :
  "main" = "main" ∧ "orch-1" ≠ ""
  ∧ AgentRegistry.get_main_orchestrator "t5"
      (AgentRegistry.register "orch-1" "main" None None "t3" "t4" registry_a).2
    = Return (Some (AgentInfo.mk "orch-1" "main" None "active" None "t3" None)).
Proof.
  assert ("orch-1" ≠ "") as Hid by discriminate.
  split_and!; [reflexivity|exact Hid|].
  exact (proj1 (get_main_orchestrator_register "orch-1" "main" None None "t3" "t4" "t5"
                  registry_a) eq_refl Hid).
Defined.

(** ** Spawning: what a return means, and how it fails *)

Lemma wait_loop_returns_inv rt cid timeout deadline clock n :
  ∀ j,
    (Z.to_nat (deadline - (clock + Z.of_nat j * poll_period rt)) ≤ n)%nat →
    DomainSpawner.wait_loop rt cid timeout deadline
      (clock + Z.of_nat j * poll_period rt) j = inr (Return ()) →
    ∃ k c, (j ≤ k)%nat
           ∧ (clock + Z.of_nat k * poll_period rt < deadline)%Z
           ∧ reports rt cid k c
           ∧ Docker.status c = "running"
           ∧ ∀ i, (j ≤ i < k)%nat → still_starting rt cid i.
Proof.
  unfold poll_period. induction n as [|n IH]; intros j Hn; rewrite wait_loop_step.
  - rewrite decide_False by lia. done.
  - case_decide as Hlt; [|done].
    destruct (Docker.inspect rt j cid) as [[e|e]|c] eqn:Hc; [done..|].
    case_decide as Hrun.
    + intros _. exists j, c. split_and!; [lia|lia|done|done|intros; lia].
    + destruct (DomainSpawner.is_terminal (Docker.status c)) eqn:Hterm;
        [by destruct (Docker.logs rt j c 50) as [logs|[e|e]|reason]|].
      replace (clock + Z.of_nat j * (Z.of_nat (Docker.poll_cost rt) + 500)
               + Z.of_nat (Docker.poll_cost rt) + 500)%Z
        with (clock + Z.of_nat (S j) * (Z.of_nat (Docker.poll_cost rt) + 500))%Z by lia.
      intros Hret.
      destruct (IH (S j)) as (k & c' & Hk & Hlt' & Hc' & Hrun' & Hstill); [lia|done|].
      exists k, c'. split_and!; [lia|done|done|done|].
      intros i Hi. destruct (decide (i = j)) as [->|Hne].
      * by exists c.
      * apply Hstill. lia.
Qed.

(** X18. [spawn_domain] returns nothing but the identifier it built, and
    only after the runtime accepted the container.  When it was asked to
    wait, a return means that an inspection that started before the
    deadline showed the container running, and that every earlier
    inspection showed it neither running nor ended. *)
Theorem spawn_domain_returns (sp : DomainSpawner.t) (rt : Docker.t) (domain_type : string)
    (config : option DomainConfig.t) (wait_for_start : bool) (timeout : Z) (uuid : N)
    (clock : Z) (domain_id : string) :
  DomainSpawner.spawn_domain sp rt domain_type config wait_for_start timeout uuid clock
    = Return domain_id →
  domain_id = DomainSpawner.new_domain_id domain_type uuid
  ∧ ∃ container,
      Docker.run rt (DomainSpawner.run_request sp domain_type
                       (default (DomainSpawner.default_config sp domain_type) config)
                       domain_id) = inr container
      ∧ (wait_for_start = true →
         ∃ k c, (Z.of_nat k * poll_period rt < timeout * 1000)%Z
                ∧ reports rt (Docker.id container) k c
                ∧ Docker.status c = "running"
                ∧ ∀ i, (i < k)%nat → still_starting rt (Docker.id container) i).
Proof.
  unfold DomainSpawner.spawn_domain.
  destruct (Docker.run rt _) as [[e|e]|container] eqn:Hrun; [done..|].
  assert (∀ P : Prop,
            (DomainSpawner.new_domain_id domain_type uuid = domain_id → P) →
            Return (DomainSpawner.new_domain_id domain_type uuid) = Return domain_id → P)
    as Hinv by (intros P HP [= H]; by apply HP).
  destruct wait_for_start.
  - unfold DomainSpawner._wait_for_container.
    destruct (DomainSpawner.wait_loop _ _ _ _ _ _) as [[e|e]|[[]|e]] eqn:Hwait; [done..| |done].
    apply Hinv. intros <-. split; [done|]. exists container. split; [done|]. intros _.
    pose proof (wait_loop_returns_inv rt (Docker.id container) timeout
                  (clock + timeout * 1000) clock
                  (Z.to_nat (clock + timeout * 1000 - clock)) 0) as Hseen.
    cbn [Z.of_nat Z.mul] in Hseen. rewrite Z.add_0_r in Hseen.
    destruct (Hseen ltac:(lia) Hwait) as (k & c & _ & Hlt & Hc & Hrunning & Hstill).
    exists k, c. split_and!; [lia|done|done|]. intros i Hi. apply Hstill. lia.
  - apply Hinv. intros <-. split; [done|]. exists container. by split.
Qed.

(** Witness of X18. *)
Lemma spawn_domain_returns_witness :
  let rt := sample_runtime 2 "running" [] in
  DomainSpawner.spawn_domain sample_spawner rt "backend" None true 5 sample_uuid 0
    = Return "backend-3f2a9c41"
  ∧ ∃ k c, (Z.of_nat k * poll_period rt < 5 * 1000)%Z
           ∧ reports rt "c0ffee" k c
           ∧ Docker.status c = "running".
Proof.
  intros rt.
  assert (DomainSpawner.spawn_domain sample_spawner rt "backend" None true 5 sample_uuid 0
          = Return "backend-3f2a9c41") as Hret by (vm_compute; reflexivity).
  split; [exact Hret|].
  destruct (spawn_domain_returns sample_spawner rt "backend" None true 5 sample_uuid 0
              "backend-3f2a9c41" Hret) as (_ & container & Hrun & Hseen).
  assert (Docker.id container = "c0ffee") as Hid.
  { cbn in Hrun. injection Hrun as <-. reflexivity. }
  destruct (Hseen eq_refl) as (k & c & Hlt & Hc & Hrunning & _).
  rewrite Hid in Hc. exists k, c. split_and!; [exact Hlt|exact Hc|exact Hrunning].
Defined.

(** X19. How [spawn_domain] fails.  A request the runtime refuses gives a
    provisioning failure "Failed to spawn domain ..." carrying the
    runtime's text, whether or not the call was to wait.  Once the request
    is accepted, a call that does not wait returns the identifier without
    looking at the container; a call that waits and is told, at an
    inspection before the deadline, that the container does not exist
    raises "Container ... not found" with the container's own id, and one
    that gets any other runtime error there raises "Failed to spawn
    domain ..." with that error's text. *)
Theorem spawn_domain_failures (sp : DomainSpawner.t) (rt : Docker.t) (domain_type : string)
    (config : option DomainConfig.t) (timeout : Z) (uuid : N) (clock : Z) :
  let domain_id := DomainSpawner.new_domain_id domain_type uuid in
  let request := DomainSpawner.run_request sp domain_type
                   (default (DomainSpawner.default_config sp domain_type) config)
                   domain_id in
  let spawn wait := DomainSpawner.spawn_domain sp rt domain_type config wait timeout uuid
                      clock in
  let failed e := Raise (DockerException
                    ("Failed to spawn domain " +:+ domain_type +:+ ": " +:+ e)) in
  (∀ e wait, Docker.run rt request = inl e → spawn wait = failed (Docker.message e))
  ∧ (∀ container, Docker.run rt request = inr container →
       spawn false = Return domain_id
       ∧ ∀ k e,
           (∀ i, (i < k)%nat → still_starting rt (Docker.id container) i) →
           (Z.of_nat k * poll_period rt < timeout * 1000)%Z →
           Docker.inspect rt k (Docker.id container) = inl e →
           spawn true
           = match e with
             | Docker.NotFound _ =>
                 Raise (DockerException
                          ("Container " +:+ Docker.id container +:+ " not found"))
             | Docker.APIError msg => failed msg
             end).
Proof.
  intros domain_id request spawn failed. subst spawn. cbn beta.
  unfold DomainSpawner.spawn_domain. fold domain_id. fold request. split.
  - intros e wait Hrun. rewrite Hrun. by destruct e.
  - intros container Hrun. rewrite Hrun. split; [done|].
    intros k e Hwait Hlt He. unfold DomainSpawner._wait_for_container.
    rewrite (wait_loop_from_start _ _ _ _ _ k Hwait) by lia.
    rewrite wait_loop_step, decide_True by lia.
    rewrite He. by destruct e.
Qed.

(** Witness of X19: a refused request, and a container that is gone at
    the second inspection. *)
Lemma spawn_domain_failures_witness :
  DomainSpawner.spawn_domain sample_spawner refusing_runtime "backend" None false 5
    sample_uuid 0
  = Raise (DockerException "Failed to spawn domain backend: no such image")
  ∧ (1 * poll_period (failing_runtime 1 (Docker.NotFound "gone")) < 5 * 1000)%Z
  ∧ DomainSpawner.spawn_domain sample_spawner (failing_runtime 1 (Docker.NotFound "gone"))
      "backend" None true 5 sample_uuid 0
    = Raise (DockerException "Container c0ffee not found").
Proof.
  destruct (spawn_domain_failures sample_spawner refusing_runtime "backend" None 5
              sample_uuid 0) as [Hrefused _].
  destruct (spawn_domain_failures sample_spawner (failing_runtime 1 (Docker.NotFound "gone"))
              "backend" None 5 sample_uuid 0) as [_ Haccepted].
  destruct (Haccepted (sample_container "created") eq_refl) as [_ Hgone].
  assert ((1 * poll_period (failing_runtime 1 (Docker.NotFound "gone")) < 5 * 1000)%Z)
    as Hlt by (vm_compute; reflexivity).
  split_and!; [exact (Hrefused _ false eq_refl)|exact Hlt|].
  refine (Hgone 1 (Docker.NotFound "gone") _ Hlt eq_refl).
  intros i Hi. exists (sample_container "created").
  assert (i = 0) as -> by lia.
  split_and!; [reflexivity|discriminate|reflexivity].
Defined.

(** ** Stopping *)

(** X20. [stop_domain] returns false, and changes nothing, when no
    container carries the domain's label.  When it returns true, the first
    container with the label was stopped and removed: the runtime holds the
    other containers and no longer this one, and, when no second container
    carries the label, stopping the domain again returns false.  It raises
    only when stopping or removing that container failed with an error
    other than "not found". *)
Theorem stop_domain_outcomes (rt : Docker.t) (domain_id : string) (timeout : Z) :
  let found := DomainSpawner._find_container_by_domain_id rt domain_id in
  (found = None → DomainSpawner.stop_domain rt domain_id timeout = (Return false, rt))
  ∧ (∀ rt', DomainSpawner.stop_domain rt domain_id timeout = (Return true, rt') →
       ∃ c, found = Some c
            ∧ Docker.stop rt c timeout = None
            ∧ Docker.remove rt c = None
            ∧ (∀ c', c' ∈ Docker.containers rt' ↔
                     c' ∈ Docker.containers rt ∧ Docker.id c' ≠ Docker.id c)
            ∧ ((∀ c', c' ∈ Docker.containers rt →
                      Docker.labels c' !! DomainSpawner.DOMAIN_ID_LABEL = Some domain_id →
                      Docker.id c' = Docker.id c) →
               ∀ timeout', DomainSpawner.stop_domain rt' domain_id timeout'
                           = (Return false, rt')))
  ∧ (∀ e rt', DomainSpawner.stop_domain rt domain_id timeout = (Raise e, rt') →
       ∃ c msg, found = Some c
                ∧ e = DockerException
                        ("Failed to stop domain " +:+ domain_id +:+ ": " +:+ msg)
                ∧ (Docker.stop rt c timeout = Some (Docker.APIError msg)
                   ∨ Docker.stop rt c timeout = None
                     ∧ Docker.remove rt c = Some (Docker.APIError msg))).
Proof.
  intros found. subst found. unfold DomainSpawner.stop_domain.
  destruct (DomainSpawner._find_container_by_domain_id rt domain_id) as [c|] eqn:Hfound.
  2: { split_and!; [done|intros ? [=]|intros ?? [=]]. }
  split_and!; [done| |].
  - intros rt' Hstop. exists c.
    destruct (Docker.stop rt c timeout) as [[e|e]|] eqn:Hs; [by inversion Hstop..|].
    destruct (Docker.remove rt c) as [[e|e]|] eqn:Hr; [by inversion Hstop..|].
    injection Hstop as <-. split_and!; [done..| |].
    + intros c'. cbn [Docker.containers]. rewrite list_elem_of_filter. tauto.
    + intros Huniq timeout'.
      assert (DomainSpawner._find_container_by_domain_id
                (Docker.mk
                   (filter (λ c0, Docker.id c0 ≠ Docker.id c) (Docker.containers rt))
                   (Docker.run rt) (Docker.inspect rt) (Docker.logs rt)
                   (Docker.poll_cost rt) (Docker.stop rt) (Docker.remove rt)) domain_id
              = None) as ->; [|done].
      unfold DomainSpawner._find_container_by_domain_id, Docker.list_by_label.
      cbn [Docker.containers].
      destruct (filter _ (filter _ _)) as [|c' l] eqn:Hl; [done|]. exfalso.
      assert (c' ∈ filter (λ c0, Docker.labels c0 !! DomainSpawner.DOMAIN_ID_LABEL
                                 = Some domain_id)
                     (filter (λ c0, Docker.id c0 ≠ Docker.id c) (Docker.containers rt)))
        as Hin by (rewrite Hl; by left).
      apply list_elem_of_filter in Hin as [Hlab Hin].
      apply list_elem_of_filter in Hin as [Hid Hin].
      by apply Hid, Huniq.
  - intros e rt' Hstop. exists c.
    destruct (Docker.stop rt c timeout) as [[m|m]|] eqn:Hs.
    + by inversion Hstop.
    + injection Hstop as <- <-. exists m. split_and!; [done..|by left].
    + destruct (Docker.remove rt c) as [[m|m]|] eqn:Hr; [by inversion Hstop| |by inversion Hstop].
      injection Hstop as <- <-. exists m. split_and!; [done..|by right].
Qed.

(** Witness of X20. *)
Lemma stop_domain_outcomes_witness :
  let rt' := (DomainSpawner.stop_domain fleet "backend-3f2a9c41" 10).2 in
  DomainSpawner.stop_domain fleet "backend-3f2a9c41" 10 = (Return true, rt')
  ∧ DomainSpawner.stop_domain rt' "backend-3f2a9c41" 10 = (Return false, rt')
  ∧ DomainSpawner._find_container_by_domain_id fleet "ghost" = None
  ∧ DomainSpawner.stop_domain fleet "ghost" 10 = (Return false, fleet).
Proof.
  intros rt'.
  assert (DomainSpawner.stop_domain fleet "backend-3f2a9c41" 10 = (Return true, rt'))
    as Hstop by (vm_compute; reflexivity).
  assert (DomainSpawner._find_container_by_domain_id fleet "ghost" = None) as Hghost
    by (vm_compute; reflexivity).
  destruct (stop_domain_outcomes fleet "ghost" 10) as (Hnone & _).
  destruct (stop_domain_outcomes fleet "backend-3f2a9c41" 10) as (_ & Htrue & _).
  destruct (Htrue rt' Hstop) as (c & Hfound & _ & _ & _ & Hagain).
  split_and!; [exact Hstop| |exact Hghost|exact (Hnone Hghost)].
  apply Hagain. intros c' Hin Hlab.
  assert (c = spawned "0123456789abcdef0123" "backend" "backend-3f2a9c41" "running"
                (Some "healthy")) as ->.
  { assert (DomainSpawner._find_container_by_domain_id fleet "backend-3f2a9c41"
            = Some (spawned "0123456789abcdef0123" "backend" "backend-3f2a9c41" "running"
                      (Some "healthy"))) as Hc by (vm_compute; reflexivity).
    rewrite Hc in Hfound. by injection Hfound. }
  cbn [fleet Docker.containers] in Hin.
  apply elem_of_cons in Hin as [->|Hin]; [reflexivity|].
  apply elem_of_cons in Hin as [->|Hin]; [vm_compute in Hlab; discriminate|].
  apply list_elem_of_singleton in Hin as ->. vm_compute in Hlab. discriminate.
Defined.


(** ** Discovery *)

Lemma label_keys_distinct :
  DomainSpawner.DOMAIN_LABEL ≠ DomainSpawner.DOMAIN_ID_LABEL
  ∧ DomainSpawner.DOMAIN_LABEL ≠ DomainSpawner.MANAGED_LABEL
  ∧ DomainSpawner.DOMAIN_ID_LABEL ≠ DomainSpawner.MANAGED_LABEL.
Proof. split_and!; intros H; vm_compute in H; discriminate. Qed.

(** The labels a spawn request asks for. *)
Lemma run_request_labels sp domain_type config domain_id :
  let labels := Docker.req_labels
                  (DomainSpawner.run_request sp domain_type config domain_id) in
  labels !! DomainSpawner.DOMAIN_LABEL = Some domain_type
  ∧ labels !! DomainSpawner.DOMAIN_ID_LABEL = Some domain_id
  ∧ labels !! DomainSpawner.MANAGED_LABEL = Some "true".
Proof.
  destruct label_keys_distinct as (H1 & H2 & H3).
  cbn [DomainSpawner.run_request Docker.req_labels]. split_and!.
  - by rewrite lookup_insert_eq.
  - rewrite lookup_insert_ne by done. by rewrite lookup_insert_eq.
  - rewrite lookup_insert_ne by done. rewrite lookup_insert_ne by done.
    fold DomainSpawner.MANAGED_LABEL. by rewrite lookup_singleton_eq.
Qed.

Lemma list_by_labels_listed domain_type rt :
  Docker.list_by_labels
    match domain_type with
    | Some t =>
        if truthy t
        then [(DomainSpawner.MANAGED_LABEL, "true"); (DomainSpawner.DOMAIN_LABEL, t)]
        else [(DomainSpawner.MANAGED_LABEL, "true")]
    | None => [(DomainSpawner.MANAGED_LABEL, "true")]
    end rt
  = filter (is_listed domain_type) (Docker.containers rt).
Proof.
  unfold Docker.list_by_labels. apply list_filter_iff. intros c. unfold is_listed.
  destruct domain_type as [t|].
  - destruct (truthy t) eqn:Ht.
    + apply truthy_true in Ht. rewrite !Forall_cons, Forall_nil. cbn. tauto.
    + assert (t = "") as -> by (unfold truthy in Ht; by destruct (String.eqb_spec t "")).
      rewrite !Forall_cons, Forall_nil. cbn. tauto.
  - rewrite !Forall_cons, Forall_nil. cbn. tauto.
Qed.

Lemma is_domain_healthy_iff (reload : Docker.container → Docker.error + Docker.container)
    (rt : Docker.t) (domain_id now : string) :
  DomainSpawner.is_domain_healthy reload rt domain_id now = true
  ↔ ∃ c, DomainSpawner._find_container_by_domain_id rt domain_id = Some c
         ∧ match reload c with
           | inr fresh =>
               Docker.status fresh = "running"
               ∧ (Docker.health fresh = None ∨ Docker.health fresh = Some "healthy")
           | inl _ => Docker.status c = "running"
           end.
Proof.
  unfold DomainSpawner.is_domain_healthy, DomainSpawner.get_domain,
    DomainSpawner._get_container_health.
  destruct (DomainSpawner._find_container_by_domain_id rt domain_id) as [c|].
  2: { split; [done|]. by intros (c & [=] & _). }
  assert (∀ P : Docker.container → Prop,
            (∃ c0, Some c = Some c0 ∧ P c0) ↔ P c) as Hex.
  { intros P. split; [by intros (c0 & [= <-] & H)|intros H; by exists c]. }
  rewrite Hex. clear Hex.
  destruct (reload c) as [e|fresh]; cbn [DomainInfo.status DomainInfo.health].
  - case_decide as Hst.
    + split; [done|]. by intros ?.
    + by split.
  - case_decide as Hst.
    + split; [done|]. by intros [? _].
    + destruct (Docker.health fresh) as [h|].
      * rewrite bool_decide_eq_true. split.
        -- intros ->. split; [done|by right].
        -- intros [_ [[=]|[= ->]]]. done.
      * split; [|done]. intros _. split; [done|by left].
Qed.

(** X21. [is_domain_healthy] is true exactly when the first container that
    carries the domain's label shows, once refreshed, status "running" and
    either no health or the health "healthy".  When the refresh fails the
    health counts as unknown and the status is the one the listing gave: a
    container listed as running then passes as healthy.  The answer does
    not depend on the time of the call. *)
Theorem is_domain_healthy_spec (reload : Docker.container → Docker.error + Docker.container)
    (rt : Docker.t) (domain_id now : string) :
  DomainSpawner.is_domain_healthy reload rt domain_id now = true
  ↔ ∃ c, DomainSpawner._find_container_by_domain_id rt domain_id = Some c
         ∧ match reload c with
           | inr fresh =>
               Docker.status fresh = "running"
               ∧ (Docker.health fresh = None ∨ Docker.health fresh = Some "healthy")
           | inl _ => Docker.status c = "running"
           end.
Proof. apply is_domain_healthy_iff. Qed.

Lemma list_domains_columns (reload : Docker.container → Docker.error + Docker.container)
    (rt : Docker.t) (domain_type : option string) (clock : nat → string) :
  DomainInfo.domain_id <$> DomainSpawner.list_domains reload rt domain_type clock
    = id_label <$> filter (is_listed domain_type) (Docker.containers rt)
  ∧ DomainSpawner.list_domains reload rt (Some "") clock
    = DomainSpawner.list_domains reload rt None clock
  ∧ ∀ t d, domain_type = Some t → t ≠ "" →
           d ∈ DomainSpawner.list_domains reload rt domain_type clock →
           DomainInfo.domain_type d = t.
Proof.
  split_and!.
  - unfold DomainSpawner.list_domains. rewrite list_by_labels_listed, fmap_imap.
    rewrite <- imap_const. apply imap_ext. intros k c _. cbn.
    by destruct (DomainSpawner._get_container_health reload c).
  - done.
  - intros t d Heq Ht Hd. unfold DomainSpawner.list_domains in Hd.
    rewrite list_by_labels_listed in Hd. subst domain_type.
    apply elem_of_lookup_imap in Hd as (k & c & -> & Hc).
    apply list_elem_of_lookup_2, list_elem_of_filter in Hc as [[_ Htyped] _].
    destruct (DomainSpawner._get_container_health reload c). cbn.
    by rewrite (Htyped Ht).
Qed.

(** X22. The domain ids [list_domains] returns are the id labels of the
    containers that carry the "managed" label, and the domain's label
    whenever a non-empty type is asked for, in the order the runtime lists
    them; a container without id label is listed as "unknown", and a
    refresh that fails drops no entry.  An empty type filters nothing, and
    a listing for a non-empty type holds entries of that type only. *)
Theorem list_domains_ids (reload : Docker.container → Docker.error + Docker.container)
    (rt : Docker.t) (domain_type : option string) (clock : nat → string) :
  DomainInfo.domain_id <$> DomainSpawner.list_domains reload rt domain_type clock
    = id_label <$> filter (is_listed domain_type) (Docker.containers rt)
  ∧ DomainSpawner.list_domains reload rt (Some "") clock
    = DomainSpawner.list_domains reload rt None clock
  ∧ ∀ t d, domain_type = Some t → t ≠ "" →
           d ∈ DomainSpawner.list_domains reload rt domain_type clock →
           DomainInfo.domain_type d = t.
Proof. apply list_domains_columns. Qed.

(** Witness of X22. *)
Lemma list_domains_ids_witness :
  Some "backend" = Some "backend" ∧ "backend" ≠ ""
  ∧ DomainInfo.domain_id <$> DomainSpawner.list_domains unreachable fleet None (λ _, "t0")
    = ["backend-3f2a9c41"; "frontend-00c0ffee"]
  ∧ ∀ d, d ∈ DomainSpawner.list_domains steady fleet (Some "backend") (λ _, "t0") →
         DomainInfo.domain_type d = "backend".
Proof.
  assert ("backend" ≠ "") as Hne by discriminate.
  split_and!; [reflexivity|exact Hne|vm_compute; reflexivity|].
  intros d.
  exact (proj2 (proj2 (list_domains_ids steady fleet (Some "backend") (λ _, "t0")))
           "backend" d eq_refl Hne).
Defined.

(** X23. A container that carries the labels of a spawn request is found
    again: a listing without type and the listing for the request's type
    both hold an entry with the request's domain id and type, and
    [get_domain] on the id returns an entry.  When it is the only container
    with that id label, the entry names this container: its type, and the
    first twelve characters of its id as the refresh shows it. *)
Theorem spawned_container_is_found
    (reload : Docker.container → Docker.error + Docker.container)
    (sp : DomainSpawner.t) (config : DomainConfig.t) (domain_type domain_id now : string)
    (clock : nat → string) (rt : Docker.t) (c : Docker.container) :
  c ∈ Docker.containers rt →
  Docker.labels c
    = Docker.req_labels (DomainSpawner.run_request sp domain_type config domain_id) →
  (∀ listing, listing = None ∨ listing = Some domain_type →
     ∃ d, d ∈ DomainSpawner.list_domains reload rt listing clock
          ∧ DomainInfo.domain_id d = domain_id
          ∧ DomainInfo.domain_type d = domain_type)
  ∧ (∃ d, DomainSpawner.get_domain reload rt domain_id now = Some d
          ∧ DomainInfo.domain_id d = domain_id)
  ∧ ((∀ c', c' ∈ Docker.containers rt →
            Docker.labels c' !! DomainSpawner.DOMAIN_ID_LABEL = Some domain_id → c' = c) →
     ∃ d, DomainSpawner.get_domain reload rt domain_id now = Some d
          ∧ DomainInfo.domain_type d = domain_type
          ∧ DomainInfo.container_id d
            = str_take 12 (Docker.id (DomainSpawner._get_container_health reload c).2)
          ∧ DomainInfo.status d
            = Docker.status (DomainSpawner._get_container_health reload c).2).
Proof.
  intros Hin Hlabels.
  destruct (run_request_labels sp domain_type config domain_id) as (Htype & Hid & Hman).
  cbn zeta in Htype, Hid, Hman. rewrite <- Hlabels in Htype, Hid, Hman.
  assert (∃ c0, DomainSpawner._find_container_by_domain_id rt domain_id = Some c0
                ∧ c0 ∈ Docker.containers rt
                ∧ Docker.labels c0 !! DomainSpawner.DOMAIN_ID_LABEL = Some domain_id)
    as (c0 & Hfound & Hin0 & Hid0).
  { unfold DomainSpawner._find_container_by_domain_id, Docker.list_by_label.
    destruct (filter _ (Docker.containers rt)) as [|c0 l] eqn:Hl.
    - assert (c ∈ filter (λ c1, Docker.labels c1 !! DomainSpawner.DOMAIN_ID_LABEL
                                = Some domain_id) (Docker.containers rt)) as Hc
        by by apply list_elem_of_filter.
      rewrite Hl in Hc. by apply elem_of_nil in Hc.
    - exists c0. split; [done|].
      assert (c0 ∈ filter (λ c1, Docker.labels c1 !! DomainSpawner.DOMAIN_ID_LABEL
                                 = Some domain_id) (Docker.containers rt)) as Hc
        by (rewrite Hl; by left).
      by apply list_elem_of_filter in Hc as [? ?]. }
  split_and!.
  - intros listing Hlisting.
    assert (is_listed listing c) as Hlisted.
    { split; [done|]. by destruct Hlisting as [->| ->]. }
    assert (c ∈ filter (is_listed listing) (Docker.containers rt)) as Hc
      by by apply list_elem_of_filter.
    apply list_elem_of_lookup_1 in Hc as [k Hk].
    eexists. split.
    + unfold DomainSpawner.list_domains. rewrite list_by_labels_listed.
      apply elem_of_lookup_imap. exists k, c. split; [reflexivity|done].
    + destruct (DomainSpawner._get_container_health reload c). cbn.
      by rewrite Hid, Htype.
  - unfold DomainSpawner.get_domain. rewrite Hfound.
    destruct (DomainSpawner._get_container_health reload c0). by eexists.
  - intros Huniq. rewrite (Huniq c0 Hin0 Hid0) in Hfound.
    unfold DomainSpawner.get_domain. rewrite Hfound.
    destruct (DomainSpawner._get_container_health reload c) as [h c']. eexists.
    split; [reflexivity|]. cbn. by rewrite Htype.
Qed.

(** Witness of X21: a refresh that fails leaves the listed status to
    decide. *)
Lemma is_domain_healthy_spec_witness :
  DomainSpawner.is_domain_healthy unreachable fleet "backend-3f2a9c41" "t1" = true
  ∧ DomainSpawner.is_domain_healthy steady fleet "frontend-00c0ffee" "t1" = false.
Proof.
  split.
  - apply (is_domain_healthy_spec unreachable fleet "backend-3f2a9c41" "t1").
    eexists. split; [vm_compute; reflexivity|]. reflexivity.
  - vm_compute. reflexivity.
Defined.

(** Witness of X23. *)
Lemma spawned_container_is_found_witness :
  let c := spawned "0123456789abcdef0123" "backend" "backend-3f2a9c41" "running"
             (Some "healthy") in
  c ∈ Docker.containers fleet
  ∧ (∃ d, d ∈ DomainSpawner.list_domains steady fleet (Some "backend") (λ _, "t0")
          ∧ DomainInfo.domain_id d = "backend-3f2a9c41"
          ∧ DomainInfo.domain_type d = "backend")
  ∧ ∃ d, DomainSpawner.get_domain steady fleet "backend-3f2a9c41" "t1" = Some d
         ∧ DomainInfo.domain_id d = "backend-3f2a9c41".
Proof.
  intros c.
  assert (c ∈ Docker.containers fleet) as Hin by (cbn; by left).
  destruct (spawned_container_is_found steady sample_spawner
              (DomainSpawner.default_config sample_spawner "backend") "backend"
              "backend-3f2a9c41" "t1" (λ _, "t0") fleet c Hin eq_refl)
    as (Hlist & Hget & _).
  split_and!; [exact Hin|exact (Hlist (Some "backend") (or_intror eq_refl))|exact Hget].
Defined.

(** ** Cleanup *)

Lemma NoDup_fmap_inj_on {A B} (f : A → B) (l : list A) x y :
  NoDup (f <$> l) → x ∈ l → y ∈ l → f x = f y → x = y.
Proof.
  intros Hnd [i Hi]%list_elem_of_lookup_1 [j Hj]%list_elem_of_lookup_1 Hxy.
  assert (i = j) as ->.
  { apply (NoDup_lookup (f <$> l) i j (f x)); [done| |].
    - by rewrite list_lookup_fmap, Hi.
    - by rewrite list_lookup_fmap, Hj, Hxy. }
  congruence.
Qed.

Lemma NoDup_omap_inj_on {A B} (f : A → option B) (l : list A) x y v :
  NoDup l → NoDup (omap f l) → x ∈ l → y ∈ l → f x = Some v → f y = Some v → x = y.
Proof.
  induction l as [|a l IH]; intros Hl Hnd Hx Hy Hfx Hfy; [by apply elem_of_nil in Hx|].
  apply NoDup_cons in Hl as [Ha Hl].
  assert (∀ z, z ∈ l → f z = Some v → v ∈ omap f l) as Hmem.
  { intros z Hz Hfz. apply list_elem_of_omap. by exists z. }
  apply elem_of_cons in Hx as [->|Hx]; apply elem_of_cons in Hy as [->|Hy]; [done| | |].
  - exfalso. cbn in Hnd. rewrite Hfx in Hnd. apply NoDup_cons in Hnd as [Hv _].
    by apply Hv, (Hmem y).
  - exfalso. cbn in Hnd. rewrite Hfy in Hnd. apply NoDup_cons in Hnd as [Hv _].
    by apply Hv, (Hmem x).
  - apply IH; [done| |done..]. cbn in Hnd. destruct (f a); [|done].
    by apply NoDup_cons in Hnd as [_ ?].
Qed.

Lemma fmap_filter_imap {A B C} (g : B → C) (h : A → C)
    (P : B → Prop) `{∀ x, Decision (P x)} (Q : A → Prop) `{∀ x, Decision (Q x)}
    (l : list A) :
  ∀ f : nat → A → B,
    (∀ k a, P (f k a) ↔ Q a) → (∀ k a, g (f k a) = h a) →
    g <$> filter P (imap f l) = h <$> filter Q l.
Proof.
  induction l as [|a l IH]; intros f HP Hg; [done|].
  cbn [imap]. rewrite !filter_cons.
  destruct (decide (P (f 0 a))) as [Hp|Hp]; destruct (decide (Q a)) as [Hq|Hq].
  - cbn. rewrite Hg. f_equal. apply IH; [intros k b; apply HP|intros k b; apply Hg].
  - by apply (HP 0 a) in Hp.
  - by apply (HP 0 a) in Hq.
  - apply IH; [intros k b; apply HP|intros k b; apply Hg].
Qed.

Lemma orderly_tidy rt : orderly rt → tidy rt.
Proof.
  intros [Hs Hr Hids Hlabels _].
  assert (NoDup (Docker.containers rt)) as Hnd
    by exact (NoDup_fmap_1 Docker.id _ Hids).
  split; [done|done| |].
  - intros c1 c2 H1 H2. exact (NoDup_fmap_inj_on Docker.id _ c1 c2 Hids H1 H2).
  - intros c1 c2 x H1 H2 Hx1 Hx2.
    by apply (NoDup_omap_inj_on
                (λ c, Docker.labels c !! DomainSpawner.DOMAIN_ID_LABEL)
                (Docker.containers rt) c1 c2 x).
Qed.

Lemma tidy_without c rt : tidy rt → tidy (without c rt).
Proof.
  intros [Hs Hr Hids Hlabels]. split; [done|done| |]; cbn [without Docker.containers].
  - intros c1 c2 [_ H1]%list_elem_of_filter [_ H2]%list_elem_of_filter. by apply Hids.
  - intros c1 c2 x [_ H1]%list_elem_of_filter [_ H2]%list_elem_of_filter.
    by apply Hlabels.
Qed.

Lemma find_container_unique rt c x :
  tidy rt → c ∈ Docker.containers rt →
  Docker.labels c !! DomainSpawner.DOMAIN_ID_LABEL = Some x →
  DomainSpawner._find_container_by_domain_id rt x = Some c.
Proof.
  intros Htidy Hin Hx.
  unfold DomainSpawner._find_container_by_domain_id, Docker.list_by_label.
  destruct (filter _ (Docker.containers rt)) as [|c0 l] eqn:Hl.
  - assert (c ∈ filter (λ c1, Docker.labels c1 !! DomainSpawner.DOMAIN_ID_LABEL = Some x)
                  (Docker.containers rt)) as Hc by by apply list_elem_of_filter.
    rewrite Hl in Hc. by apply elem_of_nil in Hc.
  - assert (c0 ∈ filter (λ c1, Docker.labels c1 !! DomainSpawner.DOMAIN_ID_LABEL = Some x)
                   (Docker.containers rt)) as Hc by (rewrite Hl; by left).
    apply list_elem_of_filter in Hc as [Hx0 Hin0]. cbn. f_equal.
    by apply (tidy_labels rt Htidy c0 c x).
Qed.

Lemma stop_domain_tidy rt c x timeout :
  tidy rt → c ∈ Docker.containers rt →
  Docker.labels c !! DomainSpawner.DOMAIN_ID_LABEL = Some x →
  DomainSpawner.stop_domain rt x timeout = (Return true, without c rt).
Proof.
  intros Htidy Hin Hx. unfold DomainSpawner.stop_domain.
  rewrite (find_container_unique rt c x Htidy Hin Hx).
  by rewrite (tidy_stop rt Htidy), (tidy_remove rt Htidy).
Qed.

Lemma stop_each_removes timeout (cs : list Docker.container) :
  ∀ rt,
    tidy rt → NoDup cs →
    (∀ c, c ∈ cs → c ∈ Docker.containers rt
                   ∧ is_Some (Docker.labels c !! DomainSpawner.DOMAIN_ID_LABEL)) →
    ∃ rt', DomainSpawner.stop_each rt (id_label <$> cs) timeout
           = (Return (id_label <$> cs), rt')
           ∧ ∀ c, c ∈ Docker.containers rt' ↔ c ∈ Docker.containers rt ∧ c ∉ cs.
Proof.
  induction cs as [|c cs IH]; intros rt Htidy Hnd Hcs.
  { exists rt. split; [done|]. intros c. rewrite elem_of_nil. tauto. }
  apply NoDup_cons in Hnd as [Hc Hnd].
  destruct (Hcs c) as [Hin [x Hx]]; [by left|].
  assert (id_label c = x) as Hid by (unfold id_label; by rewrite Hx).
  destruct (IH (without c rt)) as (rt' & Heach & Hleft);
    [by apply tidy_without|done| |].
  { intros c' Hc'. destruct (Hcs c') as [Hin' Hlab']; [by right|]. split; [|done].
    cbn [without Docker.containers]. apply list_elem_of_filter. split; [|done].
    intros Heq. apply Hc. by rewrite <- (tidy_ids rt Htidy c' c Hin' Hin Heq). }
  exists rt'. split.
  - cbn [fmap list_fmap DomainSpawner.stop_each]. change (list_fmap _ _ id_label cs) with (id_label <$> cs).
    rewrite Hid, (stop_domain_tidy rt c x timeout Htidy Hin Hx), Heach. done.
  - intros c0. rewrite Hleft. cbn [without Docker.containers].
    rewrite list_elem_of_filter, elem_of_cons. split.
    + intros [[Hne Hin0] Hnot]. split; [done|]. intros [->|?]; [by apply Hne|done].
    + intros [Hin0 Hnot]. split_and!; [|done|].
      * intros Heq. apply Hnot. left. by apply (tidy_ids rt Htidy c0 c).
      * intros ?. apply Hnot. by right.
Qed.

(** X24. In a runtime that obeys every stop and remove, where every
    container has its own id, no two containers share a domain-id label
    and every managed container has one: [cleanup_all] returns the ids of
    all managed containers, in listing order, and leaves exactly the
    containers that are not managed; [cleanup_stopped] returns the ids of
    the managed containers whose refreshed status is "exited" or "dead"
    and leaves all the others. *)
Theorem cleanup_removes_managed
    (reload : Docker.container → Docker.error + Docker.container)
    (rt : Docker.t) (timeout : Z) (clock : nat → string) :
  orderly rt →
  let ended c := Docker.status (refreshed reload c) = "exited"
                 ∨ Docker.status (refreshed reload c) = "dead" in
  (∃ rt', DomainSpawner.cleanup_all reload rt timeout clock
          = (Return (id_label <$> filter (is_listed None) (Docker.containers rt)), rt')
          ∧ ∀ c, c ∈ Docker.containers rt' ↔
                 c ∈ Docker.containers rt ∧ ¬ is_listed None c)
  ∧ (∃ rt', DomainSpawner.cleanup_stopped reload rt clock
            = (Return (id_label <$> filter (λ c, is_listed None c ∧ ended c)
                                           (Docker.containers rt)), rt')
            ∧ ∀ c, c ∈ Docker.containers rt' ↔
                   c ∈ Docker.containers rt ∧ ¬ (is_listed None c ∧ ended c)).
Proof.
  intros Horderly ended. pose proof (orderly_tidy rt Horderly) as Htidy.
  assert (NoDup (Docker.containers rt)) as Hnd
    by (destruct Horderly as [_ _ Hids _ _]; exact (NoDup_fmap_1 Docker.id _ Hids)).
  split.
  - unfold DomainSpawner.cleanup_all.
    rewrite (proj1 (list_domains_columns reload rt None clock)).
    destruct (stop_each_removes timeout (filter (is_listed None) (Docker.containers rt)) rt)
      as (rt' & Heach & Hleft); [done|by apply NoDup_filter| |].
    { intros c [Hc Hin]%list_elem_of_filter. split; [done|].
      by apply (managed_labelled rt Horderly). }
    exists rt'. split; [done|]. intros c. rewrite Hleft, list_elem_of_filter. tauto.
  - unfold DomainSpawner.cleanup_stopped, DomainSpawner.list_domains.
    rewrite (list_by_labels_listed None).
    rewrite (fmap_filter_imap DomainInfo.domain_id id_label _ ended
               (filter (is_listed None) (Docker.containers rt))).
    2: { intros k c. unfold ended, refreshed.
         by destruct (DomainSpawner._get_container_health reload c). }
    2: { intros k c. by destruct (DomainSpawner._get_container_health reload c). }
    rewrite list_filter_filter.
    destruct (stop_each_removes 10
                (filter (λ c, ended c ∧ is_listed None c) (Docker.containers rt)) rt)
      as (rt' & Heach & Hleft); [done|by apply NoDup_filter| |].
    { intros c [[_ Hc] Hin]%list_elem_of_filter. split; [done|].
      by apply (managed_labelled rt Horderly). }
    exists rt'. split.
    + rewrite Heach. do 3 f_equal. apply list_filter_iff. intros c. tauto.
    + intros c. rewrite Hleft, list_elem_of_filter. tauto.
Qed.

Lemma fleet_orderly : orderly fleet.
Proof.
  split.
  - reflexivity.
  - reflexivity.
  - apply (bool_decide_unpack _). vm_compute. exact I.
  - apply (bool_decide_unpack _). vm_compute. exact I.
  - intros c Hin Hlisted. cbn [fleet Docker.containers] in Hin.
    apply elem_of_cons in Hin as [->|Hin]; [eexists; vm_compute; reflexivity|].
    apply elem_of_cons in Hin as [->|Hin]; [eexists; vm_compute; reflexivity|].
    apply list_elem_of_singleton in Hin as ->.
    destruct Hlisted as [Hmanaged _]. vm_compute in Hmanaged. discriminate.
Qed.

(** Witness of X24. *)
Lemma cleanup_removes_managed_witness :
  orderly fleet
  ∧ ∃ rt', DomainSpawner.cleanup_all steady fleet 10 (λ _, "t0")
           = (Return ["backend-3f2a9c41"; "frontend-00c0ffee"], rt')
           ∧ ∀ c, c ∈ Docker.containers rt' ↔
                  c ∈ Docker.containers fleet ∧ ¬ is_listed None c.
Proof.
  pose proof fleet_orderly as Horderly.
  split; [exact Horderly|].
  destruct (cleanup_removes_managed steady fleet 10 (λ _, "t0") Horderly)
    as [(rt' & Hall & Hleft) _].
  exists rt'. split; [|exact Hleft].
  rewrite Hall. f_equal.
Defined.

(** An entry of a listing, and the container it was built from. *)
Lemma list_domains_entry reload rt domain_type clock d :
  d ∈ DomainSpawner.list_domains reload rt domain_type clock →
  ∃ c, c ∈ Docker.containers rt
       ∧ is_listed domain_type c
       ∧ DomainInfo.domain_id d = id_label c
       ∧ DomainInfo.status d = Docker.status (refreshed reload c)
       ∧ DomainInfo.health d = (DomainSpawner._get_container_health reload c).1.
Proof.
  unfold DomainSpawner.list_domains. rewrite list_by_labels_listed.
  intros (k & c & -> & Hc)%elem_of_lookup_imap.
  apply list_elem_of_lookup_2, list_elem_of_filter in Hc as [Hlisted Hin].
  exists c. unfold refreshed.
  by destruct (DomainSpawner._get_container_health reload c).
Qed.

Lemma is_listed_None domain_type c : is_listed domain_type c → is_listed None c.
Proof. by intros [? _]. Qed.

(** An entry of a listing of an orderly runtime is healthy exactly when it
    shows so itself. *)
Lemma is_domain_healthy_entry reload rt domain_type clock now d :
  orderly rt →
  d ∈ DomainSpawner.list_domains reload rt domain_type clock →
  DomainSpawner.is_domain_healthy reload rt (DomainInfo.domain_id d) now = true
  ↔ DomainInfo.status d = "running"
    ∧ (DomainInfo.health d = None ∨ DomainInfo.health d = Some "healthy").
Proof.
  intros Horderly Hd.
  destruct (list_domains_entry _ _ _ _ _ Hd) as (c & Hin & Hlisted & Hid & Hst & Hh).
  destruct (managed_labelled rt Horderly c Hin (is_listed_None _ _ Hlisted)) as [x Hx].
  assert (id_label c = x) as Hidx by (unfold id_label; by rewrite Hx).
  rewrite is_domain_healthy_iff, Hid, Hidx.
  rewrite (find_container_unique rt c x (orderly_tidy rt Horderly) Hin Hx).
  rewrite Hst, Hh. unfold refreshed, DomainSpawner._get_container_health.
  split.
  - intros (c0 & [= <-] & Hc0). destruct (reload c) as [e|fresh]; cbn [fst snd].
    + split; [done|by left].
    + done.
  - intros [Hrun Hhealth]. exists c. split; [done|].
    by destruct (reload c) as [e|fresh].
Qed.

Lemma find_first {A} (p : A → bool) (l : list A) x :
  List.find p l = Some x →
  p x = true
  ∧ ∃ k, l !! k = Some x ∧ ∀ j y, (j < k)%nat → l !! j = Some y → p y = false.
Proof.
  induction l as [|a l IH]; [done|]. cbn [List.find]. destruct (p a) eqn:Ha.
  - intros [= <-]. split; [done|]. exists 0%nat. split; [done|]. intros j y Hj. lia.
  - intros Hfound. destruct (IH Hfound) as (Hx & k & Hk & Hbefore). split; [done|].
    exists (S k). split; [done|]. intros [|j] y Hj Hy.
    + by injection Hy as <-.
    + apply (Hbefore j); [lia|done].
Qed.

Lemma find_none_iff {A} (p : A → bool) (l : list A) :
  List.find p l = None ↔ ∀ y, y ∈ l → p y = false.
Proof.
  induction l as [|a l IH]; cbn [List.find].
  - split; [|done]. intros _ y Hy. by apply elem_of_nil in Hy.
  - destruct (p a) eqn:Ha.
    + split; [done|]. intros Hall. rewrite Hall in Ha; [done|by left].
    + rewrite IH. split.
      * intros Hall y [->|Hy]%elem_of_cons; [done|by apply Hall].
      * intros Hall y Hy. apply Hall. by right.
Qed.

(** X25. In an orderly runtime, the entry [get_healthy_domain] returns is
    the first entry of the listing for the type that shows status
    "running" and either no health or the health "healthy"; it returns
    none exactly when the listing has no such entry. *)
Theorem get_healthy_domain_sound
    (reload : Docker.container → Docker.error + Docker.container)
    (rt : Docker.t) (domain_type : string) (clock : nat → string) (now : string) :
  orderly rt →
  let listing := DomainSpawner.list_domains reload rt (Some domain_type) clock in
  let fit d := DomainInfo.status d = "running"
               ∧ (DomainInfo.health d = None ∨ DomainInfo.health d = Some "healthy") in
  (∀ d, DomainSpawner.get_healthy_domain reload rt domain_type clock now = Some d →
     fit d
     ∧ (domain_type ≠ "" → DomainInfo.domain_type d = domain_type)
     ∧ ∃ k, listing !! k = Some d
            ∧ ∀ j d', (j < k)%nat → listing !! j = Some d' → ¬ fit d')
  ∧ (DomainSpawner.get_healthy_domain reload rt domain_type clock now = None
     ↔ ∀ d, d ∈ listing → ¬ fit d).
Proof.
  intros Horderly listing fit.
  assert (∀ d, d ∈ listing →
            DomainSpawner.is_domain_healthy reload rt (DomainInfo.domain_id d) now = true
            ↔ fit d) as Hfit
    by (intros d Hd; by apply (is_domain_healthy_entry reload rt (Some domain_type) clock)).
  unfold DomainSpawner.get_healthy_domain. fold listing. split.
  - intros d Hfound. apply find_first in Hfound as (Hd & k & Hk & Hbefore).
    assert (d ∈ listing) as Hin by by apply list_elem_of_lookup_2 in Hk.
    split_and!.
    + by apply Hfit.
    + intros Hne.
      by apply (proj2 (proj2 (list_domains_columns reload rt (Some domain_type) clock))
                  domain_type d).
    + exists k. split; [done|]. intros j d' Hj Hd' Hfit'.
      assert (d' ∈ listing) as Hin' by by apply list_elem_of_lookup_2 in Hd'.
      apply Hfit in Hfit'; [|done]. by rewrite (Hbefore j d' Hj Hd') in Hfit'.
  - rewrite find_none_iff. split.
    + intros Hall d Hd Hfit'. apply Hfit in Hfit'; [|done]. by rewrite (Hall d Hd) in Hfit'.
    + intros Hall d Hd.
      destruct (DomainSpawner.is_domain_healthy reload rt (DomainInfo.domain_id d) now)
        eqn:Hh; [|done].
      exfalso. apply (Hall d Hd). by apply Hfit.
Qed.

(** Witness of X25. *)
Lemma get_healthy_domain_sound_witness :
  orderly fleet
  ∧ (∃ d, DomainSpawner.get_healthy_domain steady fleet "backend" (λ _, "t0") "t1" = Some d
          ∧ DomainInfo.status d = "running")
  ∧ DomainSpawner.get_healthy_domain steady fleet "frontend" (λ _, "t0") "t1" = None.
Proof.
  pose proof fleet_orderly as Horderly.
  destruct (get_healthy_domain_sound steady fleet "backend" (λ _, "t0") "t1" Horderly)
    as [Hsome _].
  split_and!; [exact Horderly| |vm_compute; reflexivity].
  eexists. split; [vm_compute; reflexivity|].
  refine (proj1 (proj1 (Hsome _ _))). vm_compute. reflexivity.
Defined.

(** ** The runner *)

Section runner_facts.
Context {C : Codec}.
Variable build_prompt : dict → string + string.
Variable claude : string → DomainRunner.process.

Lemma logged_more_refl task_id r : logged_more task_id r r.
Proof. split_and!; [done..|]. exists []. by rewrite app_nil_r. Qed.

Lemma logged_more_trans task_id r1 r2 r3 :
  logged_more task_id r1 r2 → logged_more task_id r2 r3 → logged_more task_id r1 r3.
Proof.
  intros (Hh & Hs & Hst & Hl & m & Hm) (Hh' & Hs' & Hst' & Hl' & m' & Hm').
  split_and!; [congruence..| |].
  - intros k Hk. by rewrite Hl', Hl.
  - exists (m ++ m'). by rewrite Hm', Hm, app_assoc.
Qed.

Lemma logged_more_add_log task_id entry now r :
  logged_more task_id r (AgentMessaging.add_log task_id entry now r).
Proof.
  split_and!; [done..| |].
  - intros k Hk. by apply lrange_rpush_ne.
  - eexists. apply lrange_rpush_eq.
Qed.

Lemma logged_more_read_lines task_id lines :
  ∀ n clock r, logged_more task_id r (DomainRunner.read_lines task_id lines n clock r).
Proof.
  induction lines as [|line lines IH]; intros n clock r; cbn [DomainRunner.read_lines].
  - apply logged_more_refl.
  - case_decide; [|apply IH].
    eapply logged_more_trans; [apply logged_more_add_log|apply IH].
Qed.

Lemma logged_more_run_claude prompt task_id clock r :
  logged_more task_id r (DomainRunner._run_claude claude prompt task_id clock r).2.
Proof.
  unfold DomainRunner._run_claude.
  destruct (DomainRunner.ended (claude prompt)) as [code| |msg]; [case_decide|..];
    apply logged_more_read_lines.
Qed.

Lemma run_claude_success prompt task_id clock r :
  DomainRunner.success (DomainRunner._run_claude claude prompt task_id clock r).1 = true
  ↔ DomainRunner.ended (claude prompt) = DomainRunner.Exited 0.
Proof.
  unfold DomainRunner._run_claude.
  destruct (DomainRunner.ended (claude prompt)) as [code| |msg]; [case_decide|..];
    cbn; split; try done; try congruence.
Qed.

(** What [process_task] comes to: some log entries, one result, and the
    task's entry taken off the active list. *)
Lemma process_task_shape runner task clock r :
  ∃ output status error now r2,
    DomainRunner.process_task build_prompt claude runner task clock r
    = AgentMessaging.complete_task (DomainRunner.domain_type runner) task
        (AgentMessaging.publish_result (TaskMessage.task_id task) output status error now r2)
    ∧ logged_more (TaskMessage.task_id task)
        (AgentMessaging.add_log (TaskMessage.task_id task)
           ("Task received by " +:+ DomainRunner.agent_id runner) (clock 0%nat) r) r2
    ∧ (finished build_prompt claude task → status = "completed")
    ∧ (¬ finished build_prompt claude task → status = "failed")
    ∧ (status = "completed" ∨ status = "failed").
Proof.
  unfold DomainRunner.process_task, finished.
  destruct (build_prompt (TaskMessage.payload task)) as [prompt|e].
  - destruct (DomainRunner._run_claude claude prompt (TaskMessage.task_id task) _ _)
      as [result r2] eqn:Hrun.
    pose proof (logged_more_run_claude prompt (TaskMessage.task_id task)
                  (λ k, clock (2 + k)%nat)
                  (AgentMessaging.add_log (TaskMessage.task_id task)
                     "Starting Claude Code execution" (clock 1%nat)
                     (AgentMessaging.add_log (TaskMessage.task_id task)
                        ("Task received by " +:+ DomainRunner.agent_id runner)
                        (clock 0%nat) r))) as Hmore.
    pose proof (run_claude_success prompt (TaskMessage.task_id task)
                  (λ k, clock (2 + k)%nat)
                  (AgentMessaging.add_log (TaskMessage.task_id task)
                     "Starting Claude Code execution" (clock 1%nat)
                     (AgentMessaging.add_log (TaskMessage.task_id task)
                        ("Task received by " +:+ DomainRunner.agent_id runner)
                        (clock 0%nat) r))) as Hsucc.
    rewrite Hrun in Hmore, Hsucc. cbn [fst snd] in Hmore, Hsucc.
    assert (logged_more (TaskMessage.task_id task)
              (AgentMessaging.add_log (TaskMessage.task_id task)
                 ("Task received by " +:+ DomainRunner.agent_id runner) (clock 0%nat) r) r2)
      as Hr2.
    { eapply logged_more_trans; [apply logged_more_add_log|exact Hmore]. }
    destruct (DomainRunner.success result) eqn:Hs.
    + do 5 eexists. split_and!; [reflexivity|exact Hr2|done| |by left].
      intros Hnot. exfalso. apply Hnot. exists prompt. split; [done|by apply Hsucc].
    + do 5 eexists. split_and!; [reflexivity|exact Hr2| |done|by right].
      intros (p & [= <-] & Hp). apply Hsucc in Hp. congruence.
  - do 5 eexists. split_and!; [reflexivity|apply logged_more_refl| |done|by right].
    by intros (p & [=] & _).
Qed.

Lemma get_result_same_hashes task_id timeout r r' :
  Redis.hashes r' = Redis.hashes r →
  AgentMessaging.get_result task_id timeout r' = AgentMessaging.get_result task_id timeout r.
Proof. intros H. unfold AgentMessaging.get_result, Redis.hgetall. by rewrite H. Qed.

Lemma process_task_facts `{!CodecLaws C} (runner : DomainRunner.t)
    (task : TaskMessage.t) (clock : nat → string) (r : Redis.t) (tid : string) :
  let task_id := TaskMessage.task_id task in
  let d := DomainRunner.domain_type runner in
  let r' := DomainRunner.process_task build_prompt claude runner task clock r in
  Redis.hgetall (AgentMessaging.result_key task_id) r !! "task_id" = Some tid →
  (∃ res, AgentMessaging.get_result task_id 0 r' = Return (Some res)
          ∧ TaskResult.task_id res = tid
          ∧ (finished build_prompt claude task → TaskResult.status res = "completed")
          ∧ (¬ finished build_prompt claude task → TaskResult.status res = "failed")
          ∧ AgentMessaging.is_terminal_status (TaskResult.status res) = true
          ∧ is_Some (TaskResult.output res)
          ∧ is_Some (TaskResult.completed_at res)
          ∧ TaskResult.started_at res
            = Redis.hgetall (AgentMessaging.result_key task_id) r !! "started_at")
  ∧ tracked task_id r'
  ∧ active d r' = Redis.remove_first (to_json task) (active d r)
  ∧ (∀ d', pending d' r' = pending d' r)
  ∧ (∀ d', d' ≠ d → active d' r' = active d' r)
  ∧ (∀ other, other ≠ task_id →
       Redis.hgetall (AgentMessaging.result_key other) r'
       = Redis.hgetall (AgentMessaging.result_key other) r)
  ∧ ∃ more, AgentMessaging.get_logs task_id r'
            = AgentMessaging.get_logs task_id r
              ++ ("[" +:+ clock 0%nat +:+ "] Task received by "
                  +:+ DomainRunner.agent_id runner) :: more.
Proof.
  intros task_id d r' Htid. subst r'.
  destruct (process_task_shape runner task clock r)
    as (output & status & error & now & r2 & -> & Hmore & Hdone & Hfail & Hterm).
  fold task_id d in Hmore |- *.
  assert (logged_more task_id r r2) as Hr2
    by (eapply logged_more_trans; [apply logged_more_add_log|exact Hmore]).
  destruct Hr2 as (Hh & _ & _ & Hl & _).
  destruct Hmore as (_ & _ & _ & _ & more & Hlogs).
  assert (∀ key, Redis.hgetall key r2 = Redis.hgetall key r) as Hhg
    by (intros key; unfold Redis.hgetall; by rewrite Hh).
  destruct (complete_task_lists d task
              (AgentMessaging.publish_result task_id output status error now r2))
    as (Hpend & Hact & Hact').
  split_and!.
  - rewrite (get_result_same_hashes task_id 0
               (AgentMessaging.publish_result task_id output status error now r2))
      by done.
    rewrite (get_result_publish_result task_id output status error now 0 r2 tid)
      by by rewrite Hhg.
    eexists. split; [reflexivity|]. cbn. rewrite Hhg. split_and!; try done.
    unfold AgentMessaging.is_terminal_status. by apply bool_decide_eq_true.
  - unfold tracked.
    change (Redis.hgetall ?k (AgentMessaging.complete_task _ _ ?s)) with (Redis.hgetall k s).
    rewrite hgetall_publish_result.
    destruct (result_fields output status error now
                (Redis.hgetall (AgentMessaging.result_key task_id) r2))
      as (_ & _ & _ & _ & Hkeep & _).
    cbn zeta in Hkeep. rewrite Hkeep, Hhg, Htid. by eexists.
  - rewrite Hact. unfold active, AgentMessaging.publish_result.
    rewrite lrange_publish, lrange_hset. f_equal. apply Hl, not_eq_sym, logs_key_ne_active.
  - intros d'. rewrite Hpend. unfold pending, AgentMessaging.publish_result.
    rewrite lrange_publish, lrange_hset. apply Hl, not_eq_sym, logs_key_ne_pending.
  - intros d' Hd'. rewrite (Hact' d' Hd'). unfold active, AgentMessaging.publish_result.
    rewrite lrange_publish, lrange_hset. apply Hl, not_eq_sym, logs_key_ne_active.
  - intros other Hother.
    change (Redis.hgetall ?k (AgentMessaging.complete_task _ _ ?s)) with (Redis.hgetall k s).
    unfold AgentMessaging.publish_result. rewrite hgetall_publish, hgetall_hset_ne.
    + apply Hhg.
    + intros Heq. apply Hother. by apply (inj AgentMessaging.result_key) in Heq.
  - exists more.
    change (AgentMessaging.get_logs task_id (AgentMessaging.complete_task d task ?s))
      with (Redis.lrange (AgentMessaging.logs_key task_id)
              (Redis.lrem1 (AgentMessaging.active_key d) (to_json task) s)).
    rewrite lrange_lrem1_ne by apply not_eq_sym, logs_key_ne_active.
    unfold AgentMessaging.publish_result. rewrite lrange_publish, lrange_hset.
    fold (AgentMessaging.get_logs task_id r2). rewrite Hlogs.
    unfold AgentMessaging.get_logs at 1, AgentMessaging.add_log.
    rewrite lrange_rpush_eq. by rewrite <- app_assoc.
Qed.


(** X26. [process_task] always leaves a terminal result: "completed" when
    the prompt could be built and the tool exited with code 0, "failed" in
    every other case, an exception while building the prompt included.
    The record keeps its identifier and its start time and gains an output
    and a completion time.  The task's entry is taken off the active list
    of the runner's domain, no pending list and no other task's record
    changes, and the task's log gains, first of all, the entry that the
    agent received it. *)
Theorem process_task_settles `{!CodecLaws C} (runner : DomainRunner.t)
    (task : TaskMessage.t) (clock : nat → string) (r : Redis.t) (tid : string) :
  let task_id := TaskMessage.task_id task in
  let d := DomainRunner.domain_type runner in
  let r' := DomainRunner.process_task build_prompt claude runner task clock r in
  Redis.hgetall (AgentMessaging.result_key task_id) r !! "task_id" = Some tid →
  (∃ res, AgentMessaging.get_result task_id 0 r' = Return (Some res)
          ∧ TaskResult.task_id res = tid
          ∧ (finished build_prompt claude task → TaskResult.status res = "completed")
          ∧ (¬ finished build_prompt claude task → TaskResult.status res = "failed")
          ∧ is_Some (TaskResult.output res)
          ∧ is_Some (TaskResult.completed_at res)
          ∧ TaskResult.started_at res
            = Redis.hgetall (AgentMessaging.result_key task_id) r !! "started_at")
  ∧ active d r' = Redis.remove_first (to_json task) (active d r)
  ∧ (∀ d', pending d' r' = pending d' r)
  ∧ (∀ d', d' ≠ d → active d' r' = active d' r)
  ∧ (∀ other, other ≠ task_id →
       Redis.hgetall (AgentMessaging.result_key other) r'
       = Redis.hgetall (AgentMessaging.result_key other) r)
  ∧ ∃ more, AgentMessaging.get_logs task_id r'
            = AgentMessaging.get_logs task_id r
              ++ ("[" +:+ clock 0%nat +:+ "] Task received by "
                  +:+ DomainRunner.agent_id runner) :: more.
Proof.
  intros task_id d r' Htid.
  destruct (process_task_facts runner task clock r tid Htid)
    as ((res & Hres & Hid & Hdone & Hfail & _ & Hout & Hca & Hsa)
        & _ & Hact & Hpend & Hact' & Hother & Hlogs).
  split_and!; [|done..]. exists res. by split_and!.
Qed.

End runner_facts.

Section runner_turns.
Context `{!CodecLaws C}.
Variable build_prompt : dict → string + string.
Variable claude : string → DomainRunner.process.

Lemma remove_first_other v x l : x ∈ l → x ≠ v → x ∈ Redis.remove_first v l.
Proof.
  induction l as [|y l IH]; intros Hx Hne; [done|]. cbn. case_decide as Hy.
  - apply elem_of_cons in Hx as [->|Hx]; [congruence|done].
  - apply elem_of_cons in Hx as [->|Hx]; [by left|right; by apply IH].
Qed.

Lemma remove_first_head v l : Redis.remove_first v (v :: l) = l.
Proof. cbn. by rewrite decide_True. Qed.

Lemma lists_process_task runner task clock r :
  let d := DomainRunner.domain_type runner in
  let r' := DomainRunner.process_task build_prompt claude runner task clock r in
  pending d r' = pending d r
  ∧ active d r' = Redis.remove_first (to_json task) (active d r).
Proof.
  intros d r'. subst r'.
  destruct (process_task_shape build_prompt claude runner task clock r)
    as (output & status & error & now & r2 & -> & Hmore & _).
  assert (logged_more (TaskMessage.task_id task) r r2) as (_ & _ & _ & Hl & _)
    by (eapply logged_more_trans; [apply logged_more_add_log|exact Hmore]).
  destruct (complete_task_lists d task
              (AgentMessaging.publish_result (TaskMessage.task_id task) output status error
                 now r2)) as (Hpend & Hact & _).
  fold d. rewrite Hpend, Hact. unfold pending, active, AgentMessaging.publish_result.
  rewrite !lrange_publish, !lrange_hset. split.
  - apply Hl, not_eq_sym, logs_key_ne_pending.
  - f_equal. apply Hl, not_eq_sym, logs_key_ne_active.
Qed.

(** A turn either finds the queue empty, or moves its last entry to the
    head of the active list and then, at most, processes a task. *)
Lemma turn_lists runner clock r :
  let d := DomainRunner.domain_type runner in
  let r' := DomainRunner.turn build_prompt claude runner clock r in
  (pending d r = [] ∧ pending d r' = [] ∧ active d r' = active d r)
  ∨ ∃ q raw, pending d r = q ++ [raw] ∧ pending d r' = q
             ∧ (active d r' = raw :: active d r
                ∨ ∃ task, active d r'
                          = Redis.remove_first (to_json task) (raw :: active d r)).
Proof.
  intros d r'. subst r'. unfold DomainRunner.turn. fold d.
  pose proof (get_next_task_lists d 5 (clock 0%nat) r) as Hlists. cbn zeta in Hlists.
  destruct Hlists as [[Hq Hsame]|(q & raw & Hq & Hq' & Hact & _)].
  - left. rewrite (get_next_task_empty d 5 (clock 0%nat) r Hq). by split_and!.
  - right. exists q, raw. split; [done|].
    destruct (AgentMessaging.get_next_task d 5 (clock 0%nat) r) as [[[task|]|e] r1];
      cbn [snd] in Hq', Hact.
    + destruct (lists_process_task runner task (clock ∘ S) r1) as [Hp Ha].
      fold d in Hp, Ha. rewrite Hp, Ha, Hact. split; [done|]. right. by exists task.
    + split; [done|]. by left.
    + split; [done|]. by left.
Qed.

(** X27. A queue entry that is not the exact serialised form of a task is
    never cleared: the turn that takes it moves it to the active list,
    whether it then fails to parse or parses to a task that serialises
    differently, and no later turn takes it off that list. *)
Theorem foreign_entry_stays (runner : DomainRunner.t) (raw : string) :
  (∀ task, raw ≠ to_json task) →
  let d := DomainRunner.domain_type runner in
  (∀ clock r q, pending d r = q ++ [raw] →
     pending d (DomainRunner.turn build_prompt claude runner clock r) = q
     ∧ raw ∈ active d (DomainRunner.turn build_prompt claude runner clock r))
  ∧ (∀ turns clocks r, raw ∈ active d r →
       raw ∈ active d (DomainRunner.run build_prompt claude runner turns clocks r)).
Proof.
  intros Hraw d. subst d.
  assert (∀ task l, raw ∈ l → raw ∈ Redis.remove_first (to_json task) l) as Hstays
    by (intros task l Hl; by apply remove_first_other).
  split.
  - intros clock r q Hq.
    destruct (turn_lists runner clock r) as [[Hnil _]|(q' & raw' & Hq' & Hp & Ha)].
    + rewrite Hq in Hnil. by destruct q.
    + rewrite Hq in Hq'. apply app_inj_tail in Hq' as [<- <-]. split; [done|].
      destruct Ha as [->|[task ->]]; [by left|]. apply Hstays. by left.
  - intros turns. induction turns as [|turns IH]; intros clocks r Hin; [done|].
    cbn [DomainRunner.run]. apply IH.
    destruct (turn_lists runner (clocks 0%nat) r) as [(_ & _ & ->)|(q & raw' & _ & _ & Ha)];
      [done|].
    destruct Ha as [->|[task ->]]; [by right|]. apply Hstays. by right.
Qed.

(** A turn on a queue whose last entry is a tracked task. *)
Lemma turn_task runner clock r q task :
  let d := DomainRunner.domain_type runner in
  let r' := DomainRunner.turn build_prompt claude runner clock r in
  pending d r = q ++ [to_json task] →
  tracked (TaskMessage.task_id task) r →
  pending d r' = q
  ∧ active d r' = active d r
  ∧ settled (TaskMessage.task_id task) r'
  ∧ tracked (TaskMessage.task_id task) r'
  ∧ (∀ other, other ≠ TaskMessage.task_id task →
       Redis.hgetall (AgentMessaging.result_key other) r'
       = Redis.hgetall (AgentMessaging.result_key other) r).
Proof.
  intros d r' Hq [tid Htid]. subst r'. unfold DomainRunner.turn. fold d.
  destruct (get_next_task_snoc d 5 (clock 0%nat) q task r Hq)
    as (r1 & Hnext & Hp1 & Ha1 & _).
  pose proof (hgetall_get_next_task d 5 (clock 0%nat) q task r) as Hh1.
  rewrite Hnext in Hh1 |- *. cbn [snd] in Hh1.
  assert (Redis.hgetall (AgentMessaging.result_key (TaskMessage.task_id task)) r1
            !! "task_id" = Some tid) as Htid1.
  { rewrite (Hh1 _ Hq), decide_True by done.
    rewrite lookup_union_r; [done|]. by simplify_map_eq. }
  destruct (process_task_facts build_prompt claude runner task (clock ∘ S) r1 tid Htid1)
    as ((res & Hres & _ & _ & _ & Hterm & _) & Htracked & Hact & Hpend & _ & Hother & _).
  fold d in Hact, Hpend. split_and!.
  - by rewrite Hpend.
  - by rewrite Hact, Ha1, remove_first_head.
  - by exists res.
  - done.
  - intros other Hne. rewrite (Hother other Hne), (Hh1 _ Hq), decide_False; [done|].
    intros Heq. apply Hne. by apply (inj AgentMessaging.result_key) in Heq.
Qed.

Lemma settled_same_record task_id r r' :
  Redis.hgetall (AgentMessaging.result_key task_id) r'
  = Redis.hgetall (AgentMessaging.result_key task_id) r →
  settled task_id r → settled task_id r'.
Proof.
  intros Hsame (res & Hres & Hterm). exists res. split; [|done].
  unfold AgentMessaging.get_result in *. by rewrite Hsame.
Qed.

Lemma tracked_same_record task_id r r' :
  Redis.hgetall (AgentMessaging.result_key task_id) r'
  = Redis.hgetall (AgentMessaging.result_key task_id) r →
  tracked task_id r → tracked task_id r'.
Proof. unfold tracked. by intros ->. Qed.

Lemma run_backlog runner tasks :
  let d := DomainRunner.domain_type runner in
  ∀ clocks r (earlier : list string),
    pending d r = rev (to_json <$> tasks) →
    (∀ task, task ∈ tasks → tracked (TaskMessage.task_id task) r) →
    (∀ x, x ∈ earlier → settled x r) →
    let r' := DomainRunner.run build_prompt claude runner (length tasks) clocks r in
    pending d r' = []
    ∧ active d r' = active d r
    ∧ (∀ task, task ∈ tasks → settled (TaskMessage.task_id task) r')
    ∧ (∀ x, x ∈ earlier → settled x r').
Proof.
  intros d. induction tasks as [|task tasks IH]; intros clocks r earlier Hq Htracked Hearlier.
  { cbn. split_and!; [done|done|by intros ? ?%elem_of_nil|done]. }
  cbn [fmap list_fmap rev] in Hq. change (list_fmap _ _ to_json tasks) with (to_json <$> tasks) in Hq.
  destruct (turn_task runner (clocks 0%nat) r _ task Hq) as (Hp & Ha & Hsettled & Htr & Hother);
    [apply Htracked; by left|].
  fold d in Hp, Ha.
  set (r1 := DomainRunner.turn build_prompt claude runner (clocks 0%nat) r) in *.
  assert (∀ x, tracked x r → tracked x r1) as Hkeep.
  { intros x Hx. destruct (decide (x = TaskMessage.task_id task)) as [->|Hne]; [done|].
    apply (tracked_same_record x r); [by apply Hother|done]. }
  assert (∀ x, settled x r → settled x r1) as Hkeep'.
  { intros x Hx. destruct (decide (x = TaskMessage.task_id task)) as [->|Hne]; [done|].
    apply (settled_same_record x r); [by apply Hother|done]. }
  destruct (IH (clocks ∘ S) r1 (TaskMessage.task_id task :: earlier) Hp)
    as (Hp' & Ha' & Hs' & He').
  { intros t Ht. apply Hkeep, Htracked. by right. }
  { intros x [->|Hx]%elem_of_cons; [done|]. by apply Hkeep', Hearlier. }
  cbn [length DomainRunner.run]. fold r1. split_and!.
  - done.
  - by rewrite Ha'.
  - intros t [->|Ht]%elem_of_cons; [apply He'; by left|by apply Hs'].
  - intros x Hx. apply He'. by right.
Qed.

(** X28. A runner that finds a backlog of tracked tasks in its queue and
    makes one turn per task works the backlog off: the queue ends empty,
    the active list ends as it began, and every task of the backlog has a
    terminal result. *)
Theorem runner_works_off_backlog (runner : DomainRunner.t) (tasks : list TaskMessage.t)
    (clocks : nat → nat → string) (r : Redis.t) :
  let d := DomainRunner.domain_type runner in
  let r' := DomainRunner.run build_prompt claude runner (length tasks) clocks r in
  pending d r = rev (to_json <$> tasks) →
  (∀ task, task ∈ tasks → tracked (TaskMessage.task_id task) r) →
  pending d r' = []
  ∧ active d r' = active d r
  ∧ ∀ task, task ∈ tasks → settled (TaskMessage.task_id task) r'.
Proof.
  intros d r' Hq Htracked.
  destruct (run_backlog runner tasks clocks r [] Hq Htracked) as (Hp & Ha & Hs & _);
    [by intros ? ?%elem_of_nil|].
  by split_and!.
Qed.

End runner_turns.

Section runner_instances.
Local Existing Instance Wire.codec.
Local Existing Instance wire_laws.

(** Witness of X26. *)
Lemma process_task_settles_witness :
  let task := AgentMessaging.new_task "backend" task_a in
  let r' := DomainRunner.process_task sample_build sample_claude sample_runner task
              (λ _, "t5") store_in_progress in
  Redis.hgetall (AgentMessaging.result_key "id-1") store_in_progress !! "task_id"
    = Some "id-1"
  ∧ finished sample_build sample_claude task
  ∧ (∃ res, AgentMessaging.get_result "id-1" 0 r' = Return (Some res)
            ∧ TaskResult.status res = "completed")
  ∧ active "backend" r' = Redis.remove_first (to_json task) (active "backend" store_in_progress).
Proof.
  intros task r'.
  assert (Redis.hgetall (AgentMessaging.result_key "id-1") store_in_progress !! "task_id"
          = Some "id-1") as Htid by (vm_compute; reflexivity).
  assert (finished sample_build sample_claude task) as Hfin
    by (exists "ok"; split; reflexivity).
  destruct (process_task_settles sample_build sample_claude sample_runner task (λ _, "t5")
              store_in_progress "id-1" Htid)
    as ((res & Hres & _ & Hdone & _) & Hact & _).
  split_and!; [exact Htid|exact Hfin| |exact Hact].
  exists res. split; [exact Hres|exact (Hdone Hfin)].
Defined.

(** Witness of X27. *)
Lemma foreign_entry_stays_witness :
  (∀ task, "not a task" ≠ to_json task)
  ∧ pending "backend"
      (DomainRunner.turn sample_build sample_claude sample_runner (λ _, "t5") store_junk)
    = []
  ∧ "not a task" ∈ active "backend"
      (DomainRunner.turn sample_build sample_claude sample_runner (λ _, "t5") store_junk).
Proof.
  assert (∀ task, "not a task" ≠ to_json task) as Hraw by (intros task; discriminate).
  split; [exact Hraw|].
  exact (proj1 (foreign_entry_stays sample_build sample_claude sample_runner "not a task"
                  Hraw) (λ _, "t5") store_junk [] eq_refl).
Defined.

(** Witness of X28. *)
Lemma runner_works_off_backlog_witness :
  let tasks := [AgentMessaging.new_task "backend" task_a;
                AgentMessaging.new_task "backend" task_b] in
  let r' := DomainRunner.run sample_build sample_claude sample_runner 2 (λ _ _, "t5")
              store_ab in
  pending "backend" store_ab = rev (to_json <$> tasks)
  ∧ pending "backend" r' = []
  ∧ active "backend" r' = []
  ∧ settled "id-1" r' ∧ settled "id-2" r'.
Proof.
  intros tasks r'.
  assert (pending "backend" store_ab = rev (to_json <$> tasks)) as Hq by reflexivity.
  assert (∀ task, task ∈ tasks → tracked (TaskMessage.task_id task) store_ab) as Htracked.
  { intros task [->|Hin]%elem_of_cons; [eexists; vm_compute; reflexivity|].
    apply list_elem_of_singleton in Hin as ->. eexists. vm_compute. reflexivity. }
  destruct (runner_works_off_backlog sample_build sample_claude sample_runner tasks
              (λ _ _, "t5") store_ab Hq Htracked) as (Hp & Ha & Hs).
  split_and!; [exact Hq|exact Hp|exact Ha| |].
  - apply (Hs (AgentMessaging.new_task "backend" task_a)). by left.
  - apply (Hs (AgentMessaging.new_task "backend" task_b)). right. by left.
Defined.

End runner_instances.


(** ** The health probe *)

Lemma status_after_hset1 agent_id f v now r info :
  AgentRegistry.get_agent agent_id now r = Return (Some info) →
  f ≠ "agent_id" → f ≠ "role" →
  ∃ info', AgentRegistry.get_agent agent_id now
             (Redis.hset1 (AgentRegistry.info_key agent_id) f v r) = Return (Some info')
           ∧ AgentInfo.status info'
             = if decide (f = "status") then v else AgentInfo.status info.
Proof.
  intros Hget Hf1 Hf2.
  rewrite (get_agent_hset1 agent_id f v now r info Hget Hf1 Hf2).
  eexists. split; [reflexivity|]. cbn.
  destruct (get_agent_inv _ _ _ _ Hget) as (_ & _ & Hinfo).
  case_decide; [done|]. by rewrite Hinfo.
Qed.

(** X29. The probe of an agent whose id is in its environment, with the
    store reachable: it passes right after the agent registered, under any
    role; for a registered agent it fails once the status is "stopping",
    passes under any other status, fails after [deregister], and is blind
    to the lease, so that it still passes when the lease has run out.  For
    an agent without a record it fails, and a heartbeat does not mend it.
    It fails whenever the store cannot be reached, and it passes on the
    reachable store alone when the environment names no agent or an empty
    one. *)
Theorem check_health_lifecycle (agent_id : string) (environ : gmap string string)
    (now : string) (r : Redis.t) :
  environ !! "AGENT_ID" = Some agent_id → agent_id ≠ "" →
  let probe := HealthCheck.check_health true environ now in
  (∀ role dt cid created beat,
     probe (AgentRegistry.register agent_id role dt cid created beat r).2 = true)
  ∧ (∀ info, AgentRegistry.get_agent agent_id now r = Return (Some info) →
       probe r = negb (bool_decide (AgentInfo.status info = "stopping"))
       ∧ (∀ status, probe (AgentRegistry.update_status agent_id status r).2
                    = negb (bool_decide (status = "stopping")))
       ∧ probe (AgentRegistry.deregister agent_id now r).2 = false
       ∧ probe (AgentRegistry.lease_expired agent_id r) = probe r
       ∧ (∀ beat, probe (AgentRegistry.heartbeat agent_id beat r).2 = probe r))
  ∧ (Redis.hgetall (AgentRegistry.info_key agent_id) r = ∅ →
       probe r = false
       ∧ ∀ beat, probe (AgentRegistry.heartbeat agent_id beat r).2 = false)
  ∧ HealthCheck.check_health false environ now r = false
  ∧ (∀ env, env !! "AGENT_ID" = Some "" ∨ env !! "AGENT_ID" = None ∧ env !! "HOSTNAME" = None →
       HealthCheck.check_health true env now r = true).
Proof.
  intros Henv Hid probe.
  assert (∀ s, probe s
               = match AgentRegistry.get_agent agent_id now s with
                 | Return (Some agent) =>
                     negb (bool_decide (AgentInfo.status agent = "stopping"))
                 | _ => false
                 end) as Hprobe.
  { intros s. unfold probe, HealthCheck.check_health. cbn [negb].
    rewrite Henv, (truthy_ne _ Hid).
    destruct (AgentRegistry.get_agent agent_id now s) as [[a|]|e]; [|done..].
    by case_decide; [rewrite bool_decide_eq_true_2|rewrite bool_decide_eq_false_2]. }
  split_and!.
  - intros role dt cid created beat. rewrite Hprobe, get_agent_register. done.
  - intros info Hget. split_and!.
    + by rewrite Hprobe, Hget.
    + intros status. rewrite Hprobe. unfold AgentRegistry.update_status. cbn [snd].
      destruct (status_after_hset1 agent_id "status" status now r info Hget)
        as (info' & -> & ->); [done..|]. by rewrite decide_True.
    + rewrite Hprobe. destruct (deregister_known agent_id now r info Hget)
        as (r' & -> & Hgone & _). cbn [snd]. by rewrite (get_agent_None _ _ _ Hgone).
    + by rewrite !Hprobe.
    + intros beat. rewrite !Hprobe, Hget. unfold AgentRegistry.heartbeat. cbn [snd].
      destruct (status_after_hset1 agent_id "last_heartbeat" beat now
                  (Redis.setex (AgentRegistry.heartbeat_key agent_id)
                     AgentRegistry.HEARTBEAT_TTL beat r) info Hget)
        as (info' & -> & ->); [done..|]. by rewrite decide_False.
  - intros Hnone. split.
    + by rewrite Hprobe, (get_agent_None _ _ _ Hnone).
    + intros beat. rewrite Hprobe. unfold AgentRegistry.heartbeat. cbn [snd].
      unfold AgentRegistry.get_agent, Redis.hset1.
      rewrite hgetall_hset_eq.
      change (Redis.hgetall ?k (Redis.setex _ _ _ ?s)) with (Redis.hgetall k s).
      rewrite Hnone, (right_id_L ∅ (∪)). done.
  - done.
  - intros env [Hempty|[Hnone Hhost]]; unfold HealthCheck.check_health; cbn [negb].
    + by rewrite Hempty.
    + by rewrite Hnone, Hhost.
Qed.

(** Witness of X29. *)
Lemma check_health_lifecycle_witness :
  let environ : gmap string string := {[ "AGENT_ID" := "backend-1" ]} in
  environ !! "AGENT_ID" = Some "backend-1" ∧ "backend-1" ≠ ""
  ∧ HealthCheck.check_health true environ "t5" registry_a = true
  ∧ HealthCheck.check_health true environ "t5"
      (AgentRegistry.update_status "backend-1" "stopping" registry_a).2 = false
  ∧ HealthCheck.check_health true environ "t5"
      (AgentRegistry.lease_expired "backend-1" registry_a) = true
  ∧ HealthCheck.check_health true environ "t5"
      (AgentRegistry.heartbeat "backend-1" "t4" Redis.empty).2 = false.
Proof.
  intros environ.
  assert (environ !! "AGENT_ID" = Some "backend-1") as Henv by reflexivity.
  assert ("backend-1" ≠ "") as Hid by discriminate.
  assert (AgentRegistry.get_agent "backend-1" "t5" registry_a
          = Return (Some (AgentInfo.mk "backend-1" "domain" (Some "backend") "active"
                            (Some "c1") "t0" None))) as Hget
    by (vm_compute; reflexivity).
  destruct (check_health_lifecycle "backend-1" environ "t5" registry_a Henv Hid)
    as (_ & Hknown & _).
  destruct (Hknown _ Hget) as (Hnow & Hstatus & _ & Hlease & _).
  destruct (check_health_lifecycle "backend-1" environ "t5" Redis.empty Henv Hid)
    as (_ & _ & Hunknown & _).
  split_and!; [exact Henv|exact Hid|exact Hnow|exact (Hstatus "stopping")| |].
  - rewrite Hlease. exact Hnow.
  - exact (proj2 (Hunknown eq_refl) "t4").
Defined.
